(** * Askie: the realtime session layer of [ChatView] (src/App.tsx)

    A shallow embedding of the conversation controller: the React state and
    the refs of [ChatView] become one record, every callback becomes a
    function on that record, and the browser objects the callbacks drive
    (timers, audio nodes, media tracks, the live session) are kept as
    explicit platform fields of the same record.  The session history and
    the settings in localStorage, the voice-to-story view and the search of
    the parent dashboard follow, in the same style.

    Conventions.
    - [Date.now()] is read from the argument [now] (milliseconds).  One
      synchronous run of a callback sees one reading.  The same reading is
      the event-loop time at which [window.setTimeout] arms a timer.
    - [audioContext.currentTime] is the argument [currentTime]; audio times
      and durations are exact numbers on one integer time scale.
    - A [setConversation(prev => ...)] updater is applied when it is queued,
      in queue order.  The updaters of the two transcription branches read
      [userInputRef.current] / [aiResponseRef.current] and [Date.now()] when
      React runs them, which may be later than when they are queued; the
      embedding takes both at queue time.  Code and embedding agree on the
      text whenever [turnComplete] does not empty the buffers between the
      queueing of an updater and its run by React; where [turnComplete] is
      handled first (it may come in the same server message as the
      fragment), the code stores the empty text and the embedding the text
      buffered so far.
    - [statusRef.current = status] is executed by [render].
    - An [await] is a point where the callback is parked and other callbacks
      run; the environment decides which parked callback resumes next.

    Left out, as they do not feed back into the controller: the microphone
    volume and the audio frames sent upstream ([onaudioprocess]), the system
    instruction and tool list chosen by the mode, and everything that is
    rendering. *)

From Stdlib Require Import ZArith List String Ascii Bool Lia.
From coqutil Require Import Datatypes.RecordSettersUsingExistingGetters.
Import ListNotations.
Local Open Scope Z_scope.

(* [r <| field := v |>] unfolds to the record with [v] in place when simplified. *)
#[local] Arguments const {E} newValue _ /.

(** ** types.ts *)

Inductive ConversationStatus : Type :=
  | IDLE | LISTENING | PROCESSING | THINKING | SPEAKING | ERROR.

Inductive Speaker : Type := user | ai.

Inductive Feedback : Type := up | down.

(** [feedback?: 'up' | 'down' | null]: the field may be missing, null, or set. *)
Inductive FeedbackField : Type :=
  | fb_undefined
  | fb_null
  | fb_value (f : Feedback).

Record Message : Type := {
  id : Z;
  speaker : Speaker;
  text : string;
  imageUrl : option string;
  isGeneratingImage : option bool;
  feedback : FeedbackField
}.

Definition status_eq_dec (a b : ConversationStatus) : {a = b} + {a <> b}.
Proof. decide equality. Defined.

Definition speaker_eq_dec (a b : Speaker) : {a = b} + {a <> b}.
Proof. decide equality. Defined.

Definition feedback_eq_dec (a b : Feedback) : {a = b} + {a <> b}.
Proof. decide equality. Defined.

(** [msg.feedback === feedback] for [feedback : 'up' | 'down']. *)
Definition feedback_is (field : FeedbackField) (f : Feedback) : bool :=
  match field with
  | fb_value g => if feedback_eq_dec g f then true else false
  | _ => false
  end.

(** A field that shows no feedback: missing or null. *)
Definition no_feedback (field : FeedbackField) : Prop :=
  field = fb_undefined \/ field = fb_null.

(** JavaScript truthiness of a string. *)
Definition truthy (s : string) : bool :=
  match s with
  | EmptyString => false
  | String _ _ => true
  end.

Definition isSome {A : Type} (o : option A) : bool :=
  match o with
  | Some _ => true
  | None => false
  end.

(** [prev[prev.length - 1]] *)
Definition lastOf {A : Type} (l : list A) : option A := nth_error l (List.length l - 1)%nat.

(** ** The wire messages and the asynchronous work in flight *)

Record FunctionCall : Type := {
  fc_id : string;
  fc_name : string;
  fc_prompt : string;          (* fc.args.prompt *)
  fc_style : option string     (* fc.args.style *)
}.

(** [part.inlineData?.data] of one part of [serverContent.modelTurn.parts]. *)
Definition Part : Type := option string.

Record LiveServerMessage : Type := {
  toolCall : option (list FunctionCall);
  inputTranscription : option string;
  outputTranscription : option string;
  turnComplete : bool;
  modelTurn : option (list Part);
  interrupted : bool
}.

Record InlineData : Type := {
  mimeType : string;
  data : string
}.

(** What [ai.models.generateContent] does: it throws, or it answers with the
    parts of the first candidate ([part.inlineData] present or not). *)
Inductive GenerateContentOutcome : Type :=
  | ApiThrows (message : string)
  | ApiResponse (parts : list (option InlineData)).

Inductive AudioContextState : Type := suspended | running | closed.

(** An [AudioBufferSourceNode]: [node] is its identity, [startAt] the [when]
    given to [start], [started] whether [start] has been called, [greeting]
    whether its [onended] is the one installed by [initiate]. *)
Record AudioSource : Type := {
  node : nat;
  buffer : string;
  startAt : Z;
  duration : Z;
  started : bool;
  greeting : bool
}.

(** An [onmessage] run suspended at [await decodeAudioData(decode(audioData), ...)]:
    the chunk being decoded, the parts the loop has not reached yet, and the
    [interrupted] flag of the message, which is tested after the loop. *)
Record Decode : Type := {
  audioData : string;
  restParts : list Part;
  thenInterrupted : bool
}.

(** A [generateImageForResponse(...)] promise that has not resolved yet. *)
Record ImageJob : Type := {
  imageMessageId : Z;
  job_prompt : string;
  job_style : option string
}.

(** ** ChatView: React state, refs, and the platform objects they point to *)

Record ChatView : Type := {
  (* useState *)
  status : ConversationStatus;
  conversation : list Message;
  error : option string;
  permissionDenied : bool;
  (* useRef *)
  aiRef : bool;
  sessionRef : option nat;
  inputAudioContextRef : option AudioContextState;
  outputAudioContextRef : option AudioContextState;
  mediaStreamRef : option (list nat);
  scriptProcessorRef : option nat;
  userInputRef : string;
  aiResponseRef : string;
  nextAudioStartTimeRef : Z;
  audioSourcesRef : list AudioSource;
  speechEndTimeoutRef : option Z;
  statusRef : ConversationStatus;
  (* platform: what has been done to the objects behind the refs *)
  closedSessions : list nat;
  stoppedTracks : list nat;
  disconnectedNodes : list nat;
  scheduled : list AudioSource;
  stoppedSources : list nat;
  decoding : list Decode;
  imageJobs : list ImageJob;
  toolResponses : list string;
  micRequests : nat
}.

(** The component as first mounted. *)
Definition mounted : ChatView := {|
  status := IDLE;
  conversation := [];
  error := None;
  permissionDenied := false;
  aiRef := false;
  sessionRef := None;
  inputAudioContextRef := None;
  outputAudioContextRef := None;
  mediaStreamRef := None;
  scriptProcessorRef := None;
  userInputRef := EmptyString;
  aiResponseRef := EmptyString;
  nextAudioStartTimeRef := 0;
  audioSourcesRef := [];
  speechEndTimeoutRef := None;
  statusRef := IDLE;
  closedSessions := [];
  stoppedTracks := [];
  disconnectedNodes := [];
  scheduled := [];
  stoppedSources := [];
  decoding := [];
  imageJobs := [];
  toolResponses := [];
  micRequests := 0
|}.

(** [statusRef.current = status], executed on every render. *)
Definition render (s : ChatView) : ChatView := s <| statusRef := status s |>.

(** ** Outcome of a callback that may throw

    [Throws e s]: the callback threw [e]; [s] is the state the statements
    executed before the throw have left behind. *)

Inductive Thrown : Type :=
  | ErrorObject (name message : string)     (* err instanceof Error *)
  | OtherValue.

Inductive Outcome : Type :=
  | Returns (s : ChatView)
  | Throws (e : Thrown) (s : ChatView).

Definition returned (o : Outcome) : bool :=
  match o with
  | Returns _ => true
  | Throws _ _ => false
  end.

Definition stateOf (o : Outcome) : ChatView :=
  match o with
  | Returns s => s
  | Throws _ s => s
  end.

Definition removeAt {A : Type} (k : nat) (l : list A) : list A :=
  firstn k l ++ skipn (S k) l.

(** ** cleanup (App.tsx 460-482) *)

(** [audioSourcesRef.current.forEach(source => source.stop())].  The Web Audio
    [stop] throws InvalidStateError on a node whose [start] was never called;
    the nodes visited before it have been stopped by then.  The result is the
    log of stopped nodes and whether the loop ran to its end. *)
Fixpoint stopEach (sources : list AudioSource) (log : list nat) : list nat * bool :=
  match sources with
  | [] => (log, true)
  | source :: rest =>
      if started source then stopEach rest (log ++ [node source]) else (log, false)
  end.

Definition stopWithoutStart : Thrown :=
  ErrorObject "InvalidStateError" "cannot call stop without calling start first".

(** [if (ctx.current && ctx.current.state !== 'closed') ctx.current.close()];
    the ref keeps pointing at the context. *)
Definition closeContext (ctx : option AudioContextState) : option AudioContextState :=
  match ctx with
  | Some closed => Some closed
  | Some _ => Some closed
  | None => None
  end.

Definition cleanup (s : ChatView) : Outcome :=
  (* clearTimeout: a pending debounce timer is cancelled *)
  let s1 := s <| speechEndTimeoutRef := None |> in
  let s2 := match sessionRef s1 with
            | Some session =>
                s1 <| closedSessions ::= fun l => l ++ [session] |> <| sessionRef := None |>
            | None => s1
            end in
  let s3 := match mediaStreamRef s2 with
            | Some tracks =>
                s2 <| stoppedTracks ::= fun l => l ++ tracks |> <| mediaStreamRef := None |>
            | None => s2
            end in
  let s4 := match scriptProcessorRef s3 with
            | Some processor =>
                s3 <| disconnectedNodes ::= fun l => l ++ [processor] |>
                   <| scriptProcessorRef := None |>
            | None => s3
            end in
  let s5 := s4 <| inputAudioContextRef ::= closeContext |>
               <| outputAudioContextRef ::= closeContext |> in
  let (log, completed) := stopEach (audioSourcesRef s5) (stoppedSources s5) in
  if completed
  then Returns (s5 <| stoppedSources := log |> <| audioSourcesRef := [] |>)
  else Throws stopWithoutStart (s5 <| stoppedSources := log |>).

(** ** handleFeedback (App.tsx 484-490) *)

Definition handleFeedback (messageId : Z) (fb : Feedback) (s : ChatView) : ChatView :=
  s <| conversation ::=
         map (fun msg =>
                if id msg =? messageId
                then msg <| feedback := if feedback_is (feedback msg) fb
                                        then fb_null else fb_value fb |>
                else msg) |>.

(** ** generateImageForResponse (App.tsx 21-41) *)

Fixpoint firstInlineData (parts : list (option InlineData)) : option string :=
  match parts with
  | [] => None
  | Some inlineData :: _ =>
      Some ("data:" ++ mimeType inlineData ++ ";base64," ++ data inlineData)%string
  | None :: rest => firstInlineData rest
  end.

(** [`A simple, friendly, cute ${style} illustration for a child about: ${prompt}`]
    with [style = 'cartoon'] when the argument is undefined. *)
Definition imagePrompt (prompt : string) (style : option string) : string :=
  ("A simple, friendly, cute "
   ++ match style with Some st => st | None => "cartoon" end
   ++ " illustration for a child about: " ++ prompt)%string.

(** [generateContent] is the remote model: what it does with a request text. *)
Definition generateImageForResponse (ai : bool) (prompt : string) (style : option string)
    (generateContent : string -> GenerateContentOutcome) : option string :=
  if negb ai || negb (truthy prompt) then None
  else match generateContent (imagePrompt prompt style) with
       | ApiThrows _ => None                    (* catch (e) { ...; return null } *)
       | ApiResponse parts => firstInlineData parts
       end.

(** ** onmessage (App.tsx 572-648) *)

Definition dquote : string := String (ascii_of_nat 34) EmptyString.

(** [`Ok, drawing a ${style || 'cartoon'} of: "${prompt}"`] *)
Definition drawingText (style : option string) (prompt : string) : string :=
  ("Ok, drawing a "
   ++ match style with
      | Some st => if truthy st then st else "cartoon"
      | None => "cartoon"
      end
   ++ " of: " ++ dquote ++ prompt ++ dquote)%string.

Definition onFunctionCall (now : Z) (fc : FunctionCall) (s : ChatView) : ChatView :=
  if (fc_name fc =? "generateImage")%string && isSome (sessionRef s) && aiRef s
  then
    let placeholder := {| id := now; speaker := ai;
                          text := drawingText (fc_style fc) (fc_prompt fc);
                          imageUrl := None; isGeneratingImage := Some true;
                          feedback := fb_undefined |} in
    s <| conversation ::= fun prev => prev ++ [placeholder] |>
      <| imageJobs ::= fun jobs =>
           jobs ++ [{| imageMessageId := now; job_prompt := fc_prompt fc;
                       job_style := fc_style fc |}] |>
      <| toolResponses ::= fun sent => sent ++ [fc_id fc] |>
  else s.

(** The updater shared by both transcription branches:
    [last?.speaker === sp ? [...prev.slice(0, -1), {...last, text}] :
                            [...prev, {id: Date.now(), speaker: sp, text}]]. *)
Definition transcriptUpdater (sp : Speaker) (now : Z) (buffered : string)
    (prev : list Message) : list Message :=
  let fresh := {| id := now; speaker := sp; text := buffered; imageUrl := None;
                  isGeneratingImage := None; feedback := fb_undefined |} in
  match lastOf prev with
  | Some last =>
      if speaker_eq_dec (speaker last) sp
      then removelast prev ++ [last <| text := buffered |>]
      else prev ++ [fresh]
  | None => prev ++ [fresh]
  end.

(** The two transcription branches; the buffer is read for the updater when
    it is queued (see the conventions). *)
Definition onInputTranscription (now : Z) (fragment : string) (s : ChatView) : ChatView :=
  let s1 := s <| speechEndTimeoutRef := Some (now + 1200) |>
              <| userInputRef := (userInputRef s ++ fragment)%string |> in
  s1 <| conversation ::= transcriptUpdater user now (userInputRef s1) |>.

Definition onOutputTranscription (now : Z) (fragment : string) (s : ChatView) : ChatView :=
  let s1 := s <| speechEndTimeoutRef := None |>
              <| status := SPEAKING |>
              <| aiResponseRef := (aiResponseRef s ++ fragment)%string |> in
  s1 <| conversation ::= transcriptUpdater ai now (aiResponseRef s1) |>.

Definition onTurnComplete (s : ChatView) : ChatView :=
  let s1 := s <| speechEndTimeoutRef := None |>
              <| userInputRef := EmptyString |>
              <| aiResponseRef := EmptyString |> in
  if status_eq_dec (statusRef s1) ERROR then s1 else s1 <| status := LISTENING |>.

(** [if (message.serverContent?.interrupted) { ... }].  The handler is async:
    a throw inside it rejects its promise and leaves the state as it is. *)
Definition onInterrupted (s : ChatView) : ChatView :=
  let (log, completed) := stopEach (audioSourcesRef s) (stoppedSources s) in
  if completed
  then s <| stoppedSources := log |> <| audioSourcesRef := [] |>
         <| nextAudioStartTimeRef := 0 |>
  else s <| stoppedSources := log |>.

(** The loop over [modelTurn.parts] from one of its positions on, up to the
    next [await decodeAudioData] (the run is then parked in [decoding]), or
    through the [interrupted] test when no part is left. *)
Fixpoint playParts (currentTime : Z) (parts : list Part) (thenInterrupt : bool)
    (s : ChatView) : ChatView :=
  match parts with
  | [] => if thenInterrupt then onInterrupted s else s
  | part :: rest =>
      match part with
      | Some audio =>
          if truthy audio && isSome (outputAudioContextRef s)
          then s <| nextAudioStartTimeRef := Z.max (nextAudioStartTimeRef s) currentTime |>
                 <| decoding ::= fun waiting =>
                      waiting ++ [{| audioData := audio; restParts := rest;
                                     thenInterrupted := thenInterrupt |}] |>
          else playParts currentTime rest thenInterrupt s
      | None => playParts currentTime rest thenInterrupt s
      end
  end.

Definition onmessage (now currentTime : Z) (message : LiveServerMessage)
    (s : ChatView) : ChatView :=
  let s1 := match toolCall message with
            | Some functionCalls =>
                fold_left (fun acc fc => onFunctionCall now fc acc) functionCalls s
            | None => s
            end in
  let s2 := match inputTranscription message with
            | Some fragment => onInputTranscription now fragment s1
            | None => s1
            end in
  let s3 := match outputTranscription message with
            | Some fragment => onOutputTranscription now fragment s2
            | None => s2
            end in
  let s4 := if turnComplete message then onTurnComplete s3 else s3 in
  playParts currentTime
    (match modelTurn message with Some parts => parts | None => [] end)
    (interrupted message) s4.

(** The [await decodeAudioData] of the [k]-th parked run resolves with a buffer
    of duration [bufferDuration]: the run creates the source, starts it at the
    cursor, advances the cursor, adds the source to the set and goes on with
    the loop. *)
Definition decoded (k : nat) (currentTime bufferDuration : Z) (s : ChatView) : ChatView :=
  match nth_error (decoding s) k with
  | None => s
  | Some parked =>
      let source := {| node := List.length (scheduled s); buffer := audioData parked;
                       startAt := nextAudioStartTimeRef s; duration := bufferDuration;
                       started := true; greeting := false |} in
      playParts currentTime (restParts parked) (thenInterrupted parked)
        (s <| decoding ::= removeAt k |>
           <| scheduled ::= fun l => l ++ [source] |>
           <| nextAudioStartTimeRef := nextAudioStartTimeRef s + bufferDuration |>
           <| audioSourcesRef ::= fun set => set ++ [source] |>)
  end.

(** The decode of the [k]-th parked run rejects: the run ends there. *)
Definition decodeFailed (k : nat) (s : ChatView) : ChatView :=
  s <| decoding ::= removeAt k |>.

(** [source.onended = () => audioSourcesRef.current.delete(source)] *)
Definition onended (n : nat) (s : ChatView) : ChatView :=
  s <| audioSourcesRef ::= filter (fun source => negb (node source =? n)%nat) |>.

(** The [.then(imageUrl => setConversation(...))] of the [k]-th pending image. *)
Definition imageResolved (k : nat) (generateContent : string -> GenerateContentOutcome)
    (s : ChatView) : ChatView :=
  match nth_error (imageJobs s) k with
  | None => s
  | Some job =>
      let url := generateImageForResponse true (job_prompt job) (job_style job)
                   generateContent in
      s <| imageJobs ::= removeAt k |>
        <| conversation ::=
             map (fun msg =>
                    if id msg =? imageMessageId job
                    then msg <| imageUrl := url |> <| isGeneratingImage := Some false |>
                    else msg) |>
  end.

(** The callback given to [window.setTimeout(..., 1200)]. *)
Definition speechEndTimeout (s : ChatView) : ChatView :=
  if status_eq_dec (statusRef s) LISTENING then s <| status := THINKING |> else s.

(** The event loop reaches time [t]: a debounce timer that is still pending
    and due runs its callback, once. *)
Definition timePasses (t : Z) (s : ChatView) : ChatView :=
  match speechEndTimeoutRef s with
  | Some due => if due <=? t then speechEndTimeout (s <| speechEndTimeoutRef := None |>) else s
  | None => s
  end.

(** ** startListeningForUser and the session callbacks (App.tsx 492-678) *)

Inductive MicOutcome : Type :=
  | MicGranted (tracks : list nat)
  | MicThrows (e : Thrown).

(** What the environment answers while [startListeningForUser] runs:
    whether [process.env.API_KEY] is set, what [getUserMedia] does, and the
    handle of the session [ai.live.connect] promises. *)
Record StartEnv : Type := {
  API_KEY : bool;
  getUserMedia : MicOutcome;
  connect : nat
}.

(** [haystack.includes(needle)] *)
Definition includes (haystack needle : string) : bool :=
  isSome (String.index 0 needle haystack).

Definition startListeningForUser (env : StartEnv) (s : ChatView) : Outcome :=
  let s0 := s <| permissionDenied := false |> <| error := None |>
              <| status := PROCESSING |> in
  if negb (API_KEY env)
  then Returns (s0 <| error := Some "API_KEY is not set."%string |> <| status := ERROR |>)
  else
    let s1 := s0 <| micRequests ::= S |> in
    match getUserMedia env with
    | MicGranted tracks =>
        Returns
          (s1 <| mediaStreamRef := Some tracks |>
              <| inputAudioContextRef := Some running |>
              <| outputAudioContextRef ::= fun ctx =>
                   match ctx with
                   | None | Some closed => Some running
                   | Some st => Some st
                   end |>
              <| aiRef := true |>
              <| sessionRef := Some (connect env) |>)
    | MicThrows err =>
        let s2 :=
          match err with
          | ErrorObject name message =>
              if (name =? "NotAllowedError")%string || includes message "Permission denied"
              then s1 <| permissionDenied := true |>
                      <| error := Some "Microphone access was denied. Please allow it in your browser settings and try again."%string |>
              else s1 <| error := Some message |>
          | OtherValue => s1 <| error := Some "An unknown error occurred."%string |>
          end in
        cleanup (s2 <| status := ERROR |>)
    end.

(** [onopen]: [processor] is the ScriptProcessorNode it creates. *)
Definition onopen (processor : nat) (s : ChatView) : ChatView :=
  s <| scriptProcessorRef := Some processor |> <| status := LISTENING |>.

(** [onerror]: [message] is [e.message]. *)
Definition onerror (message : string) (s : ChatView) : Outcome :=
  cleanup
    (s <| error := Some ("An error occurred: "
                         ++ (if truthy message then message else "Please try again."))%string |>
       <| status := ERROR |>).

Definition stopConversation (s : ChatView) : Outcome :=
  match cleanup s with
  | Returns s' => Returns (s' <| status := IDLE |>)
  | Throws e s' => Throws e s'
  end.

Definition handleToggleConversation (env : StartEnv) (s : ChatView) : Outcome :=
  if status_eq_dec (status s) IDLE then startListeningForUser env s
  else if status_eq_dec (status s) ERROR then startListeningForUser env s
  else stopConversation s.

(** [handleFileChange] with the file read to [dataUrl] ([None]: no file chosen). *)
Definition handleFileChange (now : Z) (file : option string) (s : ChatView) : ChatView :=
  match file with
  | None => s
  | Some dataUrl =>
      if isSome (sessionRef s)
      then s <| conversation ::= fun prev =>
                  prev ++ [{| id := now; speaker := user; text := "Here's a picture.";
                              imageUrl := Some dataUrl; isGeneratingImage := None;
                              feedback := fb_undefined |}] |>
      else s <| error := Some "Please start the conversation before sending an image."%string |>
  end.

(** ** The assistant-initiated start (App.tsx 420-432, 713-764) *)

Inductive AppMode : Type :=
  | homework | free_chat | learning | voice_to_story | read_and_learn.

Definition getInitialAiPrompt (mode : AppMode) (buddyName : string) : option string :=
  match mode with
  | homework =>
      Some ("Hello! I'm " ++ buddyName ++ ", and I'm here to help with your homework. What subject are we working on today? You can tell me, or even show me a picture of your work.")%string
  | learning =>
      Some ("Hi there! I'm " ++ buddyName ++ ". I'm so excited to learn with you! What are you curious about today? We can talk about anything, like animals, space, or dinosaurs!")%string
  | read_and_learn =>
      Some ("Welcome to Read and Learn! I'm " ++ buddyName ++ ", and I love stories. Would you like to hear a fun story about a squirrel who learned to fly, or would you like to learn about something new?")%string
  | free_chat | voice_to_story => None
  end.

(** What the speech synthesis call does: it throws, or it answers, with or
    without [candidates[0].content.parts[0].inlineData.data]. *)
Inductive SynthOutcome : Type :=
  | SynthThrows (e : Thrown)
  | SynthResponse (audio : option string).

Inductive DecodeOutcome : Type :=
  | DecodeOk (bufferDuration : Z)
  | DecodeThrows (e : Thrown).

Record InitEnv : Type := {
  synthesize : SynthOutcome;
  decodeGreeting : DecodeOutcome;
  startEnv : StartEnv
}.

(** The [catch (err)] of [initiate]. *)
Definition initiateCaught (err : Thrown) (s : ChatView) : ChatView :=
  s <| error := Some (match err with
                      | ErrorObject _ message => message
                      | OtherValue => "An unknown error occurred while starting."%string
                      end) |>
    <| status := ERROR |>.

Definition initiate (now : Z) (initialPrompt : string) (env : InitEnv)
    (s : ChatView) : ChatView :=
  let s0 := s <| status := PROCESSING |>
              <| conversation := [{| id := now; speaker := ai; text := initialPrompt;
                                     imageUrl := None; isGeneratingImage := None;
                                     feedback := fb_undefined |}] |> in
  if negb (API_KEY (startEnv env))
  then s0 <| error := Some "API_KEY is not set."%string |> <| status := ERROR |>
  else
    let s1 := s0 <| aiRef := true |> in
    match synthesize env with
    | SynthThrows err => initiateCaught err s1
    | SynthResponse audio =>
        match audio with
        | Some (String c rest) =>
            let s2 := s1 <| status := SPEAKING |>
                        <| outputAudioContextRef := Some running |> in
            match decodeGreeting env with
            | DecodeThrows err => initiateCaught err s2
            | DecodeOk bufferDuration =>
                let source := {| node := List.length (scheduled s2);
                                 buffer := String c rest; startAt := 0;
                                 duration := bufferDuration; started := true;
                                 greeting := true |} in
                s2 <| scheduled ::= fun l => l ++ [source] |>
                   <| audioSourcesRef ::= fun set => set ++ [source] |>
            end
        | _ =>
            (* If TTS fails, just go to listening mode. *)
            match startListeningForUser (startEnv env) s1 with
            | Returns s' => s'
            | Throws err s' => initiateCaught err s'
            end
        end
    end.

(** The effect body: [initiate] runs only when the mode has an opening line. *)
Definition mountEffect (now : Z) (mode : AppMode) (buddyName : string) (env : InitEnv)
    (s : ChatView) : ChatView :=
  match getInitialAiPrompt mode buddyName with
  | Some initialPrompt => initiate now initialPrompt env s
  | None => s
  end.

(** [onended] of the greeting source:
    [audioSourcesRef.current.delete(source); startListeningForUser()]. *)
Definition greetingEnded (env : StartEnv) (n : nat) (s : ChatView) : Outcome :=
  startListeningForUser env (onended n s).

(** ** Events of a running session *)

Inductive Event : Type :=
  | Server (now currentTime : Z) (message : LiveServerMessage)
  | Decoded (k : nat) (currentTime bufferDuration : Z)
  | DecodeFailed (k : nat)
  | ImageResolved (k : nat) (generateContent : string -> GenerateContentOutcome)
  | Ended (n : nat)
  | TimePasses (t : Z)
  | Rendered
  | FeedbackGiven (messageId : Z) (fb : Feedback)
  | FileChosen (now : Z) (file : option string).

Definition deliver (ev : Event) (s : ChatView) : ChatView :=
  match ev with
  | Server now currentTime message => onmessage now currentTime message s
  | Decoded k currentTime bufferDuration => decoded k currentTime bufferDuration s
  | DecodeFailed k => decodeFailed k s
  | ImageResolved k generateContent => imageResolved k generateContent s
  | Ended n => onended n s
  | TimePasses t => timePasses t s
  | Rendered => render s
  | FeedbackGiven messageId fb => handleFeedback messageId fb s
  | FileChosen now file => handleFileChange now file s
  end.

Definition run (events : list Event) (s : ChatView) : ChatView :=
  fold_left (fun acc ev => deliver ev acc) events s.

(** Messages that carry one thing only. *)
Definition silent : LiveServerMessage := {|
  toolCall := None; inputTranscription := None; outputTranscription := None;
  turnComplete := false; modelTurn := None; interrupted := false
|}.

Definition userFragment (fragment : string) : LiveServerMessage :=
  silent <| inputTranscription := Some fragment |>.

Definition assistantFragment (fragment : string) : LiveServerMessage :=
  silent <| outputTranscription := Some fragment |>.

Definition turnCompleteSignal : LiveServerMessage := silent <| turnComplete := true |>.

Definition interruptionSignal : LiveServerMessage := silent <| interrupted := true |>.

Definition audioChunk (audio : string) : LiveServerMessage :=
  silent <| modelTurn := Some [Some audio] |>.

Definition toolCallRequest (functionCalls : list FunctionCall) : LiveServerMessage :=
  silent <| toolCall := Some functionCalls |>.

(** ** Vocabulary of the properties *)

(** A start that succeeds: the key is set, the microphone is granted. *)
Definition grantedEnv : StartEnv :=
  {| API_KEY := true; getUserMedia := MicGranted [0%nat]; connect := 0%nat |}.

(** A session that has just opened and rendered, with nothing said yet. *)
Definition listening : ChatView :=
  render (onopen 0 (stateOf (startListeningForUser grantedEnv mounted))).

(** Every node in the active set has had [start] called on it. *)
Definition sourcesStarted (s : ChatView) : Prop :=
  Forall (fun source => started source = true) (audioSourcesRef s).

(** The audio chunks a server message enqueues, in the order of its parts. *)
Definition chunksOf (message : LiveServerMessage) : list string :=
  match modelTurn message with
  | Some parts =>
      flat_map (fun part : Part =>
                  match part with
                  | Some audio => if truthy audio then [audio] else []
                  | None => []
                  end) parts
  | None => []
  end.

(** The chunks of a run of events in arrival order. *)
Definition arrivals (events : list Event) : list string :=
  flat_map (fun ev => match ev with
                      | Server _ _ message => chunksOf message
                      | _ => []
                      end) events.

(** [next] starts no earlier than [first] starts, and no earlier than it ends. *)
Definition backToBack (first next : AudioSource) : Prop :=
  startAt first <= startAt next /\ startAt first + duration first <= startAt next.

(** A schedule whose consecutive entries are back to back. *)
Definition scheduledInOrder (sources : list AudioSource) : Prop :=
  forall i first next,
    nth_error sources i = Some first ->
    nth_error sources (S i) = Some next ->
    backToBack first next.

(** Chunks that arrive one after the other are scheduled back to back. *)
Definition playsInArrivalOrder (events : list Event) (s : ChatView) : Prop :=
  forall i a b first next,
    nth_error (arrivals events) i = Some a ->
    nth_error (arrivals events) (S i) = Some b ->
    In first (scheduled (run events s)) -> buffer first = a ->
    In next (scheduled (run events s)) -> buffer next = b ->
    backToBack first next.

(** An event that neither interrupts playback nor reports a negative duration. *)
Definition undisturbed (ev : Event) : Prop :=
  match ev with
  | Server _ _ message => interrupted message = false
  | Decoded _ _ bufferDuration => 0 <= bufferDuration
  | _ => True
  end.

Definition closedOrAbsent (ctx : option AudioContextState) : Prop :=
  ctx = None \/ ctx = Some closed.

(** Everything [before] held has been let go of in [after]: the timer is
    cleared; the session is closed, the tracks are stopped and the processor
    is disconnected, and their refs are null; no audio context is open, and a
    context that [before] held is still the one in the ref, now closed; the
    sources of the set are stopped and the set is empty. *)
Definition released (before after : ChatView) : Prop :=
  speechEndTimeoutRef after = None
  /\ sessionRef after = None
  /\ (forall session, sessionRef before = Some session -> In session (closedSessions after))
  /\ mediaStreamRef after = None
  /\ (forall tracks track, mediaStreamRef before = Some tracks -> In track tracks ->
        In track (stoppedTracks after))
  /\ scriptProcessorRef after = None
  /\ (forall processor, scriptProcessorRef before = Some processor ->
        In processor (disconnectedNodes after))
  /\ closedOrAbsent (inputAudioContextRef after)
  /\ closedOrAbsent (outputAudioContextRef after)
  /\ audioSourcesRef after = []
  /\ (forall source, In source (audioSourcesRef before) ->
        In (node source) (stoppedSources after))
  /\ (forall ctx, inputAudioContextRef before = Some ctx ->
        inputAudioContextRef after = Some closed)
  /\ (forall ctx, outputAudioContextRef before = Some ctx ->
        outputAudioContextRef after = Some closed).

(** The capture-start sequence has asked for the microphone between the two states. *)
Definition captureStarted (before after : ChatView) : Prop :=
  micRequests after = S (micRequests before).


(** The placeholder after its image has resolved to [url]. *)
Definition resolvedWith (url : option string) (msg : Message) : Message :=
  msg <| imageUrl := url |> <| isGeneratingImage := Some false |>.

(** [msg] after [handleFeedback] with [fb] has reached it. *)
Definition toggled (fb : Feedback) (msg : Message) : Message :=
  msg <| feedback := if feedback_is (feedback msg) fb then fb_null else fb_value fb |>.

(** Two requests for a picture, as one [toolCall] may carry them. *)
Definition drawCat : FunctionCall :=
  {| fc_id := "call-1"; fc_name := "generateImage"; fc_prompt := "a cat";
     fc_style := None |}.

Definition drawDog : FunctionCall :=
  {| fc_id := "call-2"; fc_name := "generateImage"; fc_prompt := "a dog";
     fc_style := Some "sketch"%string |}.

(** The placeholder [onFunctionCall] builds for [fc] at time [now]. *)
Definition placeholderFor (now : Z) (fc : FunctionCall) : Message :=
  {| id := now; speaker := ai; text := drawingText (fc_style fc) (fc_prompt fc);
     imageUrl := None; isGeneratingImage := Some true; feedback := fb_undefined |}.

(** Handling the tool call [fc] in [s] appends a Message that is generating. *)
Definition insertsPlaceholder (now currentTime : Z) (fc : FunctionCall) (s : ChatView) : Prop :=
  exists placeholder,
    conversation (onmessage now currentTime (toolCallRequest [fc]) s)
    = conversation s ++ [placeholder]
    /\ isGeneratingImage placeholder = Some true.

(** User fragments, each with the clock readings at its arrival. *)
Definition userFragments (fragments : list (Z * Z * string)) : list Event :=
  map (fun '(now, currentTime, fragment) => Server now currentTime (userFragment fragment))
      fragments.

Definition textOf (fragments : list (Z * Z * string)) : string :=
  fold_right (fun '(_, _, fragment) rest => (fragment ++ rest)%string) EmptyString fragments.

(** [s'] has the playback fields of [s]. *)
Definition samePlayback (s s' : ChatView) : Prop :=
  audioSourcesRef s' = audioSourcesRef s
  /\ scheduled s' = scheduled s
  /\ nextAudioStartTimeRef s' = nextAudioStartTimeRef s
  /\ decoding s' = decoding s
  /\ stoppedSources s' = stoppedSources s
  /\ outputAudioContextRef s' = outputAudioContextRef s.

(** No parked [onmessage] run will execute the [interrupted] branch. *)
Definition noPendingInterruption (s : ChatView) : Prop :=
  Forall (fun parked => thenInterrupted parked = false) (decoding s).

(** What a listener hears of a source: the chunk and how long it lasts. *)
Definition chunkOf (source : AudioSource) : string * Z := (buffer source, duration source).

(** The decodes that complete during a run of events, in the order in which
    they complete: a [Decoded k] event completes the decode of the run parked
    at position [k], when there is one, with a buffer of the given duration. *)
Fixpoint completions (events : list Event) (s : ChatView) : list (string * Z) :=
  match events with
  | [] => []
  | ev :: rest =>
      match ev with
      | Decoded k _ bufferDuration =>
          match nth_error (decoding s) k with
          | Some parked => [(audioData parked, bufferDuration)]
          | None => []
          end
      | _ => []
      end ++ completions rest (deliver ev s)
  end.

(** An event with which no audio chunk arrives and no decode ends. *)
Definition noAudio (ev : Event) : Prop :=
  match ev with
  | Server _ _ message => chunksOf message = []
  | Decoded _ _ _ | DecodeFailed _ => False
  | _ => True
  end.

(** An event that brings no audio and does not interrupt playback. *)
Definition uneventful (ev : Event) : Prop := noAudio ev /\ undisturbed ev.




(** Chunks that are each decoded before the next one arrives: the audio
    data, the audio clock at arrival and the duration of the decoded buffer. *)
Definition oneByOne (chunks : list (string * Z * Z)) : list Event :=
  flat_map (fun '(audio, currentTime, bufferDuration) =>
              [ Server 0 currentTime (audioChunk audio);
                Decoded 0 currentTime bufferDuration ]) chunks.

(** ** More of ChatView: what the button shows (App.tsx 783-792, 863) *)

Inductive ButtonContent : Type := Starting | Stop | StartTalking.

Definition getButtonContent (st : ConversationStatus) : ButtonContent :=
  match st with
  | PROCESSING => Starting
  | LISTENING | SPEAKING | THINKING => Stop
  | _ => StartTalking
  end.

(** [disabled={status === ConversationStatus.PROCESSING}] *)
Definition buttonDisabled (st : ConversationStatus) : bool :=
  if status_eq_dec st PROCESSING then true else false.

(** Assistant fragments, each with the clock readings at its arrival. *)
Definition assistantFragments (fragments : list (Z * Z * string)) : list Event :=
  map (fun '(now, currentTime, fragment) =>
         Server now currentTime (assistantFragment fragment))
      fragments.

(** What never changes about a Message once it is in the transcript. *)
Definition idAndSpeaker (msg : Message) : Z * Speaker := (id msg, speaker msg).

(** [msg'] is [msg] with at most another text. *)
Definition sameButText (msg msg' : Message) : Prop :=
  msg' = msg <| text := text msg' |>.

(** The states the component can be in: mounted, then any callback. *)
Inductive reachable : ChatView -> Prop :=
  | reach_mounted : reachable mounted
  | reach_deliver ev s : reachable s -> reachable (deliver ev s)
  | reach_start env s : reachable s -> reachable (stateOf (startListeningForUser env s))
  | reach_open processor s : reachable s -> reachable (onopen processor s)
  | reach_error message s : reachable s -> reachable (stateOf (onerror message s))
  | reach_stop s : reachable s -> reachable (stateOf (stopConversation s))
  | reach_toggle env s : reachable s -> reachable (stateOf (handleToggleConversation env s))
  | reach_initiate now mode buddyName env s :
      reachable s -> reachable (mountEffect now mode buddyName env s)
  | reach_greeted env n s : reachable s -> reachable (stateOf (greetingEnded env n s)).

(** A server message whose [modelTurn] has the given parts and nothing else. *)
Definition audioParts (parts : list Part) : LiveServerMessage :=
  silent <| modelTurn := Some parts |>.

(** The decodes of one message's chunks completing one after the other, each
    with the audio clock at its completion and the duration of its buffer. *)
Definition decodesInTurn (completions : list (Z * Z)) : list Event :=
  map (fun '(currentTime, bufferDuration) => Decoded 0 currentTime bufferDuration)
      completions.

(** [later] has the Messages of [earlier], with their ids and speakers, in
    their places, and possibly more after them. *)
Definition keepsMessages (earlier later : list Message) : Prop :=
  exists added, map idAndSpeaker later = map idAndSpeaker earlier ++ added.

(** The Message [handleFileChange] adds for an uploaded picture. *)
Definition pictureMessage (now : Z) (dataUrl : string) : Message :=
  {| id := now; speaker := user; text := "Here's a picture.";
     imageUrl := Some dataUrl; isGeneratingImage := None; feedback := fb_undefined |}.

(** The audio chunks among the parts of a message, in order. *)
Definition chunksAmong (parts : list Part) : list string :=
  chunksOf (audioParts parts).

(** The chunks of the parked runs: the one each run is decoding and those
    its loop has not reached yet. *)
Definition waiting (s : ChatView) : list string :=
  flat_map (fun parked => audioData parked :: chunksAmong (restParts parked)) (decoding s).

(** ** The session history (types.ts, App.tsx 398-418, 766-769)

    What [localStorage] holds under a key is modelled by what [JSON.parse]
    makes of it; [JSON.stringify] followed by [JSON.parse] gives back the
    records it was given. *)

Record SessionRecord : Type := {
  session_id : Z;
  session_mode : AppMode;
  timestamp : Z;
  messages : list Message
}.

(** An entry of the array stored under HISTORY_KEY: a session record, which
    is all the application writes there; a string; or any other JSON value,
    kept as its JSON text. *)
Inductive HistoryEntry : Type :=
  | Session (record : SessionRecord)
  | Text (value : string)
  | Other (json : string).

(** What [JSON.parse] makes of the item under HISTORY_KEY:
    - [NoHistory]: there is no item, or it is the empty string;
    - [NotIterable]: the parse throws, or gives null, a number, a boolean or
      an object, none of which can be spread into an array;
    - [StoredString]: the parse gives a string;
    - [History]: the parse gives an array. *)
Inductive StoredHistory : Type :=
  | NoHistory
  | NotIterable
  | StoredString (value : string)
  | History (entries : list HistoryEntry).

(** [[...existingHistory]] with
    [existingHistory = existingHistoryRaw ? JSON.parse(existingHistoryRaw) : []]:
    the entries the spread gives, [None] when the parse or the spread throws.
    A string spreads into its characters, each a string of length one (a
    character is one [ascii] of the Rocq string). *)
Definition spread (stored : StoredHistory) : option (list HistoryEntry) :=
  match stored with
  | NoHistory => Some []
  | NotIterable => None
  | StoredString value =>
      Some (map (fun c => Text (String c EmptyString)) (list_ascii_of_string value))
  | History entries => Some entries
  end.

(** [setItemWorks]: whether [localStorage.setItem] accepts the write; it
    throws when the quota is exceeded. *)
Definition saveSessionToHistory (now : Z) (setItemWorks : bool)
    (transcript : list Message) (mode : AppMode) (stored : StoredHistory) : StoredHistory :=
  match transcript with
  | [] => stored                                   (* messages.length === 0 *)
  | _ :: _ =>
      let newSession := {| session_id := now; session_mode := mode; timestamp := now;
                           messages := transcript |} in
      match spread stored with
      | None => stored                             (* caught *)
      | Some existingHistory =>
          if setItemWorks
          then History (firstn 20 (Session newSession :: existingHistory))
          else stored                              (* caught *)
      end
  end.


(** What the spread of the stored item gives, nothing when it throws. *)
Definition entriesOf (stored : StoredHistory) : list HistoryEntry :=
  match spread stored with
  | Some entries => entries
  | None => []
  end.

Definition isSession (entry : HistoryEntry) : bool :=
  match entry with
  | Session _ => true
  | _ => false
  end.

(** The item is missing or an array of session records: what the
    application itself leaves under the key. *)
Definition sessionsOnly (stored : StoredHistory) : bool :=
  match stored with
  | NoHistory => true
  | History entries => forallb isSession entries
  | _ => false
  end.

(** The session records of a stored array, in their order.  When the item
    is missing or an array of session records, these are the sessions the
    history load of [App] (1201-1207) hands to the parent dashboard. *)
Definition sessionsOf (stored : StoredHistory) : list SessionRecord :=
  match stored with
  | History entries =>
      flat_map (fun entry => match entry with
                             | Session record => [record]
                             | _ => []
                             end) entries
  | _ => []
  end.

(** ** The buddies and the settings (App.tsx 15-19, 1196-1231, 1246) *)

Record Buddy : Type := {
  buddy_id : string;
  buddy_name : string;
  voice : string;
  icon : string
}.

Definition navi : Buddy :=
  {| buddy_id := "navi"; buddy_name := "Navi"; voice := "Zephyr"; icon := "☁️" |}.

Definition BUDDIES : list Buddy :=
  [ navi;
    {| buddy_id := "buddy"; buddy_name := "Buddy"; voice := "Puck"; icon := "🐶" |};
    {| buddy_id := "sparkle"; buddy_name := "Sparkle"; voice := "Kore"; icon := "✨" |} ].

(** [BUDDIES.some(b => b.id === buddyId)] *)
Definition isBuddy (buddyId : string) : bool :=
  existsb (fun b => (buddy_id b =? buddyId)%string) BUDDIES.

(** [BUDDIES.find(b => b.id === selectedBuddyId) || BUDDIES[0]] *)
Definition selectedBuddy (selectedBuddyId : string) : Buddy :=
  match find (fun b => (buddy_id b =? selectedBuddyId)%string) BUDDIES with
  | Some b => b
  | None => navi
  end.

(** The item under SETTINGS_KEY: missing; a text whose parse throws or gives
    null; or an object, with or without a [selectedBuddyId]. *)
Inductive StoredSettings : Type :=
  | NoSettings
  | UnreadableSettings
  | Settings (storedBuddyId : option string).

(** The settings part of the mount effect of [App]: the state starts as
    [BUDDIES[0].id] and takes the stored id only if it names a buddy. *)
Definition loadSettings (stored : StoredSettings) : string :=
  match stored with
  | Settings (Some buddyId) =>
      if truthy buddyId && isBuddy buddyId then buddyId else buddy_id navi
  | _ => buddy_id navi
  end.

(** [handleSelectBuddy]: the new state and the new stored item. *)
Definition handleSelectBuddy (buddyId : string) (setItemWorks : bool)
    (stored : StoredSettings) : string * StoredSettings :=
  (buddyId, if setItemWorks then Settings (Some buddyId) else stored).

(** One call of [saveSessionToHistory]: the clock, whether the write is
    accepted, the transcript and the mode. *)
Definition Save : Type := (Z * bool * list Message * AppMode)%type.

(** Saves one after the other on the same storage. *)
Definition saveAll (saves : list Save) (stored : StoredHistory) : StoredHistory :=
  fold_left (fun acc '(now, setItemWorks, transcript, mode) =>
               saveSessionToHistory now setItemWorks transcript mode acc)
            saves stored.

(** The session of the last save that has a transcript to save and whose
    write is accepted. *)
Fixpoint lastEffective (saves : list Save) : option SessionRecord :=
  match saves with
  | [] => None
  | (now, setItemWorks, transcript, mode) :: rest =>
      match lastEffective rest with
      | Some record => Some record
      | None =>
          match transcript with
          | [] => None
          | _ :: _ =>
              if setItemWorks
              then Some {| session_id := now; session_mode := mode; timestamp := now;
                           messages := transcript |}
              else None
          end
      end
  end.

(** ** VoiceToStoryView (App.tsx 888-1190)

    The second controller of the application: it records what the child
    tells, keeps the transcription, and turns it into a storybook, a comic
    or an audio tale.  As for [ChatView], a callback is a function on the
    record of its state and refs, and what the remote services answer is
    given by the environment. *)

Module VoiceToStory.

Inductive Status : Type :=
  | IDLE | RECORDING | DONE_RECORDING | GENERATING | DISPLAYING_RESULT | ERROR.

Inductive StoryOutputType : Type := storybook | comic | audio.

Record Panel : Type := { scene : string; caption : string }.

(** [GeneratedContent]; a field that is missing or null is [None]. *)
Record GeneratedContent : Type := {
  type : StoryOutputType;
  title : string;
  text : option string;
  panels : option (list Panel);
  imageUrl : option string;
  audioData : option string
}.

Record View : Type := {
  (* useState *)
  status : Status;
  transcript : string;
  generatedContent : option GeneratedContent;
  error : option string;
  permissionDenied : bool;
  (* useRef *)
  aiRef : bool;
  sessionRef : option nat;
  inputAudioContextRef : option AudioContextState;
  outputAudioContextRef : option AudioContextState;
  mediaStreamRef : option (list nat);
  scriptProcessorRef : option nat;
  transcriptRef : string;
  (* platform *)
  closedSessions : list nat;
  stoppedTracks : list nat;
  disconnections : list nat;
  played : list string
}.

Definition mounted : View := {|
  status := IDLE; transcript := EmptyString; generatedContent := None;
  error := None; permissionDenied := false;
  aiRef := false; sessionRef := None; inputAudioContextRef := None;
  outputAudioContextRef := None; mediaStreamRef := None;
  scriptProcessorRef := None; transcriptRef := EmptyString;
  closedSessions := []; stoppedTracks := []; disconnections := []; played := []
|}.

(** [cleanup] (914-926): the script processor is disconnected but its ref
    is kept. *)
Definition cleanup (s : View) : View :=
  let s1 := match sessionRef s with
            | Some session =>
                s <| closedSessions ::= fun l => l ++ [session] |> <| sessionRef := None |>
            | None => s
            end in
  let s2 := match mediaStreamRef s1 with
            | Some tracks =>
                s1 <| stoppedTracks ::= fun l => l ++ tracks |> <| mediaStreamRef := None |>
            | None => s1
            end in
  let s3 := match scriptProcessorRef s2 with
            | Some processor => s2 <| disconnections ::= fun l => l ++ [processor] |>
            | None => s2
            end in
  s3 <| inputAudioContextRef ::= closeContext |>
     <| outputAudioContextRef ::= closeContext |>.

Definition startRecording (env : StartEnv) (s : View) : View :=
  let s0 := s <| permissionDenied := false |> <| error := None |>
              <| transcript := EmptyString |> <| transcriptRef := EmptyString |>
              <| status := RECORDING |> in
  if negb (API_KEY env)
  then s0 <| error := Some "API_KEY is not set."%string |> <| status := ERROR |>
  else
    match getUserMedia env with
    | MicGranted tracks =>
        s0 <| mediaStreamRef := Some tracks |>
           <| inputAudioContextRef := Some running |>
           <| aiRef := true |>
           <| sessionRef := Some (connect env) |>
    | MicThrows err =>
        let refused :=
          match err with
          | ErrorObject name message =>
              (name =? "NotAllowedError")%string || includes message "Permission denied"
          | OtherValue => false
          end in
        cleanup
          ((if refused
            then s0 <| permissionDenied := true |>
            else s0 <| error := Some "Failed to initialize microphone."%string |>)
             <| status := ERROR |>)
    end.

Definition onopen (processor : nat) (s : View) : View :=
  s <| scriptProcessorRef := Some processor |>.

Definition onmessage (msg : LiveServerMessage) (s : View) : View :=
  match inputTranscription msg with
  | Some fragment =>
      let s1 := s <| transcriptRef := (transcriptRef s ++ fragment)%string |> in
      s1 <| transcript := transcriptRef s1 |>
  | None => s
  end.

Definition onerror (message : string) (s : View) : View :=
  cleanup (s <| error := Some ("An API error occurred: " ++ message)%string |>
             <| status := ERROR |>).

Definition stopRecording (s : View) : View := (cleanup s) <| status := DONE_RECORDING |>.

(** What a text generation answers: it throws, its text is not JSON, or
    its text parses to [data]. *)
Inductive JsonOutcome (A : Type) : Type :=
  | JsonThrows
  | NotJson
  | Json (data : A).
Arguments JsonThrows {A}.
Arguments NotJson {A}.
Arguments Json {A} data.

Record StoryJson : Type := {
  story_title : string; storyText : string; story_imagePrompt : string }.

Record ComicJson : Type := {
  comic_title : string; comic_panels : list Panel; comic_imagePrompt : string }.

(** What the services answer while [generateOutput] runs: the story and the
    comic as JSON, the audio script as text ([None]: the call throws), the
    speech synthesis, and the image model. *)
Record GenEnv : Type := {
  storyAnswer : JsonOutcome StoryJson;
  comicAnswer : JsonOutcome ComicJson;
  scriptAnswer : option string;
  speechAnswer : SynthOutcome;
  imageAnswer : string -> GenerateContentOutcome
}.

(** The [catch(e)] of [generateOutput]. *)
Definition generationFailed (s : View) : View :=
  s <| error := Some "Sorry, I couldn't create your story. Please try again."%string |>
    <| status := ERROR |>.

Definition generateOutput (ty : StoryOutputType) (env : GenEnv) (s : View) : View :=
  let s0 := s <| status := GENERATING |> <| generatedContent := None |>
              <| error := None |> in
  if negb (aiRef s0) || negb (truthy (transcript s0))
  then s0 <| error := Some "Something went wrong, please start over."%string |>
          <| status := ERROR |>
  else
    let shown content :=
      s0 <| generatedContent := Some content |> <| status := DISPLAYING_RESULT |> in
    match ty with
    | storybook =>
        match storyAnswer env with
        | Json data =>
            shown {| type := storybook; title := story_title data;
                     text := Some (storyText data); panels := None;
                     imageUrl := generateImageForResponse true (story_imagePrompt data)
                                   None (imageAnswer env);
                     audioData := None |}
        | _ => generationFailed s0
        end
    | comic =>
        match comicAnswer env with
        | Json data =>
            shown {| type := comic; title := comic_title data; text := None;
                     panels := Some (comic_panels data);
                     imageUrl := generateImageForResponse true (comic_imagePrompt data)
                                   None (imageAnswer env);
                     audioData := None |}
        | _ => generationFailed s0
        end
    | audio =>
        match scriptAnswer env with
        | None => generationFailed s0
        | Some script =>
            match speechAnswer env with
            | SynthThrows _ => generationFailed s0
            | SynthResponse sound =>
                shown {| type := audio; title := "Audio Story"; text := Some script;
                         panels := None; imageUrl := None;
                         audioData := match sound with
                                      | Some bytes => if truthy bytes then Some bytes else None
                                      | None => None
                                      end |}
            end
        end
    end.

(** [playAudio]: the previous output context is closed, a new one is
    opened, and the audio is started once it is decoded. *)
Definition playAudio (base64Audio : string) (decode : DecodeOutcome) (s : View) : View :=
  let s1 := s <| outputAudioContextRef := Some running |> in
  match decode with
  | DecodeOk _ => s1 <| played ::= fun l => l ++ [base64Audio] |>
  | DecodeThrows _ => s1
  end.

Definition handleStartOver (s : View) : View :=
  (cleanup s) <| status := IDLE |> <| transcript := EmptyString |>
              <| generatedContent := None |> <| error := None |>
              <| transcriptRef := EmptyString |>.

(** What [renderContent] (1076-1170) puts on the screen. *)
Inductive Screen : Type :=
  | MicrophoneDenied            (* with the Retry button *)
  | Creating
  | Result (content : GeneratedContent)
  | Recorded (offersOutputs : bool)
  | Recorder (listening : bool) (errorText : option string).

Definition renderContent (s : View) : Screen :=
  if permissionDenied s then MicrophoneDenied
  else
    match status s, generatedContent s with
    | GENERATING, _ => Creating
    | DISPLAYING_RESULT, Some content => Result content
    | DONE_RECORDING, _ => Recorded (truthy (transcript s))
    | RECORDING, _ => Recorder true (error s)
    | _, _ => Recorder false (error s)
    end.

(** Server messages of a recording, in order. *)
Definition hear (messages : list LiveServerMessage) (s : View) : View :=
  fold_left (fun acc msg => onmessage msg acc) messages s.

(** The transcription the messages carry, in order. *)
Definition heard (messages : list LiveServerMessage) : string :=
  fold_right (fun msg rest =>
                match inputTranscription msg with
                | Some fragment => (fragment ++ rest)%string
                | None => rest
                end) EmptyString messages.

(** Nothing is held: no session, no stream, no open audio context. *)
Definition released (s : View) : Prop :=
  sessionRef s = None
  /\ mediaStreamRef s = None
  /\ closedOrAbsent (inputAudioContextRef s)
  /\ closedOrAbsent (outputAudioContextRef s).

End VoiceToStory.

(** ** The search of the parent dashboard (App.tsx 138-143)

    [toLowerCase] is [String.prototype.toLowerCase], taken as given. *)
Definition filteredHistory (toLowerCase : string -> string) (searchQuery : string)
    (history : list SessionRecord) : list SessionRecord :=
  filter (fun session =>
            if truthy searchQuery
            then existsb (fun message =>
                            includes (toLowerCase (text message)) (toLowerCase searchQuery))
                         (messages session)
            else true)
         history.

(* ================================================================= *)
(** * Properties *)

(** ** Lists *)

Lemma lastOf_snoc {A : Type} (l : list A) (x : A) : lastOf (l ++ [x]) = Some x.
Proof.
  unfold lastOf. rewrite length_app, Nat.add_1_r. cbn [List.length Nat.sub].
  rewrite Nat.sub_0_r, nth_error_app2 by lia.
  now rewrite Nat.sub_diag.
Qed.

Lemma lastOf_nil {A : Type} : lastOf (@nil A) = None.
Proof. reflexivity. Qed.

Lemma nth_error_map_if {A : Type} (test : A -> bool) (f : A -> A) (l : list A) i x :
  nth_error l i = Some x ->
  nth_error (map (fun y => if test y then f y else y) l) i
  = Some (if test x then f x else x).
Proof. intros H. now rewrite nth_error_map, H. Qed.

(** ** The started-sources invariant *)

Lemma stopEach_started sources log :
  Forall (fun source => started source = true) sources ->
  stopEach sources log = (log ++ map node sources, true).
Proof.
  intros H. revert log.
  induction H as [|source rest Hs _ IH]; intros log; cbn [stopEach map].
  - now rewrite app_nil_r.
  - rewrite Hs, IH, <- app_assoc. reflexivity.
Qed.

(** ** Feedback *)

(** C10: [handleFeedback messageId fb] keeps the transcript's length, leaves
    every Message whose id is not [messageId] as it is, and toggles the
    feedback of a Message whose id is [messageId]: a feedback equal to [fb]
    is cleared to null, any other becomes [fb]; so giving the same feedback
    twice to a Message that did not carry it ends with null feedback and the
    Message otherwise as before. *)
Theorem C10_handleFeedback_toggles_by_id
    (messageId : Z) (fb : Feedback) (s : ChatView) (i : nat) (msg : Message) :
  nth_error (conversation s) i = Some msg ->
  let once := handleFeedback messageId fb s in
  let twice := handleFeedback messageId fb once in
  List.length (conversation once) = List.length (conversation s)
  /\ (id msg <> messageId -> nth_error (conversation once) i = Some msg)
  /\ (id msg = messageId ->
      nth_error (conversation once) i = Some (toggled fb msg)
      /\ (feedback msg = fb_value fb -> feedback (toggled fb msg) = fb_null)
      /\ (feedback msg <> fb_value fb ->
          feedback (toggled fb msg) = fb_value fb
          /\ nth_error (conversation twice) i = Some (msg <| feedback := fb_null |>)
          /\ no_feedback (feedback (msg <| feedback := fb_null |>)))).
Proof.
  intros Hmsg once twice.
  assert (Hstep : forall s0 m, nth_error (conversation s0) i = Some m ->
            nth_error (conversation (handleFeedback messageId fb s0)) i
            = Some (if id m =? messageId then toggled fb m else m)).
  { intros s0 m Hm. unfold handleFeedback. cbn.
    exact (nth_error_map_if (fun y => id y =? messageId) (toggled fb) _ i m Hm). }
  split; [| split].
  - unfold once, handleFeedback. cbn. apply length_map.
  - intros Hid. unfold once. rewrite (Hstep s msg Hmsg).
    apply Z.eqb_neq in Hid. now rewrite Hid.
  - intros Hid.
    assert (Honce : nth_error (conversation once) i = Some (toggled fb msg)).
    { unfold once. rewrite (Hstep s msg Hmsg).
      apply Z.eqb_eq in Hid. now rewrite Hid. }
    split; [exact Honce | split].
    + intros Hfb. unfold toggled. cbn. rewrite Hfb. cbn.
      destruct (feedback_eq_dec fb fb); [reflexivity | contradiction].
    + intros Hfb.
      assert (Hno : feedback_is (feedback msg) fb = false).
      { destruct (feedback msg) as [| |g]; cbn; try reflexivity.
        destruct (feedback_eq_dec g fb); [subst; contradiction | reflexivity]. }
      split; [| split].
      * unfold toggled. cbn. now rewrite Hno.
      * unfold twice. rewrite (Hstep once _ Honce).
        assert (Hid' : (id (toggled fb msg) =? messageId) = true)
          by (unfold toggled; cbn; now apply Z.eqb_eq).
        rewrite Hid'. unfold toggled. cbn. rewrite Hno. cbn.
        destruct (feedback_eq_dec fb fb); [| contradiction].
        destruct msg; reflexivity.
      * right. reflexivity.
Qed.

(** A transcript of two Messages; thumbs up is given twice to the one with id 2. *)
Lemma C10_witness :
  let question := {| id := 1; speaker := user; text := "Why is the sky blue?";
                     imageUrl := None; isGeneratingImage := None;
                     feedback := fb_undefined |} in
  let answer := {| id := 2; speaker := ai; text := "Because of the air!";
                   imageUrl := None; isGeneratingImage := None;
                   feedback := fb_undefined |} in
  let s := listening <| conversation := [question; answer] |> in
  nth_error (conversation (handleFeedback 2 up s)) 0 = Some question
  /\ nth_error (conversation (handleFeedback 2 up s)) 1 = Some (toggled up answer)
  /\ nth_error (conversation (handleFeedback 2 up (handleFeedback 2 up s))) 1
     = Some (answer <| feedback := fb_null |>).
Proof.
  intros question answer s.
  destruct (C10_handleFeedback_toggles_by_id 2 up s 0 question eq_refl)
    as [_ [Hother _]].
  destruct (C10_handleFeedback_toggles_by_id 2 up s 1 answer eq_refl)
    as [_ [_ Hit]].
  destruct (Hit eq_refl) as [Honce [_ Htwice]].
  destruct (Htwice ltac:(discriminate)) as [_ [Hnull _]].
  split; [apply Hother; discriminate | split; assumption].
Defined.

(** ** Turn completion *)

(** C7: a turnComplete signal empties both transcript buffers; it moves the
    status to LISTENING from every status but ERROR, and leaves ERROR as it is. *)
Theorem C7_turnComplete_resets_buffers_and_listens
    (now currentTime : Z) (s : ChatView) :
  statusRef s = status s ->
  let s' := onmessage now currentTime turnCompleteSignal s in
  userInputRef s' = EmptyString
  /\ aiResponseRef s' = EmptyString
  /\ (status s <> ERROR -> status s' = LISTENING)
  /\ (status s = ERROR -> status s' = ERROR).
Proof.
  intros Hsync. unfold onmessage, turnCompleteSignal, silent, onTurnComplete. cbn.
  destruct (status_eq_dec (statusRef s) ERROR) as [Herr | Hok]; cbn.
  - repeat split; congruence.
  - repeat split; congruence.
Qed.

(** The assistant is speaking when the turn completes. *)
Lemma C7_witness :
  let s := listening <| status := SPEAKING |> <| statusRef := SPEAKING |>
                     <| userInputRef := "Hello"%string |> in
  status (onmessage 5 0 turnCompleteSignal s) = LISTENING
  /\ userInputRef (onmessage 5 0 turnCompleteSignal s) = EmptyString.
Proof.
  intros s.
  destruct (C7_turnComplete_resets_buffers_and_listens 5 0 s eq_refl)
    as [Huser [_ [Hlisten _]]].
  split.
  - apply Hlisten. discriminate.
  - exact Huser.
Defined.

(** ** The end-of-speech debounce *)

(** C4: a user fragment handled at time [now] arms the timer for
    [now + 1200] and leaves the status alone.  Before that time nothing
    happens.  From that time on, with no other event in between, the status
    becomes THINKING if it is LISTENING and keeps its value if it is not.
    A further user fragment before [now + 1200] replaces the pending timer
    by one for 1200 ms after its own arrival, so the first deadline passes
    without a transition.  In no state does the passing of time change a
    status other than LISTENING. *)
Theorem C4_debounce_to_thinking
    (now currentTime : Z) (fragment : string) (s : ChatView) :
  statusRef s = status s ->
  let armed := onmessage now currentTime (userFragment fragment) s in
  speechEndTimeoutRef armed = Some (now + 1200)
  /\ status armed = status s
  /\ (forall t, t < now + 1200 -> timePasses t armed = armed)
  /\ (forall t, now + 1200 <= t -> status s = LISTENING ->
        status (timePasses t armed) = THINKING)
  /\ (forall t, now + 1200 <= t -> status s <> LISTENING ->
        status (timePasses t armed) = status s)
  /\ (forall now' currentTime' fragment', now' < now + 1200 ->
        let rearmed := onmessage now' currentTime' (userFragment fragment')
                         (timePasses now' armed) in
        speechEndTimeoutRef rearmed = Some (now' + 1200)
        /\ (forall t, t < now' + 1200 ->
              timePasses t rearmed = rearmed /\ status (timePasses t rearmed) = status s))
  /\ (forall t later, statusRef later <> LISTENING ->
        status (timePasses t later) = status later).
Proof.
  intros Hsync armed.
  assert (Harm : forall n c f s0,
            speechEndTimeoutRef (onmessage n c (userFragment f) s0) = Some (n + 1200)
            /\ status (onmessage n c (userFragment f) s0) = status s0
            /\ statusRef (onmessage n c (userFragment f) s0) = statusRef s0).
  { intros. unfold onmessage, userFragment, silent. cbn. auto. }
  assert (Hearly : forall t s0 due, speechEndTimeoutRef s0 = Some due -> t < due ->
            timePasses t s0 = s0).
  { intros t s0 due Hdue Hlt. unfold timePasses. rewrite Hdue.
    destruct (Z.leb_spec due t); [lia | reflexivity]. }
  destruct (Harm now currentTime fragment s) as [Hdue [Hst Href]].
  fold armed in Hdue, Hst, Href. clearbody armed.
  split; [exact Hdue | split; [exact Hst | split; [| split; [| split; [| split]]]]].
  - intros t Ht. now apply (Hearly t armed (now + 1200)).
  - intros t Ht Hlisten. unfold timePasses. rewrite Hdue.
    destruct (Z.leb_spec (now + 1200) t); [| lia].
    unfold speechEndTimeout. cbn. rewrite Href, Hsync, Hlisten. reflexivity.
  - intros t Ht Hother. unfold timePasses. rewrite Hdue.
    destruct (Z.leb_spec (now + 1200) t); [| lia].
    unfold speechEndTimeout. cbn. rewrite Href, Hsync.
    destruct (status_eq_dec (status s) LISTENING); [contradiction | cbn; exact Hst].
  - intros now' currentTime' fragment' Hbefore rearmed.
    assert (Hsame : timePasses now' armed = armed)
      by now apply (Hearly now' armed (now + 1200)).
    destruct (Harm now' currentTime' fragment' (timePasses now' armed)) as [Hdue' [Hst' _]].
    fold rearmed in Hdue', Hst'. clearbody rearmed.
    split; [exact Hdue' |].
    intros t Ht.
    assert (Hstill : timePasses t rearmed = rearmed)
      by now apply (Hearly t rearmed (now' + 1200)).
    split; [exact Hstill |].
    rewrite Hstill, Hst', Hsame. exact Hst.
  - intros t later Hother. unfold timePasses.
    destruct (speechEndTimeoutRef later) as [due|]; [| reflexivity].
    destruct (due <=? t); [| reflexivity].
    unfold speechEndTimeout. cbn.
    destruct (status_eq_dec (statusRef later) LISTENING); [contradiction | reflexivity].
Qed.

(** A fragment at 0 ms, silence until 1200 ms: THINKING.  A second fragment
    at 1100 ms: still LISTENING at 1200 ms. *)
Lemma C4_witness :
  status (timePasses 1200 (onmessage 0 0 (userFragment "Hel") listening)) = THINKING
  /\ status (timePasses 1200
               (onmessage 1100 0 (userFragment "lo")
                  (timePasses 1100 (onmessage 0 0 (userFragment "Hel") listening))))
     = LISTENING.
Proof.
  destruct (C4_debounce_to_thinking 0 0 "Hel" listening eq_refl)
    as [_ [_ [_ [Hfire [_ [Hrearm _]]]]]].
  split.
  - apply Hfire; [lia | reflexivity].
  - destruct (Hrearm 1100 0 "lo"%string ltac:(lia)) as [_ Hquiet].
    destruct (Hquiet 1200 ltac:(lia)) as [_ Hstatus].
    exact Hstatus.
Defined.

(** ** The transcript *)

(** Two transcript updates for one speaker in a row: the second replaces the
    text the first has written and keeps the Message the first has chosen. *)
Lemma transcriptUpdater_absorbs (sp : Speaker) (n1 n2 : Z) (b1 b2 : string)
    (prev : list Message) :
  transcriptUpdater sp n2 b2 (transcriptUpdater sp n1 b1 prev)
  = transcriptUpdater sp n1 b2 prev.
Proof.
  unfold transcriptUpdater at 2 3.
  destruct (lastOf prev) as [last|] eqn:Hlast.
  - destruct (speaker_eq_dec (speaker last) sp) as [Hsp | Hsp].
    + unfold transcriptUpdater. rewrite lastOf_snoc. cbn.
      destruct (speaker_eq_dec (speaker last) sp); [| contradiction].
      rewrite removelast_last. reflexivity.
    + unfold transcriptUpdater. rewrite lastOf_snoc. cbn.
      destruct (speaker_eq_dec sp sp); [| contradiction].
      rewrite removelast_last. reflexivity.
  - unfold transcriptUpdater. rewrite lastOf_snoc. cbn.
    destruct (speaker_eq_dec sp sp); [| contradiction].
    rewrite removelast_last. reflexivity.
Qed.

Lemma string_app_assoc (a b c : string) : ((a ++ b) ++ c = a ++ (b ++ c))%string.
Proof. induction a as [|ch a IH]; cbn; [reflexivity | now rewrite IH]. Qed.

Lemma onmessage_userFragment (now currentTime : Z) (fragment : string) (s : ChatView) :
  onmessage now currentTime (userFragment fragment) s
  = onInputTranscription now fragment s.
Proof. reflexivity. Qed.

Lemma onInputTranscription_buffer (now : Z) (fragment : string) (s : ChatView) :
  userInputRef (onInputTranscription now fragment s)
  = (userInputRef s ++ fragment)%string.
Proof. reflexivity. Qed.

Lemma onInputTranscription_conversation (now : Z) (fragment : string) (s : ChatView) :
  conversation (onInputTranscription now fragment s)
  = transcriptUpdater user now (userInputRef s ++ fragment)%string (conversation s).
Proof. reflexivity. Qed.

Lemma string_app_empty (a : string) : (a ++ "")%string = a.
Proof. induction a as [|ch a IH]; cbn; congruence. Qed.

(** Within one turn the user's fragments end up in one Message: the run of
    fragments leaves the transcript as a single update with the whole text
    would, and the buffer holds that text. *)
Lemma user_fragments_make_one_update (rest : list (Z * Z * string)) :
  forall (now currentTime : Z) (fragment : string) (s : ChatView),
    let s' := run (userFragments ((now, currentTime, fragment) :: rest)) s in
    userInputRef s' = (userInputRef s ++ textOf ((now, currentTime, fragment) :: rest))%string
    /\ conversation s'
       = transcriptUpdater user now
           (userInputRef s ++ textOf ((now, currentTime, fragment) :: rest))%string
           (conversation s).
Proof.
  induction rest as [|[[n c] f] rest IH]; intros now currentTime fragment s.
  - cbn [userFragments map run fold_left deliver textOf fold_right].
    rewrite onmessage_userFragment, string_app_empty.
    split; [apply onInputTranscription_buffer | apply onInputTranscription_conversation].
  - specialize (IH n c f (onmessage now currentTime (userFragment fragment) s)).
    destruct IH as [Hbuf Hconv].
    change (run (userFragments ((now, currentTime, fragment) :: (n, c, f) :: rest)) s)
      with (run (userFragments ((n, c, f) :: rest))
              (onmessage now currentTime (userFragment fragment) s)).
    change (textOf ((now, currentTime, fragment) :: (n, c, f) :: rest))
      with (fragment ++ textOf ((n, c, f) :: rest))%string.
    cbv zeta. rewrite Hbuf, Hconv, onmessage_userFragment.
    rewrite onInputTranscription_buffer, onInputTranscription_conversation.
    rewrite transcriptUpdater_absorbs, string_app_assoc.
    split; reflexivity.
Qed.

(** A user turn that starts with an empty buffer, after a transcript that
    does not end with a user Message, adds exactly one Message, whose text is
    the concatenation of the fragments in arrival order. *)
Lemma user_turn_is_one_message (now currentTime : Z) (fragment : string)
    (rest : list (Z * Z * string)) (s : ChatView) :
  userInputRef s = EmptyString ->
  (forall last, lastOf (conversation s) = Some last -> speaker last <> user) ->
  conversation (run (userFragments ((now, currentTime, fragment) :: rest)) s)
  = conversation s
      ++ [{| id := now; speaker := user;
             text := textOf ((now, currentTime, fragment) :: rest);
             imageUrl := None; isGeneratingImage := None; feedback := fb_undefined |}].
Proof.
  intros Hempty Hlast.
  destruct (user_fragments_make_one_update rest now currentTime fragment s) as [_ Hconv].
  rewrite Hconv, Hempty. unfold transcriptUpdater.
  destruct (lastOf (conversation s)) as [last|] eqn:Hl; [| reflexivity].
  destruct (speaker_eq_dec (speaker last) user) as [Huser | _]; [| reflexivity].
  now destruct (Hlast last eq_refl).
Qed.

(** What turnComplete does not do: when the transcript ends with a user
    Message, the first user fragment of the next turn replaces that Message's
    text instead of adding a Message. *)
Lemma next_user_turn_replaces_last_user_message
    (now0 currentTime0 now currentTime : Z) (fragment : string) (s : ChatView)
    (last : Message) :
  lastOf (conversation s) = Some last ->
  speaker last = user ->
  conversation (onmessage now currentTime (userFragment fragment)
                  (onmessage now0 currentTime0 turnCompleteSignal s))
  = removelast (conversation s) ++ [last <| text := fragment |>].
Proof.
  intros Hlast Huser.
  rewrite onmessage_userFragment, onInputTranscription_conversation.
  assert (Hturn : userInputRef (onmessage now0 currentTime0 turnCompleteSignal s)
                  = EmptyString
                  /\ conversation (onmessage now0 currentTime0 turnCompleteSignal s)
                     = conversation s).
  { unfold onmessage, turnCompleteSignal, silent, onTurnComplete. cbn.
    destruct (status_eq_dec (statusRef s) ERROR); split; reflexivity. }
  destruct Hturn as [-> ->].
  unfold transcriptUpdater. rewrite Hlast, Huser. cbn.
  reflexivity.
Qed.

(** C1 (the code departs from the claim): the fragments "Hel", "lo wor", "ld"
    of one user turn give one Message with the text "Hello world"; but after
    turnComplete the user fragment "Hi" does not start a new Message: it
    overwrites the text of the Message of the turn before, and the transcript
    still has one Message. *)
Theorem C1_next_turn_overwrites_previous_message
    (t1 t2 t3 t4 t5 c1 c2 c3 c4 c5 : Z) :
  let firstTurn := [ Server t1 c1 (userFragment "Hel");
                     Server t2 c2 (userFragment "lo wor");
                     Server t3 c3 (userFragment "ld");
                     Server t4 c4 turnCompleteSignal ] in
  conversation (run firstTurn listening)
  = [ {| id := t1; speaker := user; text := "Hello world"; imageUrl := None;
         isGeneratingImage := None; feedback := fb_undefined |} ]
  /\ conversation (run (firstTurn ++ [Server t5 c5 (userFragment "Hi")]) listening)
     = [ {| id := t1; speaker := user; text := "Hi"; imageUrl := None;
            isGeneratingImage := None; feedback := fb_undefined |} ].
Proof. split; reflexivity. Qed.

(** ** Message ids *)

(** C9 (the code departs from the claim): ids are readings of [Date.now()].
    Two picture requests in one tool call give two Messages with one id, and
    so do a user fragment and an assistant fragment handled within the same
    millisecond. *)
Theorem C9_messages_share_an_id (now c1 c2 : Z) :
  map id (conversation (onmessage now c1 (toolCallRequest [drawCat; drawDog]) listening))
  = [now; now]
  /\ map id (conversation (run [ Server now c1 (userFragment "Hi");
                                 Server now c2 (assistantFragment "Hello") ] listening))
     = [now; now]
  /\ ~ NoDup (map id (conversation
                        (onmessage now c1 (toolCallRequest [drawCat; drawDog]) listening))).
Proof.
  split; [reflexivity | split; [reflexivity |]].
  intros Hnodup.
  change (NoDup [now; now]) in Hnodup.
  inversion Hnodup as [|x l Hnotin _]; subst.
  apply Hnotin. now left.
Qed.

(** ** Tool calls *)

(** C5, the claim as stated fails: a picture request that reaches the
    handler after [stopConversation] has cleared [sessionRef] inserts no
    placeholder. *)
Lemma C5_counterexample :
  ~ insertsPlaceholder 5 0 drawCat (stateOf (stopConversation listening)).
Proof.
  intros [placeholder [Hconv _]].
  cbn in Hconv. discriminate Hconv.
Qed.

(** C5 (amended): while the controller holds a session and an AI client, a
    generateImage tool call appends a placeholder Message with
    isGeneratingImage = true and registers the pending image, without touching
    the status.  When a pending image resolves, in whatever state, every
    Message carrying the id of its placeholder gets the image URL and has the
    generating flag cleared, in place; every Message with another id stays as
    it is; status and error text are untouched; and a generation that throws
    resolves to no URL.  In particular, resolved right after the tool call,
    the placeholder just appended is the Message that carries the result. *)
Theorem C5_placeholder_is_updated_by_id
    (now currentTime : Z) (fc : FunctionCall) (s later : ChatView)
    (k : nat) (job : ImageJob) (generateContent : string -> GenerateContentOutcome) :
  fc_name fc = "generateImage"%string ->
  sessionRef s <> None ->
  aiRef s = true ->
  nth_error (imageJobs later) k = Some job ->
  let waiting := onmessage now currentTime (toolCallRequest [fc]) s in
  let url := generateImageForResponse true (job_prompt job) (job_style job)
               generateContent in
  let done := imageResolved k generateContent later in
  (conversation waiting = conversation s ++ [placeholderFor now fc]
   /\ imageJobs waiting
      = imageJobs s ++ [{| imageMessageId := now; job_prompt := fc_prompt fc;
                           job_style := fc_style fc |}]
   /\ status waiting = status s)
  /\ (status done = status later
      /\ error done = error later
      /\ List.length (conversation done) = List.length (conversation later)
      /\ (forall i msg, nth_error (conversation later) i = Some msg ->
            id msg = imageMessageId job ->
            nth_error (conversation done) i = Some (resolvedWith url msg))
      /\ (forall i msg, nth_error (conversation later) i = Some msg ->
            id msg <> imageMessageId job ->
            nth_error (conversation done) i = Some msg))
  /\ (forall message,
        generateContent (imagePrompt (job_prompt job) (job_style job)) = ApiThrows message ->
        url = None)
  /\ nth_error (conversation
                  (imageResolved (List.length (imageJobs s)) generateContent waiting))
       (List.length (conversation s))
     = Some (resolvedWith
               (generateImageForResponse true (fc_prompt fc) (fc_style fc) generateContent)
               (placeholderFor now fc)).
Proof.
  intros Hname Hsession Hai Hjob waiting url done.
  assert (Hwaiting : conversation waiting = conversation s ++ [placeholderFor now fc]
                     /\ imageJobs waiting
                        = imageJobs s ++ [{| imageMessageId := now;
                                             job_prompt := fc_prompt fc;
                                             job_style := fc_style fc |}]
                     /\ status waiting = status s).
  { unfold waiting, onmessage, toolCallRequest, silent. cbn.
    unfold onFunctionCall. rewrite Hname, Hai.
    destruct (sessionRef s) as [session|]; [| contradiction].
    cbn. auto. }
  split; [exact Hwaiting | split; [| split]].
  - assert (Hdone : done = later <| imageJobs ::= removeAt k |>
                                 <| conversation ::=
                                      map (fun msg =>
                                             if id msg =? imageMessageId job
                                             then resolvedWith url msg else msg) |>).
    { unfold done, imageResolved. rewrite Hjob. reflexivity. }
    rewrite Hdone. cbn.
    split; [reflexivity | split; [reflexivity | split; [apply length_map | split]]].
    + intros i msg Hmsg Hid.
      rewrite (nth_error_map_if (fun y => id y =? imageMessageId job) _ _ i msg Hmsg).
      apply Z.eqb_eq in Hid. now rewrite Hid.
    + intros i msg Hmsg Hid.
      rewrite (nth_error_map_if (fun y => id y =? imageMessageId job) _ _ i msg Hmsg).
      apply Z.eqb_neq in Hid. now rewrite Hid.
  - intros message Hthrows. unfold url, generateImageForResponse.
    destruct (negb true || negb (truthy (job_prompt job))); [reflexivity |].
    now rewrite Hthrows.
  - destruct Hwaiting as [Hconv [Hjobs _]]. clearbody waiting.
    unfold imageResolved.
    rewrite Hjobs, nth_error_app2, Nat.sub_diag by lia. cbn.
    rewrite Hconv, map_app, nth_error_app2, length_map, Nat.sub_diag
      by (rewrite length_map; lia).
    cbn. now rewrite Z.eqb_refl.
Qed.

(** A picture of a cat is requested while a user Message is in the transcript;
    the generation throws. *)
Lemma C5_witness :
  let s := listening <| conversation :=
             [ {| id := 3; speaker := user; text := "Draw me a cat";
                  imageUrl := None; isGeneratingImage := None;
                  feedback := fb_undefined |} ] |> in
  let waiting := onmessage 7 0 (toolCallRequest [drawCat]) s in
  let done := imageResolved 0 (fun _ => ApiThrows "quota") waiting in
  nth_error (conversation waiting) 1 = Some (placeholderFor 7 drawCat)
  /\ nth_error (conversation done) 0 = nth_error (conversation waiting) 0
  /\ nth_error (conversation done) 1 = Some (resolvedWith None (placeholderFor 7 drawCat))
  /\ status done = status waiting.
Proof.
  intros s waiting done.
  destruct (C5_placeholder_is_updated_by_id 7 0 drawCat s waiting 0
              {| imageMessageId := 7; job_prompt := "a cat"; job_style := None |}
              (fun _ => ApiThrows "quota")
              eq_refl ltac:(discriminate) eq_refl eq_refl)
    as [[Hins _] [[Hstatus [_ [_ [Hsame Hother]]]] [Hnull _]]].
  fold waiting in Hins. fold done in Hstatus, Hsame, Hother.
  split; [| split; [| split]].
  - rewrite Hins. reflexivity.
  - rewrite (Hother 0%nat _ eq_refl ltac:(discriminate)). reflexivity.
  - rewrite (Hsame 1%nat (placeholderFor 7 drawCat) eq_refl eq_refl).
    rewrite (Hnull "quota"%string eq_refl). reflexivity.
  - exact Hstatus.
Defined.

(** Placeholders that share an id resolve together: of two pictures requested
    in one tool call, the first to resolve lands on both placeholders. *)
Lemma placeholders_with_one_id_resolve_together (now currentTime : Z) :
  map imageUrl
    (conversation
       (imageResolved 0
          (fun _ => ApiResponse [Some {| mimeType := "image/png"; data := "Y2F0" |}])
          (onmessage now currentTime (toolCallRequest [drawCat; drawDog]) listening)))
  = [Some "data:image/png;base64,Y2F0"%string; Some "data:image/png;base64,Y2F0"%string].
Proof.
  unfold imageResolved. cbn. rewrite Z.eqb_refl. reflexivity.
Qed.

(** ** Interruption *)

Lemma onInterrupted_started (s : ChatView) :
  sourcesStarted s ->
  onInterrupted s
  = s <| stoppedSources := stoppedSources s ++ map node (audioSourcesRef s) |>
      <| audioSourcesRef := [] |>
      <| nextAudioStartTimeRef := 0 |>.
Proof.
  intros Hstarted. unfold onInterrupted.
  now rewrite (stopEach_started _ _ Hstarted).
Qed.

(** ** Teardown *)

Lemma cleanup_returns (s : ChatView) :
  sourcesStarted s ->
  exists s', cleanup s = Returns s'
             /\ released s s'
             /\ status s' = status s
             /\ error s' = error s.
Proof.
  assert (Hctx : forall ctx, closedOrAbsent (closeContext ctx)).
  { intros [[| |]|]; cbn; unfold closedOrAbsent; auto. }
  destruct s as [st conv err denied client session inCtx outCtx stream processor
                 userBuf aiBuf cursor sources timer stRef closedS stoppedT
                 disconnected sched stoppedS parked jobs sent mic].
  unfold sourcesStarted, cleanup. cbn. intros Hstarted.
  destruct session as [session|], stream as [tracks|], processor as [processor|];
    cbn; rewrite (stopEach_started _ _ Hstarted);
    eexists; (split; [reflexivity |]); cbn;
    (split; [| split; reflexivity]);
    unfold released; cbn;
    repeat match goal with
           | |- _ /\ _ => split
           | |- closedOrAbsent _ => apply Hctx
           | |- _ = _ => reflexivity
           end;
    intros; try discriminate;
    repeat match goal with
           | H : Some _ = Some _ |- _ => injection H as H; subst
           end;
    try match goal with
        | H : ?held = Some ?ctx |- closeContext ?held = Some closed =>
            rewrite H; destruct ctx; reflexivity
        end;
    auto using in_or_app, in_eq, in_map with datatypes.
Qed.

Lemma cleanup_of_released (s : ChatView) :
  speechEndTimeoutRef s = None ->
  sessionRef s = None ->
  mediaStreamRef s = None ->
  scriptProcessorRef s = None ->
  closedOrAbsent (inputAudioContextRef s) ->
  closedOrAbsent (outputAudioContextRef s) ->
  audioSourcesRef s = [] ->
  cleanup s = Returns s.
Proof.
  destruct s. cbn. intros -> -> -> -> Hin Hout ->.
  unfold cleanup. cbn.
  destruct Hin as [-> | ->], Hout as [-> | ->]; reflexivity.
Qed.

(** C6: with every source of the active set started (which [decoded] and
    [initiate] ensure), [stopConversation] returns without throwing and leaves
    everything released: the debounce timer cleared, the session closed and
    dropped, every media track stopped, the script processor disconnected,
    both audio contexts closed (the context each ref held is the one closed),
    every source stopped and the set empty.  A
    second [stopConversation] right after returns as well and changes nothing.
    The same cleanup run from [onerror] returns with everything released and
    the status ERROR, and a stop after it returns too. *)
Theorem C6_stop_is_idempotent_and_releases (message : string) (s : ChatView) :
  sourcesStarted s ->
  exists idle failed,
    stopConversation s = Returns idle
    /\ released s idle
    /\ status idle = IDLE
    /\ stopConversation idle = Returns idle
    /\ onerror message s = Returns failed
    /\ released s failed
    /\ status failed = ERROR
    /\ returned (stopConversation failed) = true.
Proof.
  intros Hstarted.
  destruct (cleanup_returns s Hstarted) as [cleaned [Hclean [Hreleased _]]].
  assert (Hstarted' : sourcesStarted
                        (s <| error := Some ("An error occurred: "
                                ++ (if truthy message then message
                                    else "Please try again."))%string |>
                           <| status := ERROR |>)) by exact Hstarted.
  destruct (cleanup_returns _ Hstarted') as [failed [Hfail [Hreleased' [Hstatus _]]]].
  exists (cleaned <| status := IDLE |>), failed.
  assert (Hidle : released s (cleaned <| status := IDLE |>)) by exact Hreleased.
  split; [| split; [exact Hidle | split; [reflexivity | split; [| split; [| split; [| split]]]]]].
  - unfold stopConversation. now rewrite Hclean.
  - unfold stopConversation.
    destruct Hidle as [H1 [H2 [_ [H3 [_ [H4 [_ [H5 [H6 [H7 _]]]]]]]]]].
    rewrite (cleanup_of_released _ H1 H2 H3 H4 H5 H6 H7).
    destruct cleaned; reflexivity.
  - exact Hfail.
  - exact Hreleased'.
  - exact Hstatus.
  - unfold stopConversation.
    destruct Hreleased' as [H1 [H2 [_ [H3 [_ [H4 [_ [H5 [H6 [H7 _]]]]]]]]]].
    now rewrite (cleanup_of_released _ H1 H2 H3 H4 H5 H6 H7).
Qed.

(** The session is stopped while one chunk plays and the debounce timer is
    pending. *)
Lemma C6_witness :
  let s := run [ Server 0 0 (audioChunk "one"); Decoded 0 1 250;
                 Server 2 3 (userFragment "Hi") ] listening in
  exists idle,
    stopConversation s = Returns idle
    /\ released s idle
    /\ stopConversation idle = Returns idle
    /\ inputAudioContextRef idle = Some closed
    /\ outputAudioContextRef idle = Some closed.
Proof.
  intros s.
  assert (Hstarted : sourcesStarted s) by (vm_compute; repeat constructor).
  destruct (C6_stop_is_idempotent_and_releases "socket closed" s Hstarted)
    as [idle [_ [Hstop [Hreleased [_ [Hagain _]]]]]].
  exists idle.
  split; [exact Hstop | split; [exact Hreleased | split; [exact Hagain |]]].
  destruct Hreleased as [_ [_ [_ [_ [_ [_ [_ [_ [_ [_ [_ [Hin Hout]]]]]]]]]]]].
  split; [apply (Hin running) | apply (Hout running)]; vm_compute; reflexivity.
Defined.

(** ** What the handlers leave alone *)

(** Closes [samePlayback s s'] when [s'] is [s] with other fields updated. *)
Ltac untouched := unfold samePlayback; repeat split; reflexivity.

Lemma samePlayback_refl (s : ChatView) : samePlayback s s.
Proof. untouched. Qed.

Lemma samePlayback_trans (a b c : ChatView) :
  samePlayback a b -> samePlayback b c -> samePlayback a c.
Proof.
  unfold samePlayback.
  intros [H1 [H2 [H3 [H4 [H5 H6]]]]] [K1 [K2 [K3 [K4 [K5 K6]]]]].
  repeat split; congruence.
Qed.

Lemma onFunctionCall_playback (now : Z) (fc : FunctionCall) (s : ChatView) :
  samePlayback s (onFunctionCall now fc s).
Proof.
  unfold onFunctionCall.
  destruct ((fc_name fc =? "generateImage")%string && isSome (sessionRef s) && aiRef s);
    untouched.
Qed.

Lemma functionCalls_playback (now : Z) (functionCalls : list FunctionCall) :
  forall s, samePlayback s (fold_left (fun acc fc => onFunctionCall now fc acc)
                              functionCalls s).
Proof.
  induction functionCalls as [|fc rest IH]; intros s; cbn [fold_left].
  - apply samePlayback_refl.
  - eapply samePlayback_trans; [apply onFunctionCall_playback | apply IH].
Qed.

Lemma onInputTranscription_playback (now : Z) (fragment : string) (s : ChatView) :
  samePlayback s (onInputTranscription now fragment s).
Proof. untouched. Qed.

Lemma onOutputTranscription_playback (now : Z) (fragment : string) (s : ChatView) :
  samePlayback s (onOutputTranscription now fragment s).
Proof. untouched. Qed.

Lemma onTurnComplete_playback (s : ChatView) : samePlayback s (onTurnComplete s).
Proof.
  unfold onTurnComplete. cbn.
  destruct (status_eq_dec (statusRef s) ERROR); untouched.
Qed.

(** [onmessage] is its transcript part, which leaves playback alone, followed
    by the loop over the audio parts. *)
Lemma onmessage_playback (now currentTime : Z) (message : LiveServerMessage) (s : ChatView) :
  exists s4,
    samePlayback s s4
    /\ onmessage now currentTime message s
       = playParts currentTime
           (match modelTurn message with Some parts => parts | None => [] end)
           (interrupted message) s4.
Proof.
  unfold onmessage. eexists. split; [| reflexivity].
  eapply samePlayback_trans;
    [| destruct (turnComplete message);
       [apply onTurnComplete_playback | apply samePlayback_refl]].
  eapply samePlayback_trans;
    [| destruct (outputTranscription message);
       [apply onOutputTranscription_playback | apply samePlayback_refl]].
  eapply samePlayback_trans;
    [| destruct (inputTranscription message);
       [apply onInputTranscription_playback | apply samePlayback_refl]].
  destruct (toolCall message);
    [apply functionCalls_playback | apply samePlayback_refl].
Qed.

(** ** The started-sources invariant holds in every reachable state *)

Lemma sourcesStarted_mounted : sourcesStarted mounted.
Proof. constructor. Qed.

Lemma onInterrupted_sourcesStarted (s : ChatView) :
  sourcesStarted s -> sourcesStarted (onInterrupted s).
Proof.
  intros H. rewrite (onInterrupted_started s H). constructor.
Qed.

Lemma playParts_sourcesStarted (currentTime : Z) (parts : list Part) (flag : bool) :
  forall s, sourcesStarted s -> sourcesStarted (playParts currentTime parts flag s).
Proof.
  induction parts as [|[audio|] rest IH]; intros s H; cbn [playParts].
  - destruct flag; [now apply onInterrupted_sourcesStarted | exact H].
  - destruct (truthy audio && isSome (outputAudioContextRef s)); [exact H | now apply IH].
  - now apply IH.
Qed.

Lemma deliver_sourcesStarted (ev : Event) (s : ChatView) :
  sourcesStarted s -> sourcesStarted (deliver ev s).
Proof.
  intros H. destruct ev as [now ct message | k ct d | k | k gen | n | t | | mid fb | now file];
    cbn [deliver].
  - destruct (onmessage_playback now ct message s) as [s4 [[Hsame _] ->]].
    apply playParts_sourcesStarted. unfold sourcesStarted. now rewrite Hsame.
  - unfold decoded. destruct (nth_error (decoding s) k) as [parked|]; [| exact H].
    apply playParts_sourcesStarted. unfold sourcesStarted. cbn.
    apply Forall_app. split; [exact H | now repeat constructor].
  - exact H.
  - unfold imageResolved. destruct (nth_error (imageJobs s) k); exact H.
  - unfold sourcesStarted, onended. cbn.
    apply Forall_forall. intros source Hin. apply filter_In in Hin.
    unfold sourcesStarted in H. rewrite Forall_forall in H. now apply H.
  - unfold timePasses. destruct (speechEndTimeoutRef s) as [due|]; [| exact H].
    destruct (due <=? t); [| exact H].
    unfold speechEndTimeout. cbn.
    destruct (status_eq_dec (statusRef s) LISTENING); exact H.
  - exact H.
  - exact H.
  - unfold handleFileChange. destruct file; [| exact H].
    destruct (isSome (sessionRef s)); exact H.
Qed.

Lemma run_sourcesStarted (events : list Event) :
  forall s, sourcesStarted s -> sourcesStarted (run events s).
Proof.
  induction events as [|ev rest IH]; intros s H; [exact H |].
  apply IH. now apply deliver_sourcesStarted.
Qed.

Lemma cleanup_sourcesStarted (s : ChatView) :
  sourcesStarted s -> sourcesStarted (stateOf (cleanup s)).
Proof.
  intros H. destruct (cleanup_returns s H) as [s' [-> [Hreleased _]]].
  destruct Hreleased as [_ [_ [_ [_ [_ [_ [_ [_ [_ [Hempty _]]]]]]]]]].
  unfold sourcesStarted. cbn. rewrite Hempty. constructor.
Qed.

Lemma startListeningForUser_sourcesStarted (env : StartEnv) (s : ChatView) :
  sourcesStarted s -> sourcesStarted (stateOf (startListeningForUser env s)).
Proof.
  intros H. unfold startListeningForUser.
  destruct (negb (API_KEY env)); [exact H |].
  destruct (getUserMedia env) as [tracks | [name message|]]; [exact H | |].
  - apply cleanup_sourcesStarted.
    destruct ((name =? "NotAllowedError")%string || includes message "Permission denied");
      exact H.
  - now apply cleanup_sourcesStarted.
Qed.

Lemma initiate_sourcesStarted (now : Z) (initialPrompt : string) (env : InitEnv)
    (s : ChatView) :
  sourcesStarted s -> sourcesStarted (initiate now initialPrompt env s).
Proof.
  intros H. unfold initiate.
  destruct (negb (API_KEY (startEnv env))); [exact H |].
  destruct (synthesize env) as [err | [[|c rest]|]]; [exact H | | |].
  - match goal with
    | |- context [startListeningForUser ?e ?x] =>
        assert (Hstart : sourcesStarted (stateOf (startListeningForUser e x)))
          by (apply startListeningForUser_sourcesStarted; exact H);
        destruct (startListeningForUser e x); exact Hstart
    end.
  - destruct (decodeGreeting env); [| exact H].
    unfold sourcesStarted. cbn. apply Forall_app.
    split; [exact H | now repeat constructor].
  - match goal with
    | |- context [startListeningForUser ?e ?x] =>
        assert (Hstart : sourcesStarted (stateOf (startListeningForUser e x)))
          by (apply startListeningForUser_sourcesStarted; exact H);
        destruct (startListeningForUser e x); exact Hstart
    end.
Qed.

(** ** The playback schedule *)

Lemma scheduledInOrder_nil : scheduledInOrder [].
Proof. intros i first next H. destruct i; discriminate H. Qed.

Lemma scheduledInOrder_snoc (sources : list AudioSource) (next : AudioSource) :
  scheduledInOrder sources ->
  (forall source, In source sources -> backToBack source next) ->
  scheduledInOrder (sources ++ [next]).
Proof.
  intros Hordered Hnext i a b Ha Hb.
  destruct (Nat.lt_ge_cases (S i) (List.length sources)) as [Hin | Hout].
  - rewrite nth_error_app1 in Ha by lia. rewrite nth_error_app1 in Hb by lia.
    now apply (Hordered i).
  - assert (Hlen : (S i < List.length (sources ++ [next]))%nat)
      by (apply nth_error_Some; congruence).
    rewrite length_app in Hlen. cbn in Hlen.
    assert (Hi : S i = List.length sources) by lia.
    rewrite nth_error_app1 in Ha by lia.
    rewrite nth_error_app2, Hi, Nat.sub_diag in Hb by lia.
    injection Hb as <-.
    apply Hnext. eapply nth_error_In. exact Ha.
Qed.

Lemma noPendingInterruption_removeAt (k : nat) (parked : list Decode) :
  Forall (fun p => thenInterrupted p = false) parked ->
  Forall (fun p => thenInterrupted p = false) (removeAt k parked).
Proof.
  intros H. unfold removeAt. apply Forall_app. split.
  - rewrite Forall_forall in *. intros p Hp. apply H. eapply In_nth_error in Hp.
    destruct Hp as [n Hn]. apply nth_error_In with (n := n).
    rewrite nth_error_firstn in Hn. destruct (n <? k)%nat; [exact Hn | discriminate].
  - rewrite Forall_forall in *. intros p Hp. apply H. eapply In_nth_error in Hp.
    destruct Hp as [n Hn]. rewrite nth_error_skipn in Hn.
    eapply nth_error_In. exact Hn.
Qed.

(** The loop over the parts of a message that does not interrupt: nothing is
    scheduled, the cursor does not go back, and the run it parks does not
    interrupt either. *)
Lemma playParts_quiet (currentTime : Z) (parts : list Part) :
  forall s,
    scheduled (playParts currentTime parts false s) = scheduled s
    /\ nextAudioStartTimeRef s <= nextAudioStartTimeRef (playParts currentTime parts false s)
    /\ (noPendingInterruption s ->
        noPendingInterruption (playParts currentTime parts false s)).
Proof.
  induction parts as [|[audio|] rest IH]; intros s; cbn [playParts].
  - split; [reflexivity | split; [lia | auto]].
  - destruct (truthy audio && isSome (outputAudioContextRef s)); [| apply IH].
    cbn. split; [reflexivity | split; [lia |]].
    intros Hquiet. unfold noPendingInterruption. cbn.
    apply Forall_app. split; [exact Hquiet | now repeat constructor].
  - apply IH.
Qed.

(** One undisturbed event: the cursor does not go back, and either nothing is
    scheduled or one source is, at the cursor, ending no later than the new
    cursor. *)
Lemma deliver_undisturbed (ev : Event) (s : ChatView) :
  undisturbed ev ->
  noPendingInterruption s ->
  noPendingInterruption (deliver ev s)
  /\ nextAudioStartTimeRef s <= nextAudioStartTimeRef (deliver ev s)
  /\ (scheduled (deliver ev s) = scheduled s
      \/ exists source,
           scheduled (deliver ev s) = scheduled s ++ [source]
           /\ startAt source = nextAudioStartTimeRef s
           /\ 0 <= duration source
           /\ startAt source + duration source <= nextAudioStartTimeRef (deliver ev s)).
Proof.
  intros Hev Hquiet.
  destruct ev as [now ct message | k ct d | k | k gen | n | t | | mid fb | now file];
    cbn [deliver undisturbed] in *.
  - destruct (onmessage_playback now ct message s)
      as [s4 [[_ [Hsched [Hcursor [Hparked _]]]] ->]].
    rewrite Hev.
    destruct (playParts_quiet ct
                (match modelTurn message with Some parts => parts | None => [] end) s4)
      as [Hs [Hc Hq]].
    split; [| split].
    + apply Hq. unfold noPendingInterruption. now rewrite Hparked.
    + lia.
    + left. congruence.
  - unfold decoded. destruct (nth_error (decoding s) k) as [parked|] eqn:Hk.
    + assert (Hflag : thenInterrupted parked = false).
      { unfold noPendingInterruption in Hquiet. rewrite Forall_forall in Hquiet.
        apply Hquiet. eapply nth_error_In. exact Hk. }
      rewrite Hflag.
      match goal with
      | |- context [playParts ct (restParts parked) false ?x] =>
          destruct (playParts_quiet ct (restParts parked) x) as [Hs [Hc Hq]];
          assert (Hx : noPendingInterruption x)
            by (apply noPendingInterruption_removeAt; exact Hquiet);
          assert (Hcur : nextAudioStartTimeRef x = nextAudioStartTimeRef s + d)
            by reflexivity;
          assert (Hsch : scheduled x
                         = scheduled s
                             ++ [{| node := List.length (scheduled s);
                                    buffer := audioData parked;
                                    startAt := nextAudioStartTimeRef s;
                                    duration := d; started := true;
                                    greeting := false |}])
            by reflexivity
      end.
      split; [now apply Hq | split; [lia |]].
      right. eexists. split; [rewrite Hs; exact Hsch |].
      cbn. split; [reflexivity | split; [exact Hev | lia]].
    + split; [exact Hquiet | split; [lia | now left]].
  - split; [| split; [cbn; lia | now left]].
    unfold decodeFailed, noPendingInterruption. cbn.
    now apply noPendingInterruption_removeAt.
  - unfold imageResolved. destruct (nth_error (imageJobs s) k);
      (split; [exact Hquiet | split; [cbn; lia | now left]]).
  - split; [exact Hquiet | split; [cbn; lia | now left]].
  - unfold timePasses. destruct (speechEndTimeoutRef s) as [due|];
      [destruct (due <=? t);
       [unfold speechEndTimeout; cbn;
        destruct (status_eq_dec (statusRef s) LISTENING) |] |];
      (split; [exact Hquiet | split; [cbn; lia | now left]]).
  - split; [exact Hquiet | split; [cbn; lia | now left]].
  - split; [exact Hquiet | split; [cbn; lia | now left]].
  - unfold handleFileChange. destruct file; [destruct (isSome (sessionRef s)) |];
      (split; [exact Hquiet | split; [cbn; lia | now left]]).
Qed.

Lemma audioChunk_parks (now currentTime : Z) (audio : string) (s : ChatView) :
  truthy audio = true ->
  outputAudioContextRef s <> None ->
  onmessage now currentTime (audioChunk audio) s
  = s <| nextAudioStartTimeRef := Z.max (nextAudioStartTimeRef s) currentTime |>
      <| decoding ::= fun waiting =>
           waiting ++ [{| audioData := audio; restParts := [];
                          thenInterrupted := false |}] |>.
Proof.
  intros Haudio Hctx. unfold onmessage, audioChunk, silent. cbn.
  rewrite Haudio. destruct (outputAudioContextRef s); [reflexivity | contradiction].
Qed.

(** When every chunk is decoded before the next one arrives, the schedule
    lists the chunks in arrival order. *)
Lemma decoded_one_by_one_keeps_arrival_order (chunks : list (string * Z * Z)) :
  forall s,
    decoding s = [] ->
    outputAudioContextRef s <> None ->
    Forall (fun '(audio, _, _) => truthy audio = true) chunks ->
    map buffer (scheduled (run (oneByOne chunks) s))
    = map buffer (scheduled s) ++ map (fun '(audio, _, _) => audio) chunks.
Proof.
  induction chunks as [|[[audio currentTime] bufferDuration] rest IH];
    intros s Hnone Hctx Hall.
  - cbn. now rewrite app_nil_r.
  - inversion Hall as [|? ? Haudio Hrest]; subst.
    change (run (oneByOne ((audio, currentTime, bufferDuration) :: rest)) s)
      with (run (oneByOne rest)
              (decoded 0 currentTime bufferDuration
                 (onmessage 0 currentTime (audioChunk audio) s))).
    rewrite (audioChunk_parks 0 currentTime audio s Haudio Hctx).
    assert (Hstep : decoded 0 currentTime bufferDuration
                      (s <| nextAudioStartTimeRef
                              := Z.max (nextAudioStartTimeRef s) currentTime |>
                         <| decoding ::= fun waiting =>
                              waiting ++ [{| audioData := audio; restParts := [];
                                             thenInterrupted := false |}] |>)
                    = s <| nextAudioStartTimeRef
                             := Z.max (nextAudioStartTimeRef s) currentTime
                                + bufferDuration |>
                        <| scheduled ::= fun l =>
                             l ++ [{| node := List.length (scheduled s); buffer := audio;
                                      startAt := Z.max (nextAudioStartTimeRef s) currentTime;
                                      duration := bufferDuration; started := true;
                                      greeting := false |}] |>
                        <| audioSourcesRef ::= fun set =>
                             set ++ [{| node := List.length (scheduled s); buffer := audio;
                                        startAt := Z.max (nextAudioStartTimeRef s) currentTime;
                                        duration := bufferDuration; started := true;
                                        greeting := false |}] |>).
    { unfold decoded. cbn. rewrite Hnone. cbn.
      destruct s; cbn in *; subst; reflexivity. }
    rewrite Hstep, IH; [| exact Hnone | exact Hctx | exact Hrest].
    cbn. rewrite map_app, <- app_assoc. reflexivity.
Qed.

Lemma playParts_scheduled (currentTime : Z) (parts : list Part) (flag : bool) :
  forall s, scheduled (playParts currentTime parts flag s) = scheduled s.
Proof.
  induction parts as [|[audio|] rest IH]; intros s; cbn [playParts].
  - destruct flag; [| reflexivity]. unfold onInterrupted.
    destruct (stopEach (audioSourcesRef s) (stoppedSources s)) as [log []]; reflexivity.
  - destruct (truthy audio && isSome (outputAudioContextRef s)); [reflexivity | apply IH].
  - apply IH.
Qed.

(** One event schedules the chunk of the decode it completes, and nothing
    else. *)
Lemma deliver_completion (ev : Event) (s : ChatView) :
  map chunkOf (scheduled (deliver ev s))
  = map chunkOf (scheduled s) ++ completions [ev] s.
Proof.
  destruct ev as [now ct message | k ct d | k | k gen | n | t | | mid fb | now file];
    cbn [deliver completions]; rewrite ?app_nil_r.
  - destruct (onmessage_playback now ct message s) as [s4 [[_ [Hsched _]] ->]].
    now rewrite playParts_scheduled, Hsched.
  - unfold decoded. destruct (nth_error (decoding s) k) as [parked|].
    + rewrite playParts_scheduled. cbn. now rewrite map_app.
    + now rewrite app_nil_r.
  - reflexivity.
  - unfold imageResolved. destruct (nth_error (imageJobs s) k); reflexivity.
  - reflexivity.
  - unfold timePasses. destruct (speechEndTimeoutRef s) as [due|]; [| reflexivity].
    destruct (due <=? t); [| reflexivity].
    unfold speechEndTimeout. cbn.
    destruct (status_eq_dec (statusRef s) LISTENING); reflexivity.
  - reflexivity.
  - reflexivity.
  - unfold handleFileChange. destruct file; [destruct (isSome (sessionRef s)) |];
      reflexivity.
Qed.

(** Over a run the schedule grows by the chunks whose decodes complete, in
    the order of the completions. *)
Lemma run_completions (events : list Event) :
  forall s,
    map chunkOf (scheduled (run events s))
    = map chunkOf (scheduled s) ++ completions events s.
Proof.
  induction events as [|ev rest IH]; intros s.
  - cbn. now rewrite app_nil_r.
  - change (run (ev :: rest) s) with (run rest (deliver ev s)).
    rewrite IH, deliver_completion, <- app_assoc.
    cbn [completions]. now rewrite app_nil_r.
Qed.

Lemma chunksAmong_cons (part : Part) (rest : list Part) :
  chunksAmong (part :: rest)
  = match part with
    | Some audio => if truthy audio then audio :: chunksAmong rest else chunksAmong rest
    | None => chunksAmong rest
    end.
Proof.
  unfold chunksAmong, chunksOf, audioParts, silent. cbn.
  destruct part as [audio|]; [destruct (truthy audio) |]; reflexivity.
Qed.

Lemma removeAt_incl {A : Type} (k : nat) (l : list A) : incl (removeAt k l) l.
Proof.
  unfold removeAt. revert k.
  induction l as [|x l IH]; intros [|k]; cbn.
  - apply incl_refl.
  - apply incl_refl.
  - apply incl_tl, incl_refl.
  - intros y [-> | Hin]; [now left | right; now apply (IH k)].
Qed.

(** The loop parks chunks of the parts it runs over only. *)
Lemma playParts_waiting (currentTime : Z) (parts : list Part) (flag : bool) :
  forall s,
    incl (waiting (playParts currentTime parts flag s)) (waiting s ++ chunksAmong parts).
Proof.
  induction parts as [|part rest IH]; intros s; cbn [playParts].
  - apply incl_appl.
    destruct flag; [| apply incl_refl]. unfold onInterrupted, waiting.
    destruct (stopEach (audioSourcesRef s) (stoppedSources s)) as [log []];
      apply incl_refl.
  - rewrite chunksAmong_cons.
    destruct part as [audio|]; [| apply IH].
    destruct (truthy audio); cbn [andb]; [| apply IH].
    destruct (isSome (outputAudioContextRef s)).
    + unfold waiting. cbn. rewrite flat_map_app. cbn. rewrite app_nil_r.
      apply incl_refl.
    + eapply incl_tran; [apply IH |].
      apply incl_app; [apply incl_appl, incl_refl | apply incl_appr, incl_tl, incl_refl].
Qed.

(** An event parks chunks that were parked already or arrive with it. *)
Lemma deliver_waiting (ev : Event) (s : ChatView) :
  incl (waiting (deliver ev s)) (waiting s ++ arrivals [ev]).
Proof.
  destruct ev as [now ct message | k ct d | k | k gen | n | t | | mid fb | now file];
    cbn [deliver arrivals flat_map]; rewrite ?app_nil_r.
  - destruct (onmessage_playback now ct message s)
      as [s4 [[_ [_ [_ [Hparked _]]]] ->]].
    eapply incl_tran; [apply playParts_waiting |].
    unfold waiting at 1. rewrite Hparked. fold (waiting s).
    apply incl_app; [apply incl_appl, incl_refl | apply incl_appr].
    unfold chunksAmong, chunksOf, audioParts, silent. cbn.
    destruct (modelTurn message); apply incl_refl.
  - unfold decoded. destruct (nth_error (decoding s) k) as [parked|] eqn:Hk;
      [| apply incl_refl].
    eapply incl_tran; [apply playParts_waiting |].
    apply incl_app.
    + unfold waiting. cbn. intros chunk Hin.
      apply in_flat_map in Hin. destruct Hin as [p [Hp Hchunk]].
      apply in_flat_map. exists p. split; [now apply (removeAt_incl k) | exact Hchunk].
    + intros chunk Hin. unfold waiting. apply in_flat_map.
      exists parked. split; [eapply nth_error_In; exact Hk | now right].
  - unfold decodeFailed, waiting. cbn. intros chunk Hin.
    apply in_flat_map in Hin. destruct Hin as [p [Hp Hchunk]].
    apply in_flat_map. exists p. split; [now apply (removeAt_incl k) | exact Hchunk].
  - unfold imageResolved. destruct (nth_error (imageJobs s) k); apply incl_refl.
  - apply incl_refl.
  - unfold timePasses. destruct (speechEndTimeoutRef s) as [due|]; [| apply incl_refl].
    destruct (due <=? t); [| apply incl_refl].
    unfold speechEndTimeout. cbn.
    destruct (status_eq_dec (statusRef s) LISTENING); apply incl_refl.
  - apply incl_refl.
  - apply incl_refl.
  - unfold handleFileChange. destruct file; [destruct (isSome (sessionRef s)) |];
      apply incl_refl.
Qed.

(** A decode that completes is the decode of a chunk that was parked at the
    start of the run or has arrived during it. *)
Lemma completions_enqueued (events : list Event) :
  forall s, incl (map fst (completions events s)) (waiting s ++ arrivals events).
Proof.
  induction events as [|ev rest IH]; intros s; [intros chunk [] |].
  cbn [completions]. rewrite map_app.
  replace (arrivals (ev :: rest)) with (arrivals [ev] ++ arrivals rest)
    by (unfold arrivals; cbn [flat_map]; now rewrite app_nil_r).
  apply incl_app.
  - apply incl_appl.
    destruct ev as [now ct message | k ct d | k | k gen | n | t | | mid fb | now file];
      try (intros chunk []).
    destruct (nth_error (decoding s) k) as [parked|] eqn:Hk; [| intros chunk []].
    intros chunk [<- | []]. unfold waiting. apply in_flat_map.
    exists parked. split; [eapply nth_error_In; exact Hk | now left].
  - eapply incl_tran; [apply IH |].
    rewrite app_assoc.
    apply incl_app; [apply incl_appl, deliver_waiting | apply incl_appr, incl_refl].
Qed.

(** C2, the claim as stated fails: chunk "A" arrives before chunk "B", the
    decode of "B" completes first, and "B" is started at 0 while "A", which
    arrived first, is started at 10. *)
Lemma C2_counterexample :
  ~ playsInArrivalOrder
      [ Server 0 0 (audioChunk "A"); Server 1 0 (audioChunk "B");
        Decoded 1 2 10; Decoded 0 3 10 ] listening.
Proof.
  intros H.
  specialize (H 0%nat "A"%string "B"%string
                {| node := 1; buffer := "A"; startAt := 10; duration := 10;
                   started := true; greeting := false |}
                {| node := 0; buffer := "B"; startAt := 0; duration := 10;
                   started := true; greeting := false |}
                eq_refl eq_refl).
  assert (Hsched : scheduled
                     (run [ Server 0 0 (audioChunk "A"); Server 1 0 (audioChunk "B");
                            Decoded 1 2 10; Decoded 0 3 10 ] listening)
                   = [ {| node := 0; buffer := "B"; startAt := 0; duration := 10;
                          started := true; greeting := false |};
                       {| node := 1; buffer := "A"; startAt := 10; duration := 10;
                          started := true; greeting := false |} ])
    by (vm_compute; reflexivity).
  rewrite Hsched in H.
  destruct (H (or_intror (or_introl eq_refl)) eq_refl (or_introl eq_refl) eq_refl)
    as [Hstart _].
  cbn in Hstart. lia.
Qed.

(** C2 (amended): over every run of events without an interruption, whatever
    the order in which the decodes complete, the sources are scheduled one
    after the other in the order in which their decodes complete: the run
    adds to the schedule exactly one source for each decode that completes
    ([Decoded k] for a run parked at [k]), with that run's chunk as buffer
    and the decoded duration, in the order of the completions; every chunk
    so scheduled was waiting at the start of the run or has arrived during
    it; in that
    order the start times do not decrease and each source starts no earlier
    than the one scheduled before it ends; and no scheduled source ends after
    the cursor. *)
Theorem C2_schedule_in_completion_order_without_overlap
    (events : list Event) (s : ChatView) :
  Forall undisturbed events ->
  noPendingInterruption s ->
  exists added,
    scheduled (run events s) = scheduled s ++ added
    /\ map chunkOf added = completions events s
    /\ incl (map buffer added) (waiting s ++ arrivals events)
    /\ scheduledInOrder added
    /\ (forall source, In source added ->
          startAt source <= nextAudioStartTimeRef (run events s)
          /\ startAt source + duration source <= nextAudioStartTimeRef (run events s)).
Proof.
  intros Hevents Hquiet.
  enough (Hall : exists added,
             scheduled (run events s) = scheduled s ++ added
             /\ scheduledInOrder added
             /\ (forall source, In source added ->
                   startAt source <= nextAudioStartTimeRef (run events s)
                   /\ startAt source + duration source
                      <= nextAudioStartTimeRef (run events s))
             /\ noPendingInterruption (run events s)).
  { destruct Hall as [added [H1 [H2 [H3 _]]]]. exists added.
    assert (Hcompleted : map chunkOf added = completions events s).
    { pose proof (run_completions events s) as Hrun.
      rewrite H1, map_app in Hrun. now apply app_inv_head in Hrun. }
    split; [exact H1 | split; [exact Hcompleted | split; [| split; [exact H2 | exact H3]]]].
    replace (map buffer added) with (map fst (map chunkOf added))
      by (rewrite map_map; reflexivity).
    rewrite Hcompleted. apply completions_enqueued. }
  induction events as [|ev before IH] using rev_ind.
  - exists []. cbn. rewrite app_nil_r.
    split; [reflexivity | split; [apply scheduledInOrder_nil | split; [contradiction | exact Hquiet]]].
  - apply Forall_app in Hevents. destruct Hevents as [Hbefore Hev].
    inversion Hev as [|? ? Hundisturbed _]; subst.
    destruct (IH Hbefore) as [added [Hsched [Hordered [Hbound Hq]]]].
    unfold run in *. rewrite fold_left_app. cbn [fold_left].
    fold (run before s) in *.
    destruct (deliver_undisturbed ev (run before s) Hundisturbed Hq)
      as [Hq' [Hmono [Hsame | [source [Hmore [Hat [Hdur Hend]]]]]]].
    + exists added. rewrite Hsame.
      split; [exact Hsched | split; [exact Hordered | split; [| exact Hq']]].
      intros source Hin. destruct (Hbound source Hin). lia.
    + exists (added ++ [source]). rewrite Hmore, Hsched, app_assoc.
      split; [reflexivity | split; [| split; [| exact Hq']]].
      * apply scheduledInOrder_snoc; [exact Hordered |].
        intros earlier Hin. destruct (Hbound earlier Hin). unfold backToBack. lia.
      * intros x Hin. apply in_app_or in Hin. destruct Hin as [Hin | [<- | []]].
        -- destruct (Hbound x Hin). lia.
        -- lia.
Qed.

(** The run of the counterexample: "B" is decoded before "A", and is
    scheduled before it. *)
Lemma C2_witness :
  let events := [ Server 0 0 (audioChunk "A"); Server 1 0 (audioChunk "B");
                  Decoded 1 2 10; Decoded 0 3 10 ] in
  exists added,
    scheduled (run events listening) = scheduled listening ++ added
    /\ map chunkOf added = [("B"%string, 10); ("A"%string, 10)]
    /\ scheduledInOrder added.
Proof.
  intros events.
  assert (Hevents : Forall undisturbed events)
    by (repeat constructor; cbn; lia).
  assert (Hquiet : noPendingInterruption listening) by constructor.
  destruct (C2_schedule_in_completion_order_without_overlap events listening
              Hevents Hquiet)
    as [added [Hsched [Hcompleted [_ [Hordered _]]]]].
  exists added. split; [exact Hsched | split; [| exact Hordered]].
  rewrite Hcompleted. vm_compute. reflexivity.
Defined.

(** ** Playback after an interruption *)

Lemma playParts_noChunks (currentTime : Z) (parts : list Part) (flag : bool) (s : ChatView) :
  chunksOf (silent <| modelTurn := Some parts |>) = [] ->
  playParts currentTime parts flag s = if flag then onInterrupted s else s.
Proof.
  unfold chunksOf. cbn [modelTurn silent]. cbn.
  induction parts as [|[audio|] rest IH]; cbn [flat_map playParts]; intros Hnone.
  - reflexivity.
  - destruct (truthy audio); [discriminate Hnone |]. cbn [andb]. now apply IH.
  - now apply IH.
Qed.

(** While the active set is empty, an event that brings no audio leaves the
    schedule, the parked decodes and the output context alone; the cursor
    stays, or is put at 0 by an interruption. *)
Lemma noAudio_deliver (ev : Event) (s : ChatView) :
  noAudio ev ->
  audioSourcesRef s = [] ->
  audioSourcesRef (deliver ev s) = []
  /\ scheduled (deliver ev s) = scheduled s
  /\ decoding (deliver ev s) = decoding s
  /\ outputAudioContextRef (deliver ev s) = outputAudioContextRef s
  /\ (nextAudioStartTimeRef (deliver ev s) = nextAudioStartTimeRef s
      \/ nextAudioStartTimeRef (deliver ev s) = 0)
  /\ (undisturbed ev -> nextAudioStartTimeRef (deliver ev s) = nextAudioStartTimeRef s).
Proof.
  intros Hev Hset.
  destruct ev as [now ct message | k ct d | k | k gen | n | t | | mid fb | now file];
    cbn [deliver noAudio undisturbed] in *; try contradiction.
  - destruct (onmessage_playback now ct message s)
      as [s4 [[Hsources [Hsched [Hcursor [Hparked [_ Hctx]]]]] ->]].
    rewrite playParts_noChunks.
    2: { unfold chunksOf in *. cbn. destruct (modelTurn message); [exact Hev | reflexivity]. }
    destruct (interrupted message).
    + unfold onInterrupted. rewrite Hsources, Hset. cbn.
      repeat split; auto. discriminate.
    + repeat split; auto; congruence.
  - unfold imageResolved. destruct (nth_error (imageJobs s) k); cbn; auto 10.
  - unfold onended. cbn. rewrite Hset. cbn. auto 10.
  - unfold timePasses. destruct (speechEndTimeoutRef s) as [due|]; [| auto 10].
    destruct (due <=? t); [| auto 10].
    unfold speechEndTimeout. cbn.
    destruct (status_eq_dec (statusRef s) LISTENING); cbn; auto 10.
  - cbn. auto 10.
  - cbn. auto 10.
  - unfold handleFileChange. destruct file; [destruct (isSome (sessionRef s)) |];
      cbn; auto 10.
Qed.

Lemma noAudio_run (events : list Event) :
  forall s,
    Forall noAudio events ->
    audioSourcesRef s = [] ->
    audioSourcesRef (run events s) = []
    /\ scheduled (run events s) = scheduled s
    /\ decoding (run events s) = decoding s
    /\ outputAudioContextRef (run events s) = outputAudioContextRef s
    /\ (nextAudioStartTimeRef (run events s) = nextAudioStartTimeRef s
        \/ nextAudioStartTimeRef (run events s) = 0)
    /\ (Forall undisturbed events ->
        nextAudioStartTimeRef (run events s) = nextAudioStartTimeRef s).
Proof.
  induction events as [|ev rest IH]; intros s Hall Hset.
  - cbn. auto 10.
  - inversion Hall as [|? ? Hev Hrest]; subst.
    change (run (ev :: rest) s) with (run rest (deliver ev s)).
    destruct (noAudio_deliver ev s Hev Hset) as [D1 [D2 [D3 [D4 [D5 D6]]]]].
    destruct (IH (deliver ev s) Hrest D1) as [R1 [R2 [R3 [R4 [R5 R6]]]]].
    split; [exact R1 | split; [congruence | split; [congruence | split; [congruence |
      split]]]].
    + destruct R5 as [R5 | R5]; [| now right].
      destruct D5 as [D5 | D5]; [left | right]; congruence.
    + intros Hquiet. inversion Hquiet as [|? ? Hq Hqs]; subst.
      rewrite (R6 Hqs). now apply D6.
Qed.

(** The one parked decode completes. *)
Lemma decoded_only_one (currentTime bufferDuration : Z) (audio : string) (s : ChatView) :
  decoding s = [{| audioData := audio; restParts := []; thenInterrupted := false |}] ->
  decoded 0 currentTime bufferDuration s
  = s <| decoding := [] |>
      <| scheduled ::= fun l =>
           l ++ [{| node := List.length (scheduled s); buffer := audio;
                    startAt := nextAudioStartTimeRef s; duration := bufferDuration;
                    started := true; greeting := false |}] |>
      <| nextAudioStartTimeRef := nextAudioStartTimeRef s + bufferDuration |>
      <| audioSourcesRef ::= fun set =>
           set ++ [{| node := List.length (scheduled s); buffer := audio;
                      startAt := nextAudioStartTimeRef s; duration := bufferDuration;
                      started := true; greeting := false |}] |>.
Proof.
  intros Hparked. unfold decoded. rewrite Hparked. cbn.
  destruct s; cbn in *; subst; reflexivity.
Qed.




(** ** The assistant-initiated start *)






(* ================================================================= *)
(** * Further properties of the controller *)

(** ** Starting and stopping *)

(** [cleanup] lets go of resources only: what has been said, the buffers, the
    cursor, the work in flight and the status stay as they are, whether it
    returns or throws. *)
Lemma cleanup_keeps (s : ChatView) :
  let s' := stateOf (cleanup s) in
  status s' = status s
  /\ conversation s' = conversation s
  /\ error s' = error s
  /\ permissionDenied s' = permissionDenied s
  /\ userInputRef s' = userInputRef s
  /\ aiResponseRef s' = aiResponseRef s
  /\ nextAudioStartTimeRef s' = nextAudioStartTimeRef s
  /\ scheduled s' = scheduled s
  /\ decoding s' = decoding s
  /\ aiRef s' = aiRef s.
Proof.
  destruct s as [st conv err denied client session inCtx outCtx stream processor
                 userBuf aiBuf cursor sources timer stRef closedS stoppedT
                 disconnected sched stoppedS parked jobs sent mic].
  unfold cleanup. cbn.
  destruct session, stream, processor; cbn;
    destruct (stopEach sources stoppedS) as [log []]; cbn; repeat split; reflexivity.
Qed.

(** X1: without an API key [startListeningForUser] returns with the status
    ERROR and the text "API_KEY is not set."; the microphone is not asked for
    and no session, stream or audio context is acquired. *)
Theorem X1_start_without_api_key (env : StartEnv) (s : ChatView) :
  API_KEY env = false ->
  exists s',
    startListeningForUser env s = Returns s'
    /\ status s' = ERROR
    /\ error s' = Some "API_KEY is not set."%string
    /\ micRequests s' = micRequests s
    /\ sessionRef s' = sessionRef s
    /\ mediaStreamRef s' = mediaStreamRef s
    /\ inputAudioContextRef s' = inputAudioContextRef s
    /\ outputAudioContextRef s' = outputAudioContextRef s
    /\ conversation s' = conversation s.
Proof.
  intros Hkey. unfold startListeningForUser. rewrite Hkey. cbn.
  eexists. split; [reflexivity |]. cbn. repeat split; reflexivity.
Qed.

Lemma X1_witness :
  exists s',
    startListeningForUser
      {| API_KEY := false; getUserMedia := MicGranted [0%nat]; connect := 0%nat |} mounted
    = Returns s'
    /\ status s' = ERROR
    /\ micRequests s' = 0%nat.
Proof.
  destruct (X1_start_without_api_key
              {| API_KEY := false; getUserMedia := MicGranted [0%nat]; connect := 0%nat |}
              mounted eq_refl)
    as [s' [Hret [Hstatus [_ [Hmic _]]]]].
  exists s'. split; [exact Hret | split; [exact Hstatus | exact Hmic]].
Defined.

(** [cleanup] run on a state that holds the resources of [s0] releases them. *)
Lemma cleanup_released_from (s0 s : ChatView) :
  sourcesStarted s ->
  sessionRef s = sessionRef s0 ->
  mediaStreamRef s = mediaStreamRef s0 ->
  scriptProcessorRef s = scriptProcessorRef s0 ->
  audioSourcesRef s = audioSourcesRef s0 ->
  inputAudioContextRef s = inputAudioContextRef s0 ->
  outputAudioContextRef s = outputAudioContextRef s0 ->
  exists s', cleanup s = Returns s' /\ released s0 s'.
Proof.
  intros Hstarted H1 H2 H3 H4 H5 H6.
  destruct (cleanup_returns s Hstarted) as [s' [Hret [Hrel _]]].
  exists s'. split; [exact Hret |].
  unfold released in *. rewrite <- H1, <- H2, <- H3, <- H4, <- H5, <- H6. exact Hrel.
Qed.

(** X2: when [getUserMedia] throws, [startListeningForUser] returns with the
    status ERROR and everything released.  An Error named NotAllowedError,
    or whose message contains "Permission denied", sets [permissionDenied]
    and shows the fixed microphone text; any other Error shows its own
    message; a thrown non-Error shows "An unknown error occurred.".  The
    transcript is untouched. *)
Theorem X2_microphone_failure (env : StartEnv) (err : Thrown) (s : ChatView) :
  API_KEY env = true ->
  getUserMedia env = MicThrows err ->
  sourcesStarted s ->
  exists s',
    startListeningForUser env s = Returns s'
    /\ status s' = ERROR
    /\ released s s'
    /\ conversation s' = conversation s
    /\ match err with
       | ErrorObject name message =>
           if (name =? "NotAllowedError")%string || includes message "Permission denied"
           then permissionDenied s' = true
                /\ error s' = Some "Microphone access was denied. Please allow it in your browser settings and try again."%string
           else permissionDenied s' = false /\ error s' = Some message
       | OtherValue =>
           permissionDenied s' = false
           /\ error s' = Some "An unknown error occurred."%string
       end.
Proof.
  intros Hkey Hmic Hstarted.
  unfold startListeningForUser. rewrite Hkey, Hmic. cbn.
  assert (Hgen : forall x,
             sourcesStarted x ->
             sessionRef x = sessionRef s -> mediaStreamRef x = mediaStreamRef s ->
             scriptProcessorRef x = scriptProcessorRef s ->
             audioSourcesRef x = audioSourcesRef s ->
             inputAudioContextRef x = inputAudioContextRef s ->
             outputAudioContextRef x = outputAudioContextRef s ->
             exists s', cleanup x = Returns s'
                        /\ status s' = status x
                        /\ released s s'
                        /\ conversation s' = conversation x
                        /\ permissionDenied s' = permissionDenied x
                        /\ error s' = error x).
  { intros x Hx H1 H2 H3 H4 H5 H6.
    destruct (cleanup_released_from s x Hx H1 H2 H3 H4 H5 H6) as [s' [Hret Hrel]].
    pose proof (cleanup_keeps x) as Hkeep. rewrite Hret in Hkeep. cbn in Hkeep.
    destruct Hkeep as [Hst [Hconv [Herr [Hden _]]]].
    exists s'. auto 10. }
  destruct err as [name message|];
    [destruct ((name =? "NotAllowedError")%string
               || includes message "Permission denied") |];
    match goal with
    | |- exists s', cleanup ?x = Returns s' /\ _ =>
        destruct (Hgen x Hstarted eq_refl eq_refl eq_refl eq_refl eq_refl eq_refl)
          as [s' [Hret [Hst [Hrel [Hconv [Hden Herr]]]]]];
        exists s'; rewrite Hst, Hconv, Hden, Herr; cbn;
        (split; [exact Hret | split; [reflexivity | split; [exact Hrel |
           split; [reflexivity | split; reflexivity]]]])
    end.
Qed.

(** The browser refuses the microphone while a chunk is playing. *)
Lemma X2_witness :
  let env := {| API_KEY := true;
                getUserMedia := MicThrows (ErrorObject "NotAllowedError" "Permission denied");
                connect := 1%nat |} in
  let s := run [ Server 0 0 (audioChunk "one"); Decoded 0 1 250 ] listening in
  exists s',
    startListeningForUser env s = Returns s'
    /\ status s' = ERROR
    /\ released s s'
    /\ permissionDenied s' = true.
Proof.
  intros env s.
  assert (Hstarted : sourcesStarted s) by (vm_compute; repeat constructor).
  destruct (X2_microphone_failure env
              (ErrorObject "NotAllowedError" "Permission denied") s
              eq_refl eq_refl Hstarted)
    as [s' [Hret [Hstatus [Hrel [_ Hdenied]]]]].
  exists s'. split; [exact Hret | split; [exact Hstatus | split; [exact Hrel |]]].
  cbn in Hdenied. destruct Hdenied as [Hden _]. exact Hden.
Defined.

Lemma stopConversation_returns (s : ChatView) :
  sourcesStarted s ->
  exists idle,
    stopConversation s = Returns idle
    /\ released s idle
    /\ status idle = IDLE
    /\ conversation idle = conversation s
    /\ userInputRef idle = userInputRef s
    /\ aiResponseRef idle = aiResponseRef s
    /\ nextAudioStartTimeRef idle = nextAudioStartTimeRef s
    /\ scheduled idle = scheduled s
    /\ decoding idle = decoding s.
Proof.
  intros Hstarted.
  destruct (cleanup_returns s Hstarted) as [s' [Hret [Hrel _]]].
  pose proof (cleanup_keeps s) as Hkeep. rewrite Hret in Hkeep. cbn in Hkeep.
  destruct Hkeep as [_ [Hconv [_ [_ [Huser [Hai [Hcursor [Hsched [Hdec _]]]]]]]]].
  exists (s' <| status := IDLE |>).
  unfold stopConversation. rewrite Hret.
  split; [reflexivity | split; [exact Hrel |]].
  cbn. auto 10.
Qed.

(** X3: with the key set and the microphone granted, [startListeningForUser]
    returns with the status PROCESSING, holding the stream, a running input
    context and the session; an output context that is open is kept, one
    that is missing or closed is replaced by a running one.  So a start that
    follows a stop plays audio again: the chunk that arrives next is parked
    for decoding. *)
Theorem X3_start_acquires_and_reopens_playback
    (env : StartEnv) (tracks : list nat) (s : ChatView) :
  API_KEY env = true ->
  getUserMedia env = MicGranted tracks ->
  exists s',
    startListeningForUser env s = Returns s'
    /\ status s' = PROCESSING
    /\ error s' = None
    /\ mediaStreamRef s' = Some tracks
    /\ inputAudioContextRef s' = Some running
    /\ sessionRef s' = Some (connect env)
    /\ aiRef s' = true
    /\ outputAudioContextRef s'
       = match outputAudioContextRef s with
         | Some suspended => Some suspended
         | _ => Some running
         end
    /\ (forall now currentTime audio, truthy audio = true ->
          decoding (onmessage now currentTime (audioChunk audio) s')
          = decoding s ++ [{| audioData := audio; restParts := [];
                              thenInterrupted := false |}]).
Proof.
  intros Hkey Hmic. unfold startListeningForUser. rewrite Hkey, Hmic.
  eexists. split; [reflexivity |].
  do 6 (split; [reflexivity |]).
  split.
  - cbn. destruct (outputAudioContextRef s) as [[| |]|]; reflexivity.
  - intros now currentTime audio Haudio.
    rewrite audioChunk_parks; [reflexivity | exact Haudio |].
    cbn. destruct (outputAudioContextRef s) as [[| |]|]; discriminate.
Qed.

(** A session is stopped and started again. *)
Lemma X3_witness :
  exists s',
    startListeningForUser grantedEnv (stateOf (stopConversation listening)) = Returns s'
    /\ status s' = PROCESSING
    /\ outputAudioContextRef s' = Some running.
Proof.
  destruct (X3_start_acquires_and_reopens_playback grantedEnv [0%nat]
              (stateOf (stopConversation listening)) eq_refl eq_refl)
    as [s' [Hret [Hstatus [_ [_ [_ [_ [_ [Hctx _]]]]]]]]].
  exists s'. split; [exact Hret | split; [exact Hstatus |]].
  rewrite Hctx. vm_compute. reflexivity.
Defined.

Lemma uneventful_run (events : list Event) (s : ChatView) :
  Forall uneventful events ->
  audioSourcesRef s = [] ->
  audioSourcesRef (run events s) = []
  /\ scheduled (run events s) = scheduled s
  /\ decoding (run events s) = decoding s
  /\ outputAudioContextRef (run events s) = outputAudioContextRef s
  /\ nextAudioStartTimeRef (run events s) = nextAudioStartTimeRef s.
Proof.
  intros Hall Hset.
  assert (Hnone : Forall noAudio events)
    by (eapply Forall_impl; [| exact Hall]; now intros ev [H _]).
  assert (Hquiet : Forall undisturbed events)
    by (eapply Forall_impl; [| exact Hall]; now intros ev [_ H]).
  destruct (noAudio_run events s Hnone Hset) as [R1 [R2 [R3 [R4 [_ R6]]]]].
  auto 10.
Qed.

(** X4: [stopConversation] keeps the transcript, both transcript buffers and
    the playback cursor.  When no decode of the stopped session is in
    flight, the first chunk enqueued after a new start is therefore started
    at the larger of the cursor the stopped session left and the audio clock
    at the chunk's arrival, whatever happens in between that brings no audio
    and does not interrupt ([between]: before the chunk arrives;
    [meanwhile]: while it is decoded). *)
Theorem X4_stop_keeps_transcript_and_cursor
    (env : StartEnv) (tracks : list nat) (now currentTime currentTime' bufferDuration : Z)
    (audio : string) (between meanwhile : list Event) (s : ChatView) :
  sourcesStarted s ->
  decoding s = [] ->
  API_KEY env = true ->
  getUserMedia env = MicGranted tracks ->
  truthy audio = true ->
  Forall uneventful between ->
  Forall uneventful meanwhile ->
  exists idle again source,
    stopConversation s = Returns idle
    /\ conversation idle = conversation s
    /\ userInputRef idle = userInputRef s
    /\ aiResponseRef idle = aiResponseRef s
    /\ nextAudioStartTimeRef idle = nextAudioStartTimeRef s
    /\ startListeningForUser env idle = Returns again
    /\ scheduled (decoded 0 currentTime' bufferDuration
                    (run meanwhile
                       (onmessage now currentTime (audioChunk audio) (run between again))))
       = scheduled s ++ [source]
    /\ buffer source = audio
    /\ startAt source = Z.max (nextAudioStartTimeRef s) currentTime.
Proof.
  intros Hstarted Hnone Hkey Hmic Haudio Hbetween Hmeanwhile.
  destruct (stopConversation_returns s Hstarted)
    as [idle [Hstop [Hrel [_ [Hconv [Huser [Hai [Hcursor [Hsched Hdec]]]]]]]]].
  assert (Hset : audioSourcesRef idle = [])
    by (destruct Hrel as [_ [_ [_ [_ [_ [_ [_ [_ [_ [H _]]]]]]]]]]; exact H).
  exists idle.
  assert (Hagain : exists again,
             startListeningForUser env idle = Returns again
             /\ outputAudioContextRef again <> None
             /\ nextAudioStartTimeRef again = nextAudioStartTimeRef idle
             /\ scheduled again = scheduled idle
             /\ decoding again = decoding idle
             /\ audioSourcesRef again = audioSourcesRef idle).
  { unfold startListeningForUser. rewrite Hkey, Hmic. cbn.
    eexists. split; [reflexivity |]. cbn.
    split; [destruct (outputAudioContextRef idle) as [[| |]|]; discriminate |].
    auto. }
  destruct Hagain as [again [Hstart [Hctx [Hcursor' [Hsched' [Hdec' Hset']]]]]].
  exists again.
  rewrite Hset in Hset'.
  destruct (uneventful_run between again Hbetween Hset') as [B1 [B2 [B3 [B4 B5]]]].
  set (mid := run between again) in *. clearbody mid.
  assert (Hmid : outputAudioContextRef mid <> None) by congruence.
  rewrite (audioChunk_parks now currentTime audio mid Haudio Hmid).
  match goal with
  | |- context [run meanwhile ?x] =>
      assert (Harrived : audioSourcesRef x = []
                         /\ scheduled x = scheduled s
                         /\ decoding x
                            = [{| audioData := audio; restParts := [];
                                  thenInterrupted := false |}]
                         /\ nextAudioStartTimeRef x
                            = Z.max (nextAudioStartTimeRef s) currentTime);
      [cbn; rewrite B1, B2, B3, B5, Hdec', Hdec, Hnone, Hsched', Hsched, Hcursor', Hcursor;
       repeat split; reflexivity |];
      set (arrived := x) in *; clearbody arrived
  end.
  destruct Harrived as [A1 [A2 [A3 A4]]].
  destruct (uneventful_run meanwhile arrived Hmeanwhile A1) as [Q1 [Q2 [Q3 [_ Q5]]]].
  set (queued := run meanwhile arrived) in *. clearbody queued.
  rewrite (decoded_only_one currentTime' bufferDuration audio queued) by congruence.
  eexists. cbn. rewrite Q2, A2, Q5, A4.
  split; [exact Hstop | split; [exact Hconv | split; [exact Huser | split; [exact Hai |
    split; [exact Hcursor | split; [exact Hstart | split; [reflexivity |
    split; reflexivity]]]]]]].
Qed.

(** Two chunks have advanced the cursor to 500; the session is stopped and
    started again; the child speaks, and the next chunk arrives at audio
    time 0. *)
Lemma X4_witness :
  let s := run [ Server 0 0 (audioChunk "one"); Decoded 0 1 250;
                 Server 2 3 (audioChunk "two"); Decoded 0 4 250 ] listening in
  exists idle again source,
    stopConversation s = Returns idle
    /\ startListeningForUser grantedEnv idle = Returns again
    /\ scheduled (decoded 0 1 100
                    (run [ Rendered ]
                       (onmessage 9 0 (audioChunk "three")
                          (run [ Server 8 0 (userFragment "Hi") ] again))))
       = scheduled s ++ [source]
    /\ startAt source = Z.max (nextAudioStartTimeRef s) 0.
Proof.
  intros s.
  assert (Hstarted : sourcesStarted s) by (vm_compute; repeat constructor).
  assert (Hnone : decoding s = []) by (vm_compute; reflexivity).
  assert (Hbetween : Forall uneventful [ Server 8 0 (userFragment "Hi") ])
    by (repeat constructor).
  assert (Hmeanwhile : Forall uneventful [ Rendered ]) by (repeat constructor).
  destruct (X4_stop_keeps_transcript_and_cursor grantedEnv [0%nat] 9 0 1 100 "three"
              [ Server 8 0 (userFragment "Hi") ] [ Rendered ] s
              Hstarted Hnone eq_refl eq_refl eq_refl Hbetween Hmeanwhile)
    as [idle [again [source [Hstop [_ [_ [_ [_ [Hstart [Hsched [_ Hat]]]]]]]]]]].
  exists idle, again, source.
  split; [exact Hstop | split; [exact Hstart | split; [exact Hsched | exact Hat]]].
Defined.

(** ** The transcript over a session *)

Lemma removelast_lastOf {A : Type} (l : list A) (x : A) :
  lastOf l = Some x -> l = removelast l ++ [x].
Proof.
  destruct l as [|y l'] using rev_ind; [discriminate |].
  rewrite lastOf_snoc. intros [= ->]. now rewrite removelast_last.
Qed.

Lemma keepsMessages_refl (l : list Message) : keepsMessages l l.
Proof. exists []. now rewrite app_nil_r. Qed.

Lemma keepsMessages_trans (a b c : list Message) :
  keepsMessages a b -> keepsMessages b c -> keepsMessages a c.
Proof.
  intros [x Hx] [y Hy]. exists (x ++ y). now rewrite Hy, Hx, app_assoc.
Qed.

Lemma keepsMessages_snoc (l : list Message) (msg : Message) : keepsMessages l (l ++ [msg]).
Proof. exists [idAndSpeaker msg]. now rewrite map_app. Qed.

Lemma keepsMessages_map (f : Message -> Message) (l : list Message) :
  (forall msg, idAndSpeaker (f msg) = idAndSpeaker msg) ->
  keepsMessages l (map f l).
Proof.
  intros Hf. exists []. rewrite app_nil_r, map_map.
  apply map_ext. exact Hf.
Qed.

Lemma transcriptUpdater_keeps (sp : Speaker) (now : Z) (buffered : string)
    (prev : list Message) :
  keepsMessages prev (transcriptUpdater sp now buffered prev).
Proof.
  unfold transcriptUpdater.
  destruct (lastOf prev) as [last|] eqn:Hlast; [| apply keepsMessages_snoc].
  destruct (speaker_eq_dec (speaker last) sp); [| apply keepsMessages_snoc].
  exists []. rewrite app_nil_r.
  rewrite (removelast_lastOf prev last Hlast) at 2.
  rewrite !map_app. reflexivity.
Qed.

Lemma onFunctionCall_keeps (now : Z) (fc : FunctionCall) (s : ChatView) :
  keepsMessages (conversation s) (conversation (onFunctionCall now fc s)).
Proof.
  unfold onFunctionCall.
  destruct ((fc_name fc =? "generateImage")%string && isSome (sessionRef s) && aiRef s);
    [apply keepsMessages_snoc | apply keepsMessages_refl].
Qed.

Lemma functionCalls_keep (now : Z) (functionCalls : list FunctionCall) :
  forall s, keepsMessages (conversation s)
              (conversation (fold_left (fun acc fc => onFunctionCall now fc acc)
                               functionCalls s)).
Proof.
  induction functionCalls as [|fc rest IH]; intros s; cbn [fold_left].
  - apply keepsMessages_refl.
  - eapply keepsMessages_trans; [apply onFunctionCall_keeps | apply IH].
Qed.

Lemma onInterrupted_conversation (s : ChatView) :
  conversation (onInterrupted s) = conversation s.
Proof.
  unfold onInterrupted.
  destruct (stopEach (audioSourcesRef s) (stoppedSources s)) as [log []]; reflexivity.
Qed.

Lemma playParts_conversation (currentTime : Z) (parts : list Part) (flag : bool) :
  forall s, conversation (playParts currentTime parts flag s) = conversation s.
Proof.
  induction parts as [|[audio|] rest IH]; intros s; cbn [playParts].
  - destruct flag; [apply onInterrupted_conversation | reflexivity].
  - destruct (truthy audio && isSome (outputAudioContextRef s)); [reflexivity | apply IH].
  - apply IH.
Qed.

Lemma onmessage_keeps (now currentTime : Z) (message : LiveServerMessage) (s : ChatView) :
  keepsMessages (conversation s) (conversation (onmessage now currentTime message s)).
Proof.
  unfold onmessage. rewrite playParts_conversation.
  eapply keepsMessages_trans;
    [| destruct (turnComplete message); [| apply keepsMessages_refl];
       unfold onTurnComplete; cbn;
       match goal with
       | |- context [status_eq_dec ?a ?b] => destruct (status_eq_dec a b)
       end; apply keepsMessages_refl].
  eapply keepsMessages_trans;
    [| destruct (outputTranscription message); [| apply keepsMessages_refl];
       apply transcriptUpdater_keeps].
  eapply keepsMessages_trans;
    [| destruct (inputTranscription message); [| apply keepsMessages_refl];
       apply transcriptUpdater_keeps].
  destruct (toolCall message); [apply functionCalls_keep | apply keepsMessages_refl].
Qed.

Lemma deliver_keeps (ev : Event) (s : ChatView) :
  keepsMessages (conversation s) (conversation (deliver ev s)).
Proof.
  destruct ev as [now ct message | k ct d | k | k gen | n | t | | mid fb | now file];
    cbn [deliver].
  - apply onmessage_keeps.
  - unfold decoded. destruct (nth_error (decoding s) k); [| apply keepsMessages_refl].
    rewrite playParts_conversation. apply keepsMessages_refl.
  - apply keepsMessages_refl.
  - unfold imageResolved. destruct (nth_error (imageJobs s) k) as [job|];
      [| apply keepsMessages_refl].
    cbn. apply keepsMessages_map.
    intros msg. destruct (id msg =? imageMessageId job); reflexivity.
  - apply keepsMessages_refl.
  - unfold timePasses. destruct (speechEndTimeoutRef s) as [due|];
      [| apply keepsMessages_refl].
    destruct (due <=? t); [| apply keepsMessages_refl].
    unfold speechEndTimeout. cbn.
    destruct (status_eq_dec (statusRef s) LISTENING); apply keepsMessages_refl.
  - apply keepsMessages_refl.
  - unfold handleFeedback. cbn. apply keepsMessages_map.
    intros msg. destruct (id msg =? mid); reflexivity.
  - unfold handleFileChange. destruct file; [| apply keepsMessages_refl].
    destruct (isSome (sessionRef s)); [apply keepsMessages_snoc | apply keepsMessages_refl].
Qed.

Lemma run_keeps (events : list Event) :
  forall s, keepsMessages (conversation s) (conversation (run events s)).
Proof.
  induction events as [|ev rest IH]; intros s.
  - apply keepsMessages_refl.
  - change (run (ev :: rest) s) with (run rest (deliver ev s)).
    exact (keepsMessages_trans _ _ _ (deliver_keeps ev s) (IH (deliver ev s))).
Qed.

(** X5: while a session runs, no Message leaves the transcript, moves, or
    changes its id or its speaker: after any run of events the ids and
    speakers of the transcript are those from before the run, in the same
    places, followed by those of the Messages the run has added. *)
Theorem X5_transcript_keeps_its_messages (events : list Event) (s : ChatView) :
  exists added,
    map idAndSpeaker (conversation (run events s))
    = map idAndSpeaker (conversation s) ++ added.
Proof. exact (run_keeps events s). Qed.

Lemma onmessage_assistantFragment (now currentTime : Z) (fragment : string) (s : ChatView) :
  onmessage now currentTime (assistantFragment fragment) s
  = onOutputTranscription now fragment s.
Proof. reflexivity. Qed.

Lemma onOutputTranscription_fields (now : Z) (fragment : string) (s : ChatView) :
  aiResponseRef (onOutputTranscription now fragment s) = (aiResponseRef s ++ fragment)%string
  /\ conversation (onOutputTranscription now fragment s)
     = transcriptUpdater ai now (aiResponseRef s ++ fragment)%string (conversation s)
  /\ status (onOutputTranscription now fragment s) = SPEAKING
  /\ speechEndTimeoutRef (onOutputTranscription now fragment s) = None.
Proof. repeat split; reflexivity. Qed.

Lemma assistant_fragments_make_one_update (rest : list (Z * Z * string)) :
  forall (now currentTime : Z) (fragment : string) (s : ChatView),
    let s' := run (assistantFragments ((now, currentTime, fragment) :: rest)) s in
    aiResponseRef s' = (aiResponseRef s ++ textOf ((now, currentTime, fragment) :: rest))%string
    /\ conversation s'
       = transcriptUpdater ai now
           (aiResponseRef s ++ textOf ((now, currentTime, fragment) :: rest))%string
           (conversation s)
    /\ status s' = SPEAKING
    /\ speechEndTimeoutRef s' = None.
Proof.
  induction rest as [|[[n c] f] rest IH]; intros now currentTime fragment s.
  - cbn [assistantFragments map run fold_left deliver textOf fold_right].
    rewrite onmessage_assistantFragment, string_app_empty.
    apply onOutputTranscription_fields.
  - specialize (IH n c f (onmessage now currentTime (assistantFragment fragment) s)).
    destruct IH as [Hbuf [Hconv [Hstatus Htimer]]].
    change (run (assistantFragments ((now, currentTime, fragment) :: (n, c, f) :: rest)) s)
      with (run (assistantFragments ((n, c, f) :: rest))
              (onmessage now currentTime (assistantFragment fragment) s)).
    change (textOf ((now, currentTime, fragment) :: (n, c, f) :: rest))
      with (fragment ++ textOf ((n, c, f) :: rest))%string.
    cbv zeta. rewrite Hbuf, Hconv, Hstatus, Htimer, onmessage_assistantFragment.
    destruct (onOutputTranscription_fields now fragment s) as [-> [-> _]].
    rewrite transcriptUpdater_absorbs, string_app_assoc.
    repeat split; reflexivity.
Qed.

(** X6: an assistant turn that starts with an empty buffer, after a
    transcript that does not end with an assistant Message, adds exactly one
    Message, whose text is the concatenation of the fragments in arrival
    order; the status is SPEAKING and no debounce timer is pending. *)
Theorem X6_assistant_turn_is_one_message
    (now currentTime : Z) (fragment : string) (rest : list (Z * Z * string))
    (s : ChatView) :
  aiResponseRef s = EmptyString ->
  (forall last, lastOf (conversation s) = Some last -> speaker last <> ai) ->
  let s' := run (assistantFragments ((now, currentTime, fragment) :: rest)) s in
  conversation s'
  = conversation s
      ++ [{| id := now; speaker := ai;
             text := textOf ((now, currentTime, fragment) :: rest);
             imageUrl := None; isGeneratingImage := None; feedback := fb_undefined |}]
  /\ status s' = SPEAKING
  /\ speechEndTimeoutRef s' = None.
Proof.
  intros Hempty Hlast.
  destruct (assistant_fragments_make_one_update rest now currentTime fragment s)
    as [_ [Hconv [Hstatus Htimer]]].
  cbv zeta. split; [| split; assumption].
  rewrite Hconv, Hempty. unfold transcriptUpdater.
  destruct (lastOf (conversation s)) as [last|] eqn:Hl; [| reflexivity].
  destruct (speaker_eq_dec (speaker last) ai) as [Hai | _]; [| reflexivity].
  now destruct (Hlast last eq_refl).
Qed.

(** The assistant answers a question in two fragments. *)
Lemma X6_witness :
  let s := run [ Server 1 0 (userFragment "Why is the sky blue?");
                 Server 2 0 turnCompleteSignal ] listening in
  let s' := run (assistantFragments [(3, 0, "Because "%string); (4, 0, "of the air."%string)]) s in
  conversation s'
  = conversation s
      ++ [{| id := 3; speaker := ai;
             text := textOf [(3, 0, "Because "%string); (4, 0, "of the air."%string)];
             imageUrl := None; isGeneratingImage := None; feedback := fb_undefined |}]
  /\ status s' = SPEAKING.
Proof.
  intros s.
  assert (Hbuf : aiResponseRef s = EmptyString) by (vm_compute; reflexivity).
  assert (Hlast : forall last, lastOf (conversation s) = Some last -> speaker last <> ai).
  { intros last H. vm_compute in H. injection H as <-. discriminate. }
  destruct (X6_assistant_turn_is_one_message 3 0 "Because " [(4, 0, "of the air."%string)]
              s Hbuf Hlast) as [Hconv [Hstatus _]].
  split; [exact Hconv | exact Hstatus].
Defined.

(** ** The debounce timer once cancelled *)

Lemma onInterrupted_timer (s : ChatView) :
  speechEndTimeoutRef (onInterrupted s) = speechEndTimeoutRef s.
Proof.
  unfold onInterrupted.
  destruct (stopEach (audioSourcesRef s) (stoppedSources s)) as [log []]; reflexivity.
Qed.

Lemma playParts_timer (currentTime : Z) (parts : list Part) (flag : bool) :
  forall s, speechEndTimeoutRef (playParts currentTime parts flag s) = speechEndTimeoutRef s.
Proof.
  induction parts as [|[audio|] rest IH]; intros s; cbn [playParts].
  - destruct flag; [apply onInterrupted_timer | reflexivity].
  - destruct (truthy audio && isSome (outputAudioContextRef s)); [reflexivity | apply IH].
  - apply IH.
Qed.

Lemma cleanup_timer (s : ChatView) : speechEndTimeoutRef (stateOf (cleanup s)) = None.
Proof.
  destruct s as [st conv err denied client session inCtx outCtx stream processor
                 userBuf aiBuf cursor sources timer stRef closedS stoppedT
                 disconnected sched stoppedS parked jobs sent mic].
  unfold cleanup. cbn.
  destruct session, stream, processor; cbn;
    destruct (stopEach sources stoppedS) as [log []]; reflexivity.
Qed.

Lemma timePasses_idle (t : Z) (s : ChatView) :
  speechEndTimeoutRef s = None -> timePasses t s = s.
Proof. intros H. unfold timePasses. now rewrite H. Qed.

(** X7: a server message that carries an assistant fragment or the
    turnComplete signal leaves no debounce timer pending, even when the same
    message carries a user fragment that has just armed one; nor does a stop
    or the error callback.  From such a state the passing of time changes
    nothing: the status does not become THINKING. *)
Theorem X7_cancelled_debounce_never_fires
    (now currentTime t : Z) (message : LiveServerMessage) (text : string) (s : ChatView) :
  (outputTranscription message <> None \/ turnComplete message = true ->
   timePasses t (onmessage now currentTime message s) = onmessage now currentTime message s)
  /\ timePasses t (stateOf (stopConversation s)) = stateOf (stopConversation s)
  /\ timePasses t (stateOf (onerror text s)) = stateOf (onerror text s).
Proof.
  split; [| split].
  - intros Hcancels. apply timePasses_idle.
    unfold onmessage. rewrite playParts_timer.
    destruct (turnComplete message) eqn:Hturn.
    + unfold onTurnComplete. cbn.
      match goal with
      | |- context [status_eq_dec ?a ?b] => destruct (status_eq_dec a b)
      end; reflexivity.
    + destruct (outputTranscription message) as [fragment|]; [reflexivity |].
      destruct Hcancels as [Hout | Hturn']; [contradiction | discriminate].
  - apply timePasses_idle. unfold stopConversation.
    pose proof (cleanup_timer s) as Htimer.
    destruct (cleanup s); exact Htimer.
  - apply timePasses_idle. unfold onerror. apply cleanup_timer.
Qed.

(** One message carries the end of the user's sentence and the turnComplete
    signal; 1200 ms later the status is still LISTENING. *)
Lemma X7_witness :
  let message := turnCompleteSignal <| inputTranscription := Some "bye"%string |> in
  timePasses 1300 (onmessage 100 0 message listening) = onmessage 100 0 message listening.
Proof.
  intros message.
  destruct (X7_cancelled_debounce_never_fires 100 0 1300 message "" listening)
    as [Hmessage _].
  apply Hmessage. right. reflexivity.
Defined.

(** ** A chunk in flight when the interruption comes *)

(** X8: a chunk that has arrived and is still being decoded when the
    interruption signal is handled is not cancelled by it: when its decode
    completes the chunk is started at time 0, it is the one source of the
    active set, and the cursor is its duration. *)
Theorem X8_chunk_in_flight_survives_interruption
    (now currentTime now' currentTime' currentTime'' bufferDuration : Z)
    (audio : string) (s : ChatView) :
  sourcesStarted s ->
  truthy audio = true ->
  outputAudioContextRef s <> None ->
  let parked := onmessage now currentTime (audioChunk audio) s in
  let cut := onmessage now' currentTime' interruptionSignal parked in
  let late := decoded (List.length (decoding s)) currentTime'' bufferDuration cut in
  audioSourcesRef cut = []
  /\ nextAudioStartTimeRef cut = 0
  /\ exists source,
       audioSourcesRef late = [source]
       /\ scheduled late = scheduled s ++ [source]
       /\ buffer source = audio
       /\ startAt source = 0
       /\ nextAudioStartTimeRef late = bufferDuration.
Proof.
  intros Hstarted Haudio Hctx parked cut late.
  assert (Hparked : parked
                    = s <| nextAudioStartTimeRef
                             := Z.max (nextAudioStartTimeRef s) currentTime |>
                        <| decoding ::= fun waiting =>
                             waiting ++ [{| audioData := audio; restParts := [];
                                            thenInterrupted := false |}] |>)
    by exact (audioChunk_parks now currentTime audio s Haudio Hctx).
  clearbody parked. subst parked.
  assert (Hcut : cut
                 = s <| nextAudioStartTimeRef := 0 |>
                     <| decoding ::= fun waiting =>
                          waiting ++ [{| audioData := audio; restParts := [];
                                         thenInterrupted := false |}] |>
                     <| stoppedSources := stoppedSources s ++ map node (audioSourcesRef s) |>
                     <| audioSourcesRef := [] |>).
  { unfold cut, onmessage, interruptionSignal, silent. cbn.
    rewrite onInterrupted_started by exact Hstarted.
    destruct s; reflexivity. }
  clearbody cut. subst cut.
  split; [reflexivity | split; [reflexivity |]].
  exists {| node := List.length (scheduled s); buffer := audio; startAt := 0;
            duration := bufferDuration; started := true; greeting := false |}.
  unfold late, decoded. cbn.
  rewrite nth_error_app2, Nat.sub_diag by lia. cbn.
  repeat split; reflexivity.
Qed.

(** A chunk arrives, the user barges in, the decode completes. *)
Lemma X8_witness :
  let parked := onmessage 0 5 (audioChunk "one") listening in
  let cut := onmessage 1 6 interruptionSignal parked in
  let late := decoded (List.length (decoding listening)) 7 250 cut in
  exists source,
    audioSourcesRef late = [source] /\ startAt source = 0.
Proof.
  intros parked cut late.
  assert (Hstarted : sourcesStarted listening) by constructor.
  assert (Hctx : outputAudioContextRef listening <> None) by (vm_compute; discriminate).
  destruct (X8_chunk_in_flight_survives_interruption 0 5 1 6 7 250 "one" listening
              Hstarted eq_refl Hctx)
    as [_ [_ [source [Hset [_ [_ [Hat _]]]]]]].
  exists source. split; [exact Hset | exact Hat].
Defined.

(** ** Every state the component reaches *)

Lemma stopConversation_sourcesStarted (s : ChatView) :
  sourcesStarted s -> sourcesStarted (stateOf (stopConversation s)).
Proof.
  intros H. destruct (stopConversation_returns s H) as [idle [-> [Hrel _]]].
  destruct Hrel as [_ [_ [_ [_ [_ [_ [_ [_ [_ [Hempty _]]]]]]]]]].
  unfold sourcesStarted. cbn. rewrite Hempty. constructor.
Qed.

Lemma reachable_sourcesStarted (s : ChatView) : reachable s -> sourcesStarted s.
Proof.
  induction 1 as [| ev s _ IH | env s _ IH | processor s _ IH | message s _ IH
                  | s _ IH | env s _ IH | now mode buddyName env s _ IH | env n s _ IH].
  - apply sourcesStarted_mounted.
  - now apply deliver_sourcesStarted.
  - now apply startListeningForUser_sourcesStarted.
  - exact IH.
  - unfold onerror. apply cleanup_sourcesStarted. exact IH.
  - now apply stopConversation_sourcesStarted.
  - unfold handleToggleConversation.
    destruct (status_eq_dec (status s) IDLE);
      [now apply startListeningForUser_sourcesStarted |].
    destruct (status_eq_dec (status s) ERROR);
      [now apply startListeningForUser_sourcesStarted
      | now apply stopConversation_sourcesStarted].
  - unfold mountEffect. destruct (getInitialAiPrompt mode buddyName);
      [now apply initiate_sourcesStarted | exact IH].
  - unfold greetingEnded. apply startListeningForUser_sourcesStarted.
    exact (deliver_sourcesStarted (Ended n) s IH).
Qed.

(** X9: in every state the component can reach from its mount, by server
    messages, decode and image completions, timers, renders, feedback,
    uploads, starts, stops, toggles, errors and greetings in any order, a
    stop returns without throwing, leaves the status IDLE and everything
    released, and the error callback returns as well. *)
Theorem X9_stop_never_throws_in_a_reachable_state (text : string) (s : ChatView) :
  reachable s ->
  (exists idle,
     stopConversation s = Returns idle /\ status idle = IDLE /\ released s idle)
  /\ returned (onerror text s) = true.
Proof.
  intros Hreach. pose proof (reachable_sourcesStarted s Hreach) as Hstarted.
  split.
  - destruct (stopConversation_returns s Hstarted) as [idle [Hret [Hrel [Hidle _]]]].
    exists idle. auto.
  - unfold onerror.
    match goal with
    | |- returned (cleanup ?x) = true =>
        destruct (cleanup_returns x Hstarted) as [s' [-> _]]
    end.
    reflexivity.
Qed.

(** The greeting is playing when the user presses stop. *)
Lemma X9_witness :
  let s := mountEffect 0 homework "Navi"
             {| synthesize := SynthResponse (Some "UklGRg"%string);
                decodeGreeting := DecodeOk 3000; startEnv := grantedEnv |} mounted in
  exists idle, stopConversation s = Returns idle /\ status idle = IDLE.
Proof.
  intros s.
  assert (Hreach : reachable s) by (apply reach_initiate; apply reach_mounted).
  destruct (X9_stop_never_throws_in_a_reachable_state "" s Hreach)
    as [[idle [Hret [Hidle _]]] _].
  exists idle. split; [exact Hret | exact Hidle].
Defined.

(** ** The button *)

(** X12: the button and the toggle agree.  Where the button shows
    "Start Talking" (IDLE, ERROR) a press runs [startListeningForUser]; where
    it shows "Stop" (LISTENING, SPEAKING, THINKING) a press stops the
    conversation: it returns, the status is IDLE and everything is released;
    and the button is disabled exactly where it shows "Starting...". *)
Theorem X12_button_agrees_with_toggle (env : StartEnv) (s : ChatView) :
  sourcesStarted s ->
  (getButtonContent (status s) = StartTalking ->
   handleToggleConversation env s = startListeningForUser env s)
  /\ (getButtonContent (status s) = Stop ->
      exists idle,
        handleToggleConversation env s = Returns idle
        /\ status idle = IDLE
        /\ released s idle)
  /\ (getButtonContent (status s) = Starting <-> buttonDisabled (status s) = true).
Proof.
  intros Hstarted. split; [| split].
  - unfold handleToggleConversation.
    destruct (status s); cbn; intros H; try discriminate H; reflexivity.
  - intros Hstop.
    destruct (stopConversation_returns s Hstarted) as [idle [Hret [Hrel [Hidle _]]]].
    exists idle. split; [| split; assumption].
    rewrite <- Hret. unfold handleToggleConversation.
    destruct (status s); cbn in *; try discriminate Hstop; reflexivity.
  - unfold buttonDisabled. destruct (status s); cbn; split; intros H;
      try discriminate H; reflexivity.
Qed.

(** The button shows "Stop" while the assistant listens. *)
Lemma X12_witness :
  exists idle,
    handleToggleConversation grantedEnv listening = Returns idle /\ status idle = IDLE.
Proof.
  assert (Hstarted : sourcesStarted listening) by constructor.
  destruct (X12_button_agrees_with_toggle grantedEnv listening Hstarted)
    as [_ [Hstop _]].
  destruct (Hstop eq_refl) as [idle [Hret [Hidle _]]].
  exists idle. split; [exact Hret | exact Hidle].
Defined.

(** ** Uploads and fragments *)

(** X10: an upload made while no session is held adds nothing to the
    transcript and shows "Please start the conversation before sending an
    image."; while a session is held it appends one user Message that
    carries the picture and changes neither status nor error text.  The
    user fragment that follows replaces the text of that Message by the
    transcript so far and keeps the picture on it. *)
Theorem X10_upload_needs_a_session (now now' currentTime : Z) (dataUrl fragment : string)
    (s : ChatView) :
  let s' := handleFileChange now (Some dataUrl) s in
  (sessionRef s = None ->
   conversation s' = conversation s
   /\ error s' = Some "Please start the conversation before sending an image."%string)
  /\ (sessionRef s <> None ->
      conversation s' = conversation s ++ [pictureMessage now dataUrl]
      /\ error s' = error s
      /\ status s' = status s
      /\ conversation (onmessage now' currentTime (userFragment fragment) s')
         = conversation s
             ++ [(pictureMessage now dataUrl)
                   <| text := (userInputRef s ++ fragment)%string |>]).
Proof.
  cbv zeta. unfold handleFileChange. split.
  - intros ->. cbn. split; reflexivity.
  - intros Hsession. destruct (sessionRef s) as [session|]; [| contradiction].
    cbn [isSome].
    split; [reflexivity | split; [reflexivity | split; [reflexivity |]]].
    rewrite onmessage_userFragment, onInputTranscription_conversation. cbn.
    unfold transcriptUpdater. rewrite lastOf_snoc. cbn.
    now rewrite removelast_last.
Qed.

(** A picture is sent to an open session and the user says what it shows. *)
Lemma X10_witness :
  conversation (onmessage 8 0 (userFragment "my homework")
                  (handleFileChange 7 (Some "data:image/png;base64,AAAA"%string) listening))
  = conversation listening
      ++ [(pictureMessage 7 "data:image/png;base64,AAAA")
            <| text := (userInputRef listening ++ "my homework")%string |>].
Proof.
  destruct (X10_upload_needs_a_session 7 8 0 "data:image/png;base64,AAAA" "my homework"
              listening) as [_ Hheld].
  destruct (Hheld ltac:(vm_compute; discriminate)) as [_ [_ [_ Hnext]]].
  exact Hnext.
Defined.

Lemma sameButText_refl (msg : Message) : sameButText msg msg.
Proof. unfold sameButText. destruct msg; reflexivity. Qed.

Lemma transcriptUpdater_frame (sp : Speaker) (now : Z) (buffered : string)
    (prev : list Message) (i : nat) (msg : Message) :
  nth_error prev i = Some msg ->
  ((S i < List.length prev)%nat ->
   nth_error (transcriptUpdater sp now buffered prev) i = Some msg)
  /\ exists msg',
       nth_error (transcriptUpdater sp now buffered prev) i = Some msg'
       /\ sameButText msg msg'.
Proof.
  intros Hmsg.
  assert (Hi : (i < List.length prev)%nat) by (apply nth_error_Some; congruence).
  unfold transcriptUpdater.
  destruct (lastOf prev) as [last|] eqn:Hlast.
  - destruct (speaker_eq_dec (speaker last) sp).
    + pose proof (removelast_lastOf prev last Hlast) as Hsplit.
      assert (Hlen : List.length prev = S (List.length (removelast prev))).
      { rewrite Hsplit at 1. rewrite length_app. cbn. lia. }
      rewrite Hsplit in Hmsg.
      destruct (Nat.lt_ge_cases i (List.length (removelast prev))) as [Hin | Hout].
      * rewrite nth_error_app1 in Hmsg by exact Hin.
        rewrite nth_error_app1 by exact Hin.
        split; [intros _; exact Hmsg |].
        exists msg. split; [exact Hmsg | apply sameButText_refl].
      * assert (Heq : i = List.length (removelast prev)) by lia.
        rewrite Heq, nth_error_app2, Nat.sub_diag in Hmsg by lia.
        injection Hmsg as <-.
        rewrite Heq, nth_error_app2, Nat.sub_diag by lia. cbn.
        split; [intros Hlt; lia |].
        eexists. split; [reflexivity |]. unfold sameButText. cbn.
        destruct last; reflexivity.
    + rewrite nth_error_app1 by exact Hi.
      split; [intros _; exact Hmsg |].
      exists msg. split; [exact Hmsg | apply sameButText_refl].
  - rewrite nth_error_app1 by exact Hi.
    split; [intros _; exact Hmsg |].
    exists msg. split; [exact Hmsg | apply sameButText_refl].
Qed.

(** X11: a transcript fragment, from the user or from the assistant, changes
    nothing of the transcript but, at most, the text of its last Message:
    every Message stays at its place with its id, speaker, picture,
    generating flag and feedback, and every Message before the last keeps
    its text too. *)
Theorem X11_fragment_rewrites_at_most_the_last_text
    (now currentTime : Z) (fragment : string) (sp : Speaker) (s : ChatView)
    (i : nat) (msg : Message) :
  nth_error (conversation s) i = Some msg ->
  let s' := onmessage now currentTime
              (match sp with
               | user => userFragment fragment
               | ai => assistantFragment fragment
               end) s in
  ((S i < List.length (conversation s))%nat -> nth_error (conversation s') i = Some msg)
  /\ exists msg', nth_error (conversation s') i = Some msg' /\ sameButText msg msg'.
Proof.
  intros Hmsg. cbv zeta. destruct sp.
  - rewrite onmessage_userFragment, onInputTranscription_conversation.
    now apply transcriptUpdater_frame.
  - rewrite onmessage_assistantFragment.
    destruct (onOutputTranscription_fields now fragment s) as [_ [-> _]].
    now apply transcriptUpdater_frame.
Qed.

(** The assistant speaks while the placeholder of a picture is the last
    Message: the placeholder keeps its id and its generating flag. *)
Lemma X11_witness :
  let s := onmessage 5 0 (toolCallRequest [drawCat]) listening in
  exists msg',
    nth_error (conversation (onmessage 6 0 (assistantFragment "Here it comes!") s)) 0
    = Some msg'
    /\ sameButText (placeholderFor 5 drawCat) msg'.
Proof.
  intros s.
  destruct (X11_fragment_rewrites_at_most_the_last_text 6 0 "Here it comes!" ai s 0
              (placeholderFor 5 drawCat) eq_refl) as [_ Hlast].
  exact Hlast.
Defined.

(** ** The opening line *)

Lemma startListeningForUser_conversation (env : StartEnv) (s : ChatView) :
  conversation (stateOf (startListeningForUser env s)) = conversation s.
Proof.
  unfold startListeningForUser.
  destruct (negb (API_KEY env)); [reflexivity |].
  destruct (getUserMedia env) as [tracks | [name message|]]; [reflexivity | |];
    match goal with
    | |- conversation (stateOf (cleanup ?x)) = _ =>
        destruct (cleanup_keeps x) as [_ [-> _]]
    end;
    [destruct ((name =? "NotAllowedError")%string
               || includes message "Permission denied") |];
    reflexivity.
Qed.

Lemma initiate_conversation (now : Z) (initialPrompt : string) (env : InitEnv)
    (s : ChatView) :
  conversation (initiate now initialPrompt env s)
  = [{| id := now; speaker := ai; text := initialPrompt; imageUrl := None;
        isGeneratingImage := None; feedback := fb_undefined |}].
Proof.
  unfold initiate.
  destruct (negb (API_KEY (startEnv env))); [reflexivity |].
  destruct (synthesize env) as [err | [[|c rest]|]]; [reflexivity | | |].
  - match goal with
    | |- context [startListeningForUser ?e ?x] =>
        pose proof (startListeningForUser_conversation e x) as Hconv;
        destruct (startListeningForUser e x)
    end; exact Hconv.
  - destruct (decodeGreeting env); reflexivity.
  - match goal with
    | |- context [startListeningForUser ?e ?x] =>
        pose proof (startListeningForUser_conversation e x) as Hconv;
        destruct (startListeningForUser e x)
    end; exact Hconv.
Qed.

(** X13: the free-chat and voice-to-story modes have no opening line and
    their mount effect changes nothing; in every other mode the mount effect
    makes the opening line the one Message of the transcript, spoken by the
    assistant, whatever becomes of the key check, the synthesis, the decoding
    and the start that may follow. *)
Theorem X13_opening_line_is_the_transcript
    (now : Z) (mode : AppMode) (buddyName : string) (env : InitEnv) (s : ChatView) :
  match getInitialAiPrompt mode buddyName with
  | None =>
      (mode = free_chat \/ mode = voice_to_story)
      /\ mountEffect now mode buddyName env s = s
  | Some initialPrompt =>
      conversation (mountEffect now mode buddyName env s)
      = [{| id := now; speaker := ai; text := initialPrompt; imageUrl := None;
            isGeneratingImage := None; feedback := fb_undefined |}]
  end.
Proof.
  unfold mountEffect.
  destruct (getInitialAiPrompt mode buddyName) as [initialPrompt|] eqn:Hprompt.
  - apply initiate_conversation.
  - split; [| reflexivity].
    destruct mode; cbn in Hprompt; try discriminate Hprompt; auto.
Qed.

(** X14: the ended handler of the greeting runs the capture-start sequence
    whatever the status.  When the user has stopped the conversation while
    the greeting was playing and the ended event of the stopped source then
    arrives, the controller leaves IDLE: it asks for the microphone and, if
    it is granted, holds a new session with the status PROCESSING. *)
Theorem X14_greeting_end_after_stop_starts_capture
    (env : StartEnv) (tracks : list nat) (n : nat) (s : ChatView) :
  sourcesStarted s ->
  API_KEY env = true ->
  getUserMedia env = MicGranted tracks ->
  exists idle again,
    stopConversation s = Returns idle
    /\ status idle = IDLE
    /\ greetingEnded env n idle = Returns again
    /\ captureStarted idle again
    /\ status again = PROCESSING
    /\ sessionRef again = Some (connect env)
    /\ mediaStreamRef again = Some tracks.
Proof.
  intros Hstarted Hkey Hmic.
  destruct (stopConversation_returns s Hstarted) as [idle [Hstop [_ [Hidle _]]]].
  exists idle.
  unfold greetingEnded, startListeningForUser. rewrite Hkey, Hmic.
  eexists. split; [exact Hstop | split; [exact Hidle | split; [reflexivity |]]].
  repeat split; reflexivity.
Qed.

(** The greeting plays; the user presses stop; the source reports its end. *)
Lemma X14_witness :
  let s := mountEffect 0 homework "Navi"
             {| synthesize := SynthResponse (Some "UklGRg"%string);
                decodeGreeting := DecodeOk 3000; startEnv := grantedEnv |} mounted in
  exists idle again,
    stopConversation s = Returns idle
    /\ greetingEnded grantedEnv 0 idle = Returns again
    /\ status again = PROCESSING.
Proof.
  intros s.
  assert (Hstarted : sourcesStarted s) by (vm_compute; repeat constructor).
  destruct (X14_greeting_end_after_stop_starts_capture grantedEnv [0%nat] 0 s
              Hstarted eq_refl eq_refl)
    as [idle [again [Hstop [_ [Hended [_ [Hstatus _]]]]]]].
  exists idle, again. split; [exact Hstop | split; [exact Hended | exact Hstatus]].
Defined.

(** ** The parts of one message *)

Lemma onmessage_audioParts (now currentTime : Z) (parts : list Part) (s : ChatView) :
  onmessage now currentTime (audioParts parts) s = playParts currentTime parts false s.
Proof. reflexivity. Qed.

(** The loop over the parts of one message, with nothing else in flight and
    the decodes completing as they are awaited. *)
Lemma playParts_in_turn (parts : list Part) :
  forall (completions : list (Z * Z)) (currentTime : Z) (s : ChatView),
    decoding s = [] ->
    outputAudioContextRef s <> None ->
    List.length completions = List.length (chunksAmong parts) ->
    let s' := run (decodesInTurn completions) (playParts currentTime parts false s) in
    map buffer (scheduled s') = map buffer (scheduled s) ++ chunksAmong parts
    /\ decoding s' = [].
Proof.
  induction parts as [|part rest IH]; intros completions currentTime s Hnone Hctx Hlen.
  - destruct completions; [| discriminate Hlen]. cbn.
    rewrite app_nil_r. split; [reflexivity | exact Hnone].
  - rewrite chunksAmong_cons in *. cbn [playParts].
    destruct part as [audio|]; [| now apply IH].
    destruct (truthy audio) eqn:Haudio; cbn [andb]; [| now apply IH].
    destruct (outputAudioContextRef s) as [ctx|] eqn:Hout; [| contradiction].
    cbn [isSome].
    destruct completions as [|[currentTime' bufferDuration] completions];
      [discriminate Hlen |].
    injection Hlen as Hlen.
    change (run (decodesInTurn ((currentTime', bufferDuration) :: completions)) ?x)
      with (run (decodesInTurn completions) (decoded 0 currentTime' bufferDuration x)).
    assert (Hstep :
              decoded 0 currentTime' bufferDuration
                (s <| nextAudioStartTimeRef
                        := Z.max (nextAudioStartTimeRef s) currentTime |>
                   <| decoding ::= fun waiting =>
                        waiting ++ [{| audioData := audio; restParts := rest;
                                       thenInterrupted := false |}] |>)
              = playParts currentTime' rest false
                  (s <| nextAudioStartTimeRef
                          := Z.max (nextAudioStartTimeRef s) currentTime
                             + bufferDuration |>
                     <| scheduled ::= fun l =>
                          l ++ [{| node := List.length (scheduled s); buffer := audio;
                                   startAt := Z.max (nextAudioStartTimeRef s) currentTime;
                                   duration := bufferDuration; started := true;
                                   greeting := false |}] |>
                     <| audioSourcesRef ::= fun set =>
                          set ++ [{| node := List.length (scheduled s); buffer := audio;
                                     startAt := Z.max (nextAudioStartTimeRef s) currentTime;
                                     duration := bufferDuration; started := true;
                                     greeting := false |}] |>)).
    { unfold decoded. cbn. rewrite Hnone. cbn.
      f_equal. destruct s; cbn in *; subst; reflexivity. }
    rewrite Hstep.
    match goal with
    | |- context [playParts currentTime' rest false ?x] =>
        destruct (IH completions currentTime' x) as [Hsched Hdone];
        [ exact Hnone | cbn; rewrite Hout; discriminate | exact Hlen | ]
    end.
    cbv zeta in Hsched, Hdone. cbv zeta.
    split; [| exact Hdone].
    rewrite Hsched. cbn. rewrite map_app, <- app_assoc. reflexivity.
Qed.

(** X15: the chunks one server message carries in its parts are played in
    the order of the parts.  With nothing else in flight, and each decode
    completing before the loop goes on, the schedule grows by exactly the
    chunks of the message, in their order; parts without audio data are
    skipped; nothing is left parked. *)
Theorem X15_parts_of_a_message_play_in_order
    (now currentTime : Z) (parts : list Part) (completions : list (Z * Z))
    (s : ChatView) :
  decoding s = [] ->
  outputAudioContextRef s <> None ->
  List.length completions = List.length (chunksAmong parts) ->
  let s' := run (Server now currentTime (audioParts parts) :: decodesInTurn completions) s in
  map buffer (scheduled s') = map buffer (scheduled s) ++ chunksAmong parts
  /\ decoding s' = [].
Proof.
  intros Hnone Hctx Hlen.
  change (run (Server now currentTime (audioParts parts) :: decodesInTurn completions) s)
    with (run (decodesInTurn completions)
            (onmessage now currentTime (audioParts parts) s)).
  rewrite onmessage_audioParts.
  now apply playParts_in_turn.
Qed.

(** A message with two chunks around a part without audio data. *)
Lemma X15_witness :
  let parts := [Some "one"%string; None; Some ""%string; Some "two"%string] in
  let s' := run (Server 0 0 (audioParts parts) :: decodesInTurn [(1, 250); (2, 300)])
              listening in
  map buffer (scheduled s') = map buffer (scheduled listening) ++ ["one"%string; "two"%string].
Proof.
  intros parts.
  assert (Hctx : outputAudioContextRef listening <> None) by (vm_compute; discriminate).
  destruct (X15_parts_of_a_message_play_in_order 0 0 parts [(1, 250); (2, 300)] listening
              eq_refl Hctx eq_refl) as [Hsched _].
  exact Hsched.
Defined.

(* ================================================================= *)
(** * The session history *)

Lemma saveSessionToHistory_spreadable (now : Z) (setItemWorks : bool)
    (transcript : list Message) (mode : AppMode) (stored : StoredHistory) :
  stored <> NotIterable ->
  saveSessionToHistory now setItemWorks transcript mode stored <> NotIterable.
Proof.
  intros Hspread. unfold saveSessionToHistory.
  destruct transcript; [exact Hspread |].
  destruct (spread stored); [| exact Hspread].
  destruct setItemWorks; [discriminate | exact Hspread].
Qed.

Lemma saveSessionToHistory_effective (now : Z) (first : Message) (rest : list Message)
    (mode : AppMode) (stored : StoredHistory) :
  stored <> NotIterable ->
  saveSessionToHistory now true (first :: rest) mode stored
  = History (Session {| session_id := now; session_mode := mode; timestamp := now;
                        messages := first :: rest |}
             :: firstn 19 (entriesOf stored)).
Proof.
  intros Hspread. unfold saveSessionToHistory, entriesOf.
  destruct stored; try reflexivity. contradiction.
Qed.

Lemma saveSessionToHistory_bounded (now : Z) (setItemWorks : bool)
    (transcript : list Message) (mode : AppMode) (stored : StoredHistory) :
  (List.length (entriesOf stored) <= 20)%nat ->
  (List.length (entriesOf (saveSessionToHistory now setItemWorks transcript mode stored))
   <= 20)%nat.
Proof.
  intros Hbound. unfold saveSessionToHistory.
  destruct transcript as [|first rest]; [exact Hbound |].
  destruct (spread stored) as [existing|]; [| exact Hbound].
  destruct setItemWorks; [| exact Hbound].
  unfold entriesOf. cbn [spread]. rewrite length_firstn. lia.
Qed.

(** On an array of session records, the session records are the entries. *)
Lemma sessionsOnly_entries (stored : StoredHistory) :
  sessionsOnly stored = true ->
  entriesOf stored = map Session (sessionsOf stored).
Proof.
  destruct stored as [| | value | entries]; cbn; try discriminate; [reflexivity |].
  unfold entriesOf. cbn.
  induction entries as [|[record | value | json] more IH]; cbn; try discriminate.
  - reflexivity.
  - intros Hall. now rewrite <- IH.
Qed.

Lemma sessionsOf_sessions (sessions : list SessionRecord) :
  sessionsOf (History (map Session sessions)) = sessions
  /\ sessionsOnly (History (map Session sessions)) = true.
Proof.
  cbn. induction sessions as [|record more [IH1 IH2]]; [split; reflexivity |].
  cbn. rewrite IH1, IH2. split; reflexivity.
Qed.

Lemma sessionsOf_length (stored : StoredHistory) :
  (List.length (sessionsOf stored) <= List.length (entriesOf stored))%nat.
Proof.
  destruct stored as [| | value | entries]; cbn; try lia.
  unfold entriesOf. cbn.
  induction entries as [|[record | value | json] more IH]; cbn; lia.
Qed.

(** X16: a save of a non-empty transcript onto storage that can be spread,
    when the write is accepted, stores the new session first, with the
    transcript, the mode and the clock reading as id and timestamp, followed
    by the 19 first entries that were stored, in their order; later ones are
    dropped.  On storage that is missing or an array of session records the
    result is again an array of session records: the new session followed by
    the 19 most recent previous sessions.  Over any sequence of saves,
    accepted or not, storage that holds at most 20 entries never holds
    more. *)
Theorem X16_history_is_newest_first_and_capped
    (now : Z) (first : Message) (rest : list Message) (mode : AppMode)
    (stored : StoredHistory) (saves : list Save) :
  stored <> NotIterable ->
  let newSession := {| session_id := now; session_mode := mode; timestamp := now;
                       messages := first :: rest |} in
  let saved := saveSessionToHistory now true (first :: rest) mode stored in
  saved = History (Session newSession :: firstn 19 (entriesOf stored))
  /\ (sessionsOnly stored = true ->
      sessionsOnly saved = true
      /\ sessionsOf saved = newSession :: firstn 19 (sessionsOf stored))
  /\ ((List.length (entriesOf stored) <= 20)%nat ->
      (List.length (entriesOf (saveAll saves stored)) <= 20)%nat
      /\ (List.length (sessionsOf (saveAll saves stored)) <= 20)%nat).
Proof.
  intros Hspread newSession saved.
  assert (Hsaved : saved = History (Session newSession :: firstn 19 (entriesOf stored)))
    by (apply saveSessionToHistory_effective; exact Hspread).
  split; [exact Hsaved | split].
  - intros Honly. rewrite Hsaved, (sessionsOnly_entries stored Honly), firstn_map.
    change (Session newSession :: map Session (firstn 19 (sessionsOf stored)))
      with (map Session (newSession :: firstn 19 (sessionsOf stored))).
    destruct (sessionsOf_sessions (newSession :: firstn 19 (sessionsOf stored))) as [H1 H2].
    split; [exact H2 | exact H1].
  - clear. intros Hbound.
    assert (Hentries : (List.length (entriesOf (saveAll saves stored)) <= 20)%nat).
    { revert stored Hbound.
      induction saves as [|[[[n w] t] m] more IH]; intros stored Hbound; [exact Hbound |].
      apply IH. now apply saveSessionToHistory_bounded. }
    split; [exact Hentries |].
    pose proof (sessionsOf_length (saveAll saves stored)). lia.
Qed.

(** Twenty sessions are stored when one more is saved. *)
Lemma X16_witness :
  let old := {| session_id := 1; session_mode := free_chat; timestamp := 1;
                messages := [pictureMessage 1 "data:,"] |} in
  let stored := History (map Session (repeat old 20)) in
  List.length (sessionsOf (saveSessionToHistory 9 true [pictureMessage 9 "data:,"]
                             learning stored)) = 20%nat
  /\ (List.length (sessionsOf (saveAll [(9%Z, true, [pictureMessage 9%Z "data:,"], learning)]
                                 stored)) <= 20)%nat.
Proof.
  intros old stored.
  destruct (X16_history_is_newest_first_and_capped 9 (pictureMessage 9 "data:,") []
              learning stored [(9, true, [pictureMessage 9 "data:,"], learning)]
              ltac:(discriminate)) as [_ [Hsessions Hcap]].
  split.
  - destruct (Hsessions eq_refl) as [_ Hsaved]. rewrite Hsaved. reflexivity.
  - apply Hcap. vm_compute. lia.
Defined.

(** X17: what cannot be spread is never repaired, what can be is rewritten.
    An item whose parse throws, or gives null, a number, a boolean or an
    object, is left as it is by every save.  A stored string is no array,
    yet an accepted save of a non-empty transcript rewrites it as one: the
    new session followed by the first 19 characters.  On any item that can
    be spread, after any sequence of saves the item is as it was when no
    save took effect (empty transcript, or write refused), and otherwise an
    array of at most 20 entries whose first entry is the session of the last
    save that took effect. *)
Theorem X17_saves_rewrite_what_can_be_spread
    (saves : list Save) (stored : StoredHistory) :
  saveAll saves NotIterable = NotIterable
  /\ (forall now first rest mode value,
        saveSessionToHistory now true (first :: rest) mode (StoredString value)
        = History (Session {| session_id := now; session_mode := mode; timestamp := now;
                              messages := first :: rest |}
                   :: firstn 19 (map (fun c => Text (String c EmptyString))
                                     (list_ascii_of_string value))))
  /\ (stored <> NotIterable ->
      match lastEffective saves with
      | Some record =>
          exists older,
            saveAll saves stored = History (Session record :: older)
            /\ (List.length older <= 19)%nat
      | None => saveAll saves stored = stored
      end).
Proof.
  split; [| split].
  - induction saves as [|[[[n w] t] m] more IH]; [reflexivity |].
    unfold saveAll in *. cbn [fold_left].
    replace (saveSessionToHistory n w t m NotIterable) with NotIterable
      by (destruct t; reflexivity).
    exact IH.
  - reflexivity.
  - revert stored.
    induction saves as [|[[[n w] t] m] more IH]; intros stored Hspread; [reflexivity |].
    change (saveAll ((n, w, t, m) :: more) stored)
      with (saveAll more (saveSessionToHistory n w t m stored)).
    specialize (IH (saveSessionToHistory n w t m stored)
                   (saveSessionToHistory_spreadable n w t m stored Hspread)).
    cbn [lastEffective].
    destruct (lastEffective more) as [record|]; [exact IH |].
    rewrite IH.
    destruct t as [|first rest]; [reflexivity |].
    destruct w.
    + rewrite (saveSessionToHistory_effective n first rest m stored Hspread).
      eexists. split; [reflexivity |]. rewrite length_firstn. lia.
    + unfold saveSessionToHistory. destruct (spread stored); reflexivity.
Qed.

(** The word "old" is stored where the history should be; a visit is saved,
    then a save is refused. *)
Lemma X17_witness :
  exists older,
    saveAll [ (5, true, [pictureMessage 5 "data:,"], learning);
              (6, false, [pictureMessage 6 "data:,"], homework) ]
            (StoredString "old")
    = History (Session {| session_id := 5; session_mode := learning; timestamp := 5;
                          messages := [pictureMessage 5 "data:,"] |} :: older)
    /\ (List.length older <= 19)%nat.
Proof.
  destruct (X17_saves_rewrite_what_can_be_spread
              [ (5, true, [pictureMessage 5 "data:,"], learning);
                (6, false, [pictureMessage 6 "data:,"], homework) ]
              (StoredString "old")) as [_ [_ Hlast]].
  exact (Hlast ltac:(discriminate)).
Defined.




(* ================================================================= *)
(** * The buddies *)

(** X19: the buddy handed to the views is always one of the three BUDDIES,
    whatever id is selected: the buddy with that id when there is one, Navi
    otherwise; so the voice asked of the service is Zephyr, Puck or Kore. *)
Theorem X19_selected_buddy_is_one_of_the_buddies (selectedBuddyId : string) :
  In (selectedBuddy selectedBuddyId) BUDDIES
  /\ (isBuddy selectedBuddyId = true ->
      buddy_id (selectedBuddy selectedBuddyId) = selectedBuddyId)
  /\ (isBuddy selectedBuddyId = false -> selectedBuddy selectedBuddyId = navi)
  /\ In (voice (selectedBuddy selectedBuddyId)) ["Zephyr"; "Puck"; "Kore"]%string.
Proof.
  unfold selectedBuddy, isBuddy, BUDDIES. cbn [find existsb buddy_id navi].
  destruct (String.eqb_spec "navi" selectedBuddyId) as [<- | H1];
    [cbn; intuition discriminate |].
  destruct (String.eqb_spec "buddy" selectedBuddyId) as [<- | H2];
    [cbn; intuition discriminate |].
  destruct (String.eqb_spec "sparkle" selectedBuddyId) as [<- | H3];
    [cbn; intuition discriminate |].
  cbn. intuition discriminate.
Qed.

Lemma X19_witness :
  buddy_id (selectedBuddy "sparkle") = "sparkle"%string
  /\ selectedBuddy "dragon" = navi.
Proof.
  destruct (X19_selected_buddy_is_one_of_the_buddies "sparkle") as [_ [Hfound _]].
  destruct (X19_selected_buddy_is_one_of_the_buddies "dragon") as [_ [_ [Hmissing _]]].
  split; [apply Hfound | apply Hmissing]; reflexivity.
Defined.

(** X20: the selected buddy survives a restart.  After [handleSelectBuddy]
    with an accepted write, loading the settings gives back the selected id
    when it names a buddy, and Navi's id otherwise; and whatever is stored,
    readable or not, the loaded id names a buddy. *)
Theorem X20_settings_round_trip (buddyId : string) (stored anything : StoredSettings) :
  (isBuddy buddyId = true ->
   loadSettings (snd (handleSelectBuddy buddyId true stored)) = buddyId)
  /\ (isBuddy buddyId = false ->
      loadSettings (snd (handleSelectBuddy buddyId true stored)) = buddy_id navi)
  /\ isBuddy (loadSettings anything) = true.
Proof.
  split; [| split].
  - intros Hbuddy. unfold handleSelectBuddy, loadSettings. cbn [snd].
    rewrite Hbuddy.
    destruct buddyId; [cbn in Hbuddy; discriminate Hbuddy | reflexivity].
  - intros Hbuddy. unfold handleSelectBuddy, loadSettings. cbn [snd].
    now rewrite Hbuddy, andb_false_r.
  - unfold loadSettings.
    destruct anything as [| |[storedId|]]; try reflexivity.
    destruct (truthy storedId && isBuddy storedId) eqn:Htest; [| reflexivity].
    apply andb_true_iff in Htest. apply Htest.
Qed.

Lemma X20_witness :
  loadSettings (snd (handleSelectBuddy "buddy" true NoSettings)) = "buddy"%string
  /\ loadSettings (snd (handleSelectBuddy "dragon" true NoSettings)) = "navi"%string.
Proof.
  destruct (X20_settings_round_trip "buddy" NoSettings NoSettings) as [Hkept _].
  destruct (X20_settings_round_trip "dragon" NoSettings NoSettings) as [_ [Hdropped _]].
  split; [apply Hkept | apply Hdropped]; reflexivity.
Defined.

(* ================================================================= *)
(** * The voice-to-story view *)

(** The cleanup of the view lets go of the session, the stream and the audio
    contexts, and of nothing else. *)
Lemma story_cleanup_keeps (s : VoiceToStory.View) :
  let s' := VoiceToStory.cleanup s in
  VoiceToStory.released s'
  /\ VoiceToStory.status s' = VoiceToStory.status s
  /\ VoiceToStory.transcript s' = VoiceToStory.transcript s
  /\ VoiceToStory.transcriptRef s' = VoiceToStory.transcriptRef s
  /\ VoiceToStory.generatedContent s' = VoiceToStory.generatedContent s
  /\ VoiceToStory.error s' = VoiceToStory.error s
  /\ VoiceToStory.permissionDenied s' = VoiceToStory.permissionDenied s
  /\ VoiceToStory.aiRef s' = VoiceToStory.aiRef s.
Proof.
  assert (Hctx : forall ctx, closedOrAbsent (closeContext ctx)).
  { intros [[| |]|]; cbn; unfold closedOrAbsent; auto. }
  destruct s as [st tr content err denied client session inCtx outCtx stream processor
                 trRef closedS stoppedT disc pl].
  unfold VoiceToStory.cleanup, VoiceToStory.released. cbn.
  destruct session, stream, processor; cbn; repeat split; auto.
Qed.

Lemma story_onmessage_fields (msg : LiveServerMessage) (s : VoiceToStory.View) :
  VoiceToStory.transcriptRef (VoiceToStory.onmessage msg s)
  = (VoiceToStory.transcriptRef s
     ++ match inputTranscription msg with Some fragment => fragment | None => "" end)%string
  /\ VoiceToStory.status (VoiceToStory.onmessage msg s) = VoiceToStory.status s
  /\ (VoiceToStory.transcript s = VoiceToStory.transcriptRef s ->
      VoiceToStory.transcript (VoiceToStory.onmessage msg s)
      = VoiceToStory.transcriptRef (VoiceToStory.onmessage msg s)).
Proof.
  unfold VoiceToStory.onmessage.
  destruct (inputTranscription msg) as [fragment|]; cbn.
  - auto.
  - rewrite string_app_empty. auto.
Qed.

Lemma story_hear (messages : list LiveServerMessage) :
  forall s,
    VoiceToStory.transcript s = VoiceToStory.transcriptRef s ->
    VoiceToStory.transcript (VoiceToStory.hear messages s)
    = (VoiceToStory.transcriptRef s ++ VoiceToStory.heard messages)%string
    /\ VoiceToStory.status (VoiceToStory.hear messages s) = VoiceToStory.status s.
Proof.
  induction messages as [|msg rest IH]; intros s Hsync.
  - cbn. rewrite string_app_empty. auto.
  - destruct (story_onmessage_fields msg s) as [Hbuf [Hstatus Hsynced]].
    change (VoiceToStory.hear (msg :: rest) s)
      with (VoiceToStory.hear rest (VoiceToStory.onmessage msg s)).
    destruct (IH (VoiceToStory.onmessage msg s) (Hsynced Hsync)) as [Htr Hst].
    rewrite Htr, Hst, Hbuf, Hstatus, string_app_assoc.
    split; [| reflexivity].
    cbn [VoiceToStory.heard fold_right].
    destruct (inputTranscription msg); reflexivity.
Qed.

(** Server messages leave what the view holds alone. *)
Lemma story_hear_holds (messages : list LiveServerMessage) :
  forall s,
    VoiceToStory.sessionRef (VoiceToStory.hear messages s) = VoiceToStory.sessionRef s
    /\ VoiceToStory.mediaStreamRef (VoiceToStory.hear messages s)
       = VoiceToStory.mediaStreamRef s
    /\ VoiceToStory.inputAudioContextRef (VoiceToStory.hear messages s)
       = VoiceToStory.inputAudioContextRef s
    /\ VoiceToStory.outputAudioContextRef (VoiceToStory.hear messages s)
       = VoiceToStory.outputAudioContextRef s
    /\ VoiceToStory.closedSessions (VoiceToStory.hear messages s)
       = VoiceToStory.closedSessions s
    /\ VoiceToStory.stoppedTracks (VoiceToStory.hear messages s)
       = VoiceToStory.stoppedTracks s.
Proof.
  induction messages as [|msg rest IH]; intros s; [cbn; auto 10 |].
  change (VoiceToStory.hear (msg :: rest) s)
    with (VoiceToStory.hear rest (VoiceToStory.onmessage msg s)).
  destruct (IH (VoiceToStory.onmessage msg s)) as [H1 [H2 [H3 [H4 [H5 H6]]]]].
  rewrite H1, H2, H3, H4, H5, H6.
  unfold VoiceToStory.onmessage. destruct (inputTranscription msg); cbn; auto 10.
Qed.

(** What the cleanup of the view does to the session, the tracks and the
    contexts it holds. *)
Lemma story_cleanup_closes (session : nat) (tracks : list nat) (s : VoiceToStory.View) :
  VoiceToStory.sessionRef s = Some session ->
  VoiceToStory.mediaStreamRef s = Some tracks ->
  let s' := VoiceToStory.cleanup s in
  VoiceToStory.closedSessions s' = VoiceToStory.closedSessions s ++ [session]
  /\ VoiceToStory.stoppedTracks s' = VoiceToStory.stoppedTracks s ++ tracks
  /\ VoiceToStory.inputAudioContextRef s'
     = closeContext (VoiceToStory.inputAudioContextRef s)
  /\ VoiceToStory.outputAudioContextRef s'
     = closeContext (VoiceToStory.outputAudioContextRef s).
Proof.
  destruct s as [st tr content err denied client sess inCtx outCtx stream processor
                 trRef closedS stoppedT disc pl].
  cbn. intros -> ->. unfold VoiceToStory.cleanup. cbn.
  destruct processor; cbn; auto.
Qed.

(** X21: a recording that starts (key set, microphone granted) forgets the
    transcript of the recording before; the transcript then is the
    concatenation, in arrival order, of the transcription fragments of the
    server messages, messages without one changing nothing; and stopping
    keeps it, with the status DONE_RECORDING and session, stream and audio
    contexts released: the session the recording opened is closed, the
    tracks of its stream are stopped, the input context it created is
    closed, an output context the view held is closed, and the refs to
    session and stream are null. *)
Theorem X21_recording_transcribes_in_order
    (env : StartEnv) (tracks : list nat) (heardMessages : list LiveServerMessage)
    (s : VoiceToStory.View) :
  API_KEY env = true ->
  getUserMedia env = MicGranted tracks ->
  let told := VoiceToStory.hear heardMessages (VoiceToStory.startRecording env s) in
  VoiceToStory.transcript told = VoiceToStory.heard heardMessages
  /\ VoiceToStory.status told = VoiceToStory.RECORDING
  /\ VoiceToStory.transcript (VoiceToStory.stopRecording told)
     = VoiceToStory.heard heardMessages
  /\ VoiceToStory.status (VoiceToStory.stopRecording told) = VoiceToStory.DONE_RECORDING
  /\ VoiceToStory.released (VoiceToStory.stopRecording told)
  /\ VoiceToStory.closedSessions (VoiceToStory.stopRecording told)
     = VoiceToStory.closedSessions s ++ [connect env]
  /\ VoiceToStory.stoppedTracks (VoiceToStory.stopRecording told)
     = VoiceToStory.stoppedTracks s ++ tracks
  /\ VoiceToStory.inputAudioContextRef (VoiceToStory.stopRecording told) = Some closed
  /\ VoiceToStory.outputAudioContextRef (VoiceToStory.stopRecording told)
     = match VoiceToStory.outputAudioContextRef s with
       | Some _ => Some closed
       | None => None
       end.
Proof.
  intros Hkey Hmic told.
  assert (Hheld : VoiceToStory.sessionRef told = Some (connect env)
                  /\ VoiceToStory.mediaStreamRef told = Some tracks
                  /\ VoiceToStory.inputAudioContextRef told = Some running
                  /\ VoiceToStory.outputAudioContextRef told
                     = VoiceToStory.outputAudioContextRef s
                  /\ VoiceToStory.closedSessions told = VoiceToStory.closedSessions s
                  /\ VoiceToStory.stoppedTracks told = VoiceToStory.stoppedTracks s).
  { destruct (story_hear_holds heardMessages (VoiceToStory.startRecording env s))
      as [H1 [H2 [H3 [H4 [H5 H6]]]]].
    unfold told. rewrite H1, H2, H3, H4, H5, H6.
    unfold VoiceToStory.startRecording. rewrite Hkey, Hmic. cbn. auto 10. }
  destruct Hheld as [Hsession [Hstream [Hinput [Houtput [Hclosed Hstopped]]]]].
  assert (Hstart : VoiceToStory.transcript (VoiceToStory.startRecording env s) = EmptyString
                   /\ VoiceToStory.transcriptRef (VoiceToStory.startRecording env s)
                      = EmptyString
                   /\ VoiceToStory.status (VoiceToStory.startRecording env s)
                      = VoiceToStory.RECORDING).
  { unfold VoiceToStory.startRecording. rewrite Hkey, Hmic. cbn. auto. }
  destruct Hstart as [Htr [Href Hst]].
  destruct (story_hear heardMessages (VoiceToStory.startRecording env s))
    as [Htold Hstatus]; [congruence |].
  fold told in Htold, Hstatus. clearbody told.
  rewrite Href in Htold. cbn in Htold. rewrite Hst in Hstatus.
  destruct (story_cleanup_keeps told) as [Hrel [_ [Hkeep _]]].
  destruct (story_cleanup_closes (connect env) tracks told Hsession Hstream)
    as [C1 [C2 [C3 C4]]].
  split; [exact Htold | split; [exact Hstatus |]].
  unfold VoiceToStory.stopRecording.
  split; [| split; [reflexivity | split; [exact Hrel |]]].
  - transitivity (VoiceToStory.transcript (VoiceToStory.cleanup told));
      [reflexivity | congruence].
  - split; [| split; [| split]].
    + transitivity (VoiceToStory.closedSessions (VoiceToStory.cleanup told));
        [reflexivity | congruence].
    + transitivity (VoiceToStory.stoppedTracks (VoiceToStory.cleanup told));
        [reflexivity | congruence].
    + transitivity (VoiceToStory.inputAudioContextRef (VoiceToStory.cleanup told));
        [reflexivity | rewrite C3, Hinput; reflexivity].
    + transitivity (VoiceToStory.outputAudioContextRef (VoiceToStory.cleanup told));
        [reflexivity | rewrite C4, Houtput].
      destruct (VoiceToStory.outputAudioContextRef s) as [[| |]|]; reflexivity.
Qed.

(** A story told in two fragments, with a message in between that carries
    no transcription. *)
Lemma X21_witness :
  let stopped :=
    VoiceToStory.stopRecording
      (VoiceToStory.hear [userFragment "Once upon "; silent; userFragment "a time"]
         (VoiceToStory.startRecording grantedEnv VoiceToStory.mounted)) in
  VoiceToStory.transcript stopped
  = VoiceToStory.heard [userFragment "Once upon "; silent; userFragment "a time"]
  /\ VoiceToStory.closedSessions stopped = [0%nat]
  /\ VoiceToStory.stoppedTracks stopped = [0%nat]
  /\ VoiceToStory.inputAudioContextRef stopped = Some closed.
Proof.
  destruct (X21_recording_transcribes_in_order grantedEnv [0%nat]
              [userFragment "Once upon "; silent; userFragment "a time"]
              VoiceToStory.mounted eq_refl eq_refl)
    as [_ [_ [Hkept [_ [_ [Hclosed [Hstopped [Hinput _]]]]]]]].
  split; [exact Hkept | split; [exact Hclosed | split; [exact Hstopped | exact Hinput]]].
Defined.

(** X22: starting over forgets the story: from any state the view is IDLE
    again with no transcript, no generated content and no error text, and
    holds no session, stream or open audio context.  A generation asked for
    in that state, whatever its kind and whatever the services would answer,
    ends in ERROR with "Something went wrong, please start over." and shows
    nothing. *)
Theorem X22_start_over_forgets_the_story
    (ty : VoiceToStory.StoryOutputType) (env : VoiceToStory.GenEnv) (s : VoiceToStory.View) :
  let fresh := VoiceToStory.handleStartOver s in
  VoiceToStory.status fresh = VoiceToStory.IDLE
  /\ VoiceToStory.transcript fresh = EmptyString
  /\ VoiceToStory.generatedContent fresh = None
  /\ VoiceToStory.error fresh = None
  /\ VoiceToStory.released fresh
  /\ VoiceToStory.status (VoiceToStory.generateOutput ty env fresh) = VoiceToStory.ERROR
  /\ VoiceToStory.error (VoiceToStory.generateOutput ty env fresh)
     = Some "Something went wrong, please start over."%string
  /\ VoiceToStory.generatedContent (VoiceToStory.generateOutput ty env fresh) = None.
Proof.
  intros fresh.
  destruct (story_cleanup_keeps s) as [Hrel _].
  assert (Hgen : VoiceToStory.generateOutput ty env fresh
                 = fresh <| VoiceToStory.status := VoiceToStory.GENERATING |>
                         <| VoiceToStory.generatedContent := None |>
                         <| VoiceToStory.error
                              := Some "Something went wrong, please start over."%string |>
                         <| VoiceToStory.status := VoiceToStory.ERROR |>).
  { unfold VoiceToStory.generateOutput, fresh, VoiceToStory.handleStartOver. cbn.
    rewrite orb_true_r. reflexivity. }
  rewrite Hgen.
  repeat split; try reflexivity; apply Hrel.
Qed.

(** X23: with a transcript and an AI client, a storybook whose text comes
    back as JSON is displayed whatever becomes of its picture: an
    image model that throws, or a missing image prompt, leaves the content
    without a picture and the view in DISPLAYING_RESULT.  A text generation
    that throws, or whose text is not JSON, ends in ERROR with "Sorry, I
    couldn't create your story. Please try again." and no content.  An
    audio tale whose synthesis answers without audio data is displayed with
    its script and no audio. *)
Theorem X23_story_is_shown_without_its_picture
    (env : VoiceToStory.GenEnv) (s : VoiceToStory.View) :
  VoiceToStory.aiRef s = true ->
  truthy (VoiceToStory.transcript s) = true ->
  (forall data,
     VoiceToStory.storyAnswer env = VoiceToStory.Json data ->
     let shown := VoiceToStory.generateOutput VoiceToStory.storybook env s in
     VoiceToStory.status shown = VoiceToStory.DISPLAYING_RESULT
     /\ VoiceToStory.error shown = None
     /\ exists content,
          VoiceToStory.generatedContent shown = Some content
          /\ VoiceToStory.title content = VoiceToStory.story_title data
          /\ VoiceToStory.text content = Some (VoiceToStory.storyText data)
          /\ ((VoiceToStory.story_imagePrompt data = EmptyString
               \/ exists message,
                    VoiceToStory.imageAnswer env
                      (imagePrompt (VoiceToStory.story_imagePrompt data) None)
                    = ApiThrows message) ->
              VoiceToStory.imageUrl content = None))
  /\ (VoiceToStory.storyAnswer env = VoiceToStory.JsonThrows
      \/ VoiceToStory.storyAnswer env = VoiceToStory.NotJson ->
      let failed := VoiceToStory.generateOutput VoiceToStory.storybook env s in
      VoiceToStory.status failed = VoiceToStory.ERROR
      /\ VoiceToStory.error failed
         = Some "Sorry, I couldn't create your story. Please try again."%string
      /\ VoiceToStory.generatedContent failed = None)
  /\ (forall script sound,
        VoiceToStory.scriptAnswer env = Some script ->
        VoiceToStory.speechAnswer env = SynthResponse sound ->
        sound = None \/ sound = Some EmptyString ->
        let shown := VoiceToStory.generateOutput VoiceToStory.audio env s in
        VoiceToStory.status shown = VoiceToStory.DISPLAYING_RESULT
        /\ exists content,
             VoiceToStory.generatedContent shown = Some content
             /\ VoiceToStory.text content = Some script
             /\ VoiceToStory.audioData content = None).
Proof.
  intros Hai Htranscript.
  assert (Hguard : forall x,
            VoiceToStory.aiRef x = VoiceToStory.aiRef s ->
            VoiceToStory.transcript x = VoiceToStory.transcript s ->
            negb (VoiceToStory.aiRef x) || negb (truthy (VoiceToStory.transcript x))
            = false).
  { intros x -> ->. now rewrite Hai, Htranscript. }
  split; [| split].
  - intros data Hjson. unfold VoiceToStory.generateOutput. cbv zeta.
    rewrite Hguard by reflexivity. rewrite Hjson.
    split; [reflexivity | split; [reflexivity |]].
    eexists. split; [reflexivity |].
    cbn [VoiceToStory.title VoiceToStory.text VoiceToStory.imageUrl].
    split; [reflexivity | split; [reflexivity |]].
    intros [Hempty | [message Hthrows]]; unfold generateImageForResponse.
    + now rewrite Hempty.
    + destruct (negb true || negb (truthy (VoiceToStory.story_imagePrompt data)));
        [reflexivity | now rewrite Hthrows].
  - intros Hfails. unfold VoiceToStory.generateOutput. cbv zeta.
    rewrite Hguard by reflexivity.
    destruct Hfails as [-> | ->]; repeat split; reflexivity.
  - intros script sound Hscript Hspeech Hsilent.
    unfold VoiceToStory.generateOutput. cbv zeta.
    rewrite Hguard by reflexivity. rewrite Hscript, Hspeech.
    split; [reflexivity |].
    eexists. split; [reflexivity |].
    cbn [VoiceToStory.text VoiceToStory.audioData].
    split; [reflexivity |].
    destruct Hsilent as [-> | ->]; reflexivity.
Qed.

(** The story comes back, the image model is down. *)
Lemma X23_witness :
  let env := {| VoiceToStory.storyAnswer :=
                  VoiceToStory.Json
                    {| VoiceToStory.story_title := "The Flying Squirrel";
                       VoiceToStory.storyText := "Once upon a time...";
                       VoiceToStory.story_imagePrompt := "a squirrel with a cape" |};
                VoiceToStory.comicAnswer := VoiceToStory.NotJson;
                VoiceToStory.scriptAnswer := None;
                VoiceToStory.speechAnswer := SynthResponse None;
                VoiceToStory.imageAnswer := fun _ => ApiThrows "503" |} in
  let s := VoiceToStory.stopRecording
             (VoiceToStory.hear [userFragment "a squirrel flew"]
                (VoiceToStory.startRecording grantedEnv VoiceToStory.mounted)) in
  VoiceToStory.status (VoiceToStory.generateOutput VoiceToStory.storybook env s)
  = VoiceToStory.DISPLAYING_RESULT
  /\ VoiceToStory.status (VoiceToStory.generateOutput VoiceToStory.comic env s)
     = VoiceToStory.ERROR.
Proof.
  intros env s.
  destruct (X23_story_is_shown_without_its_picture env s eq_refl eq_refl)
    as [Hstory _].
  destruct (Hstory _ eq_refl) as [Hshown _].
  split; [exact Hshown | vm_compute; reflexivity].
Defined.

Lemma story_permission_kept (s : VoiceToStory.View) :
  VoiceToStory.permissionDenied (VoiceToStory.stopRecording s)
  = VoiceToStory.permissionDenied s
  /\ VoiceToStory.permissionDenied (VoiceToStory.handleStartOver s)
     = VoiceToStory.permissionDenied s.
Proof.
  destruct s as [st tr content err denied client session inCtx outCtx stream processor
                 trRef closedS stoppedT disc pl].
  unfold VoiceToStory.stopRecording, VoiceToStory.handleStartOver, VoiceToStory.cleanup.
  cbn. destruct session, stream, processor; split; reflexivity.
Qed.

(** X24: when the microphone cannot be had for a recording, the view ends in
    ERROR with nothing held and no transcript.  A refusal of the permission
    sets [permissionDenied] and leaves the error text empty; the screen is
    then the microphone-denied one and stays so through stop, start over and
    generation.  Any other failure shows
    "Failed to initialize microphone." on the recorder screen. *)
Theorem X24_recording_without_microphone
    (env : StartEnv) (err : Thrown) (ty : VoiceToStory.StoryOutputType)
    (genEnv : VoiceToStory.GenEnv) (s : VoiceToStory.View) :
  API_KEY env = true ->
  getUserMedia env = MicThrows err ->
  let s' := VoiceToStory.startRecording env s in
  VoiceToStory.status s' = VoiceToStory.ERROR
  /\ VoiceToStory.released s'
  /\ VoiceToStory.transcript s' = EmptyString
  /\ if match err with
        | ErrorObject name message =>
            (name =? "NotAllowedError")%string || includes message "Permission denied"
        | OtherValue => false
        end
     then VoiceToStory.error s' = None
          /\ VoiceToStory.renderContent s' = VoiceToStory.MicrophoneDenied
          /\ VoiceToStory.renderContent (VoiceToStory.stopRecording s')
             = VoiceToStory.MicrophoneDenied
          /\ VoiceToStory.renderContent (VoiceToStory.handleStartOver s')
             = VoiceToStory.MicrophoneDenied
          /\ VoiceToStory.renderContent (VoiceToStory.generateOutput ty genEnv s')
             = VoiceToStory.MicrophoneDenied
     else VoiceToStory.renderContent s'
          = VoiceToStory.Recorder false (Some "Failed to initialize microphone."%string).
Proof.
  intros Hkey Hmic s'.
  assert (Hpermission : forall x,
            VoiceToStory.permissionDenied x = true ->
            VoiceToStory.renderContent x = VoiceToStory.MicrophoneDenied).
  { intros x Hx. unfold VoiceToStory.renderContent. now rewrite Hx. }
  assert (Hgen : forall x,
            VoiceToStory.permissionDenied (VoiceToStory.generateOutput ty genEnv x)
            = VoiceToStory.permissionDenied x).
  { intros x. unfold VoiceToStory.generateOutput.
    destruct (negb _ || negb _); [reflexivity |].
    destruct ty;
      [destruct (VoiceToStory.storyAnswer genEnv)
      | destruct (VoiceToStory.comicAnswer genEnv)
      | destruct (VoiceToStory.scriptAnswer genEnv);
        [destruct (VoiceToStory.speechAnswer genEnv) |]];
      reflexivity. }
  unfold s', VoiceToStory.startRecording. rewrite Hkey, Hmic. cbn [negb]. cbv zeta.
  destruct (match err with
            | ErrorObject name message =>
                (name =? "NotAllowedError")%string || includes message "Permission denied"
            | OtherValue => false
            end) eqn:Hrefused;
    match goal with
    | |- context [VoiceToStory.cleanup ?x] =>
        destruct (story_cleanup_keeps x)
          as [Hrel [Hst [Htr [_ [_ [Herr [Hden _]]]]]]];
        set (failed := VoiceToStory.cleanup x) in *
    end;
    (split; [rewrite Hst; reflexivity
            | split; [exact Hrel | split; [rewrite Htr; reflexivity |]]]).
  - assert (Hdenied : VoiceToStory.permissionDenied failed = true)
      by (rewrite Hden; reflexivity).
    assert (Hnone : VoiceToStory.error failed = None) by (rewrite Herr; reflexivity).
    clearbody failed. clear Hden Herr Hst Htr.
    destruct (story_permission_kept failed) as [Hstop Hover].
    split; [exact Hnone |].
    split; [apply Hpermission; exact Hdenied |].
    split; [apply Hpermission; rewrite Hstop; exact Hdenied |].
    split; [apply Hpermission; rewrite Hover; exact Hdenied |].
    apply Hpermission. rewrite Hgen. exact Hdenied.
  - assert (Hscreen : VoiceToStory.permissionDenied failed = false
                      /\ VoiceToStory.status failed = VoiceToStory.ERROR
                      /\ VoiceToStory.error failed
                         = Some "Failed to initialize microphone."%string)
      by (rewrite Hden, Hst, Herr; repeat split; reflexivity).
    clearbody failed. destruct Hscreen as [H1 [H2 H3]].
    unfold VoiceToStory.renderContent. rewrite H1, H2, H3. reflexivity.
Qed.

(** The browser refuses the microphone; the child presses nothing else. *)
Lemma X24_witness :
  let env := {| API_KEY := true;
                getUserMedia := MicThrows (ErrorObject "NotAllowedError" "denied");
                connect := 0%nat |} in
  VoiceToStory.renderContent (VoiceToStory.startRecording env VoiceToStory.mounted)
  = VoiceToStory.MicrophoneDenied.
Proof.
  intros env.
  destruct (X24_recording_without_microphone env (ErrorObject "NotAllowedError" "denied")
              VoiceToStory.storybook
              {| VoiceToStory.storyAnswer := VoiceToStory.NotJson;
                 VoiceToStory.comicAnswer := VoiceToStory.NotJson;
                 VoiceToStory.scriptAnswer := None;
                 VoiceToStory.speechAnswer := SynthResponse None;
                 VoiceToStory.imageAnswer := fun _ => ApiThrows "" |}
              VoiceToStory.mounted eq_refl eq_refl)
    as [_ [_ [_ Hscreen]]].
  cbn in Hscreen. destruct Hscreen as [_ [Hdenied _]]. exact Hdenied.
Defined.

(* ================================================================= *)
(** * Searching the history *)

Lemma prefix_refl (a : string) : prefix a a = true.
Proof.
  induction a as [|c a IH]; [reflexivity |]. cbn.
  destruct (ascii_dec c c); [exact IH | contradiction].
Qed.

Lemma includes_refl (a : string) : includes a a = true.
Proof.
  unfold includes. destruct a as [|c a]; [reflexivity |].
  cbn [String.index]. now rewrite prefix_refl.
Qed.

(** X25: the search of the parent dashboard.  An empty query shows the whole
    history.  Every session shown is a stored one and, for a non-empty query,
    has a Message whose lower-cased text contains the lower-cased query.
    Searching for the text of any Message of a stored session shows that
    session; so a transcript that has just been saved is found, first in the
    list, by the text of its first Message. *)
Theorem X25_search_finds_what_was_said
    (toLowerCase : string -> string) (history : list SessionRecord)
    (now : Z) (first : Message) (rest : list Message) (mode : AppMode)
    (stored : StoredHistory) :
  filteredHistory toLowerCase EmptyString history = history
  /\ (forall query session,
        In session (filteredHistory toLowerCase query history) ->
        In session history
        /\ (truthy query = true ->
            exists message,
              In message (messages session)
              /\ includes (toLowerCase (text message)) (toLowerCase query) = true))
  /\ (forall session message,
        In session history -> In message (messages session) ->
        In session (filteredHistory toLowerCase (text message) history))
  /\ (sessionsOnly stored = true ->
      hd_error (filteredHistory toLowerCase (text first)
                  (sessionsOf (saveSessionToHistory now true (first :: rest) mode stored)))
      = Some {| session_id := now; session_mode := mode; timestamp := now;
                messages := first :: rest |}).
Proof.
  assert (Hfound : forall session message,
            In message (messages session) ->
            (if truthy (text message)
             then existsb (fun m => includes (toLowerCase (text m))
                                      (toLowerCase (text message)))
                          (messages session)
             else true) = true).
  { intros session message Hin. destruct (truthy (text message)); [| reflexivity].
    apply existsb_exists. exists message. split; [exact Hin | apply includes_refl]. }
  split; [| split; [| split]].
  - unfold filteredHistory. cbn [truthy].
    induction history as [|session more IH]; [reflexivity |].
    cbn [filter]. now rewrite IH.
  - intros query session Hin. unfold filteredHistory in Hin.
    apply filter_In in Hin. destruct Hin as [Hstored Hmatch].
    split; [exact Hstored |].
    intros Hquery. rewrite Hquery in Hmatch.
    apply existsb_exists in Hmatch. exact Hmatch.
  - intros session message Hstored Hin. unfold filteredHistory.
    apply filter_In. split; [exact Hstored | now apply Hfound].
  - intros Honly.
    assert (Hsaved : sessionsOf (saveSessionToHistory now true (first :: rest) mode stored)
                     = {| session_id := now; session_mode := mode; timestamp := now;
                          messages := first :: rest |}
                       :: firstn 19 (sessionsOf stored)).
    { rewrite saveSessionToHistory_effective
        by (destruct stored; try discriminate; discriminate Honly).
      rewrite (sessionsOnly_entries stored Honly), firstn_map.
      exact (proj1 (sessionsOf_sessions
                      ({| session_id := now; session_mode := mode; timestamp := now;
                          messages := first :: rest |}
                       :: firstn 19 (sessionsOf stored)))). }
    rewrite Hsaved. unfold filteredHistory. cbn [filter].
    rewrite (Hfound {| session_id := now; session_mode := mode; timestamp := now;
                       messages := first :: rest |} first (or_introl eq_refl)).
    reflexivity.
Qed.

(** A homework session is saved and looked for by its first words. *)
Lemma X25_witness :
  let first := {| id := 1; speaker := ai; text := "Hello! What subject today?";
                  imageUrl := None; isGeneratingImage := None; feedback := fb_undefined |} in
  hd_error (filteredHistory (fun t => t) (text first)
              (sessionsOf (saveSessionToHistory 9 true [first] homework NoHistory)))
  = Some {| session_id := 9; session_mode := homework; timestamp := 9;
            messages := [first] |}.
Proof.
  intros first.
  destruct (X25_search_finds_what_was_said (fun t => t) [] 9 first [] homework NoHistory)
    as [_ [_ [_ Hfound]]].
  apply Hfound. reflexivity.
Defined.
